(** * Landmark-driven scene composer: a shallow embedding

    The TypeScript sources embedded here are

    - the mouth-mesh page ([landmarksToMesh], the gathering loop and the
      curvature pass of its [predictWebcam], the reduction of
      [drawClippingRegion]),
    - [src/pin/pin2.ts] ([PinnedObject.applyMatrix], [detectFaceLandmarks]),
    - [src/pin/pin.ts] ([predictWebcam]),
    - [src/hands/hands.ts] with [generateHTML] and the [Game] and [Target]
      classes.

    JavaScript numbers are idealised as rationals ([Q]): the rounding of
    IEEE doubles and of [Float32Array] stores is not modelled, nor are NaN
    and the infinities.  Reading a property of [undefined] raises a
    [TypeError]; that is the only exception the embedded code can raise. *)

From Stdlib Require Import QArith Qminmax Qabs Lqa.
From stdpp Require Import gmap strings list.

Set Default Proof Using "Type*".

Local Open Scope Q_scope.

(** ** JavaScript completions *)

Inductive JsError : Type := TypeError.

Inductive completion (A : Type) : Type :=
  | Normal (a : A)
  | Throw (e : JsError).
Arguments Normal {A} a.
Arguments Throw {A} e.

#[global] Instance completion_ret : MRet completion := fun A a => Normal a.
#[global] Instance completion_bind : MBind completion := fun A B k c =>
  match c with
  | Normal a => k a
  | Throw e => Throw e
  end.

(** [o.p] where [o] may be [undefined]. *)
Definition get {A : Type} (o : option A) : completion A :=
  match o with
  | Some a => Normal a
  | None => Throw TypeError
  end.

(** [for (let i = start; i < start + n; i++) body]. *)
Fixpoint for_range {St : Type} (start n : nat)
    (body : nat -> St -> completion St) (s : St) : completion St :=
  match n with
  | O => Normal s
  | S n' => s' ← body start s; for_range (S start) n' body s'
  end.

(** Truthiness of a number: everything but zero. *)
Definition truthy (q : Q) : bool := negb (Qeq_bool q 0).

Definition Qltb (a b : Q) : bool := negb (Qle_bool b a).

(** ** The parts of three.js the pages rely on *)

Module Vector3.
Record t : Type := mk { x : Q; y : Q; z : Q }.

Definition add (a b : t) : t := mk (x a + x b) (y a + y b) (z a + z b).
Definition multiply (a b : t) : t := mk (x a * x b) (y a * y b) (z a * z b).
Definition multiplyScalar (a : t) (s : Q) : t := mk (x a * s) (y a * s) (z a * s).
Definition negate (a : t) : t := mk (- x a) (- y a) (- z a).
Definition min (a b : t) : t := mk (Qmin (x a) (x b)) (Qmin (y a) (y b)) (Qmin (z a) (z b)).
Definition max (a b : t) : t := mk (Qmax (x a) (x b)) (Qmax (y a) (y b)) (Qmax (z a) (z b)).

(** Component-wise equality of rationals. *)
Definition equiv (a b : t) : Prop := x a == x b /\ y a == y b /\ z a == z b.
End Vector3.

Module BufferAttribute.
Record t : Type := mk { array : list Q; itemSize : nat }.

Definition count (a : t) : nat := (length (array a) / itemSize a)%nat.
Definition getX (a : t) (i : nat) : option Q := array a !! (i * itemSize a)%nat.
Definition getY (a : t) (i : nat) : option Q := array a !! (i * itemSize a + 1)%nat.
Definition getZ (a : t) (i : nat) : option Q := array a !! (i * itemSize a + 2)%nat.
End BufferAttribute.

Module BufferGeometry.
Record t : Type := mk { position : BufferAttribute.t; uv : BufferAttribute.t }.

(** The points of a flat xyz array ([Box3.setFromBufferAttribute] reads
    them through [getX], [getY], [getZ]). *)
Fixpoint points (a : list Q) : list Vector3.t :=
  match a with
  | px :: py :: pz :: rest => Vector3.mk px py pz :: points rest
  | _ => []
  end.

(** [Box3]: [None] is the empty box, [Some (min, max)] otherwise. *)
Definition expandByPoint (b : Vector3.t * Vector3.t) (p : Vector3.t) :
    Vector3.t * Vector3.t :=
  (Vector3.min (fst b) p, Vector3.max (snd b) p).

Definition computeBoundingBox (g : t) : option (Vector3.t * Vector3.t) :=
  match points (BufferAttribute.array (position g)) with
  | [] => None
  | p :: ps => Some (fold_left expandByPoint ps (p, p))
  end.

(** [Box3.getCenter]: the origin for the empty box, else (min + max) * 0.5. *)
Definition getCenter (b : option (Vector3.t * Vector3.t)) : Vector3.t :=
  match b with
  | None => Vector3.mk 0 0 0
  | Some (lo, hi) => Vector3.multiplyScalar (Vector3.add lo hi) (1 # 2)
  end.

(** [translate]: every vertex of the position attribute is moved by [o]. *)
Fixpoint translate_array (o : Vector3.t) (a : list Q) : list Q :=
  match a with
  | px :: py :: pz :: rest =>
      (px + Vector3.x o) :: (py + Vector3.y o) :: (pz + Vector3.z o)
        :: translate_array o rest
  | rest => rest
  end.

Definition translate (o : Vector3.t) (g : t) : t :=
  let p := position g in
  mk (BufferAttribute.mk (translate_array o (BufferAttribute.array p))
                         (BufferAttribute.itemSize p))
     (uv g).

(** [center]: the geometry is moved so that the centre of its bounding
    box is the origin. *)
Definition center_offset (g : t) : Vector3.t :=
  Vector3.negate (getCenter (computeBoundingBox g)).

Definition center (g : t) : t := translate (center_offset g) g.
End BufferGeometry.

Module Mesh.
Record t : Type := mk {
  geometry : BufferGeometry.t;
  position : Vector3.t;
  scale : Vector3.t
}.

(** A non-indexed geometry draws one triangle per three vertices. *)
Definition triangle_count (m : t) : nat :=
  (BufferAttribute.count (BufferGeometry.position (geometry m)) / 3)%nat.

Definition vertex_position (m : t) (v : nat) : option (Q * Q * Q) :=
  let a := BufferGeometry.position (geometry m) in
  px ← BufferAttribute.getX a v;
  py ← BufferAttribute.getY a v;
  pz ← BufferAttribute.getZ a v;
  Some (px, py, pz).

Definition vertex_uv (m : t) (v : nat) : option (Q * Q) :=
  let a := BufferGeometry.uv (geometry m) in
  u ← BufferAttribute.getX a v;
  w ← BufferAttribute.getY a v;
  Some (u, w).
End Mesh.

(** ** The mouth-mesh page *)

Module NormalizedLandmark.
Record t : Type := mk { x : Q; y : Q; z : Q }.
End NormalizedLandmark.

Module Mouth.

Definition MOUTH_INDICES_SORTED : list nat :=
  [15; 16; 14; 17; 13; 18; 12; 19; 11; 0; 10; 1; 9; 2; 8; 3; 7; 4; 6; 5]%nat.

(** The array [landmarksToMesh] is given may hold [undefined] in a slot:
    the page pushes [results.faceLandmarks[0][index]] for every mouth index,
    whether or not the face has it.  Such an array is a list of options,
    and [slot a k] is [a[k]]: [None] past the end and in a slot that holds
    [undefined]. *)
Definition slot (a : list (option NormalizedLandmark.t)) (k : nat) :
    option NormalizedLandmark.t :=
  mjoin (a !! k).

(** The "Draw numbers" loop puts a label at every entry of the array: it
    reads [landmark.x] of each slot in turn.  The label meshes it adds to
    the scene (a [TextGeometry] each, which three.js builds with or without
    a font) are left out. *)
Fixpoint label_all (landmarksCopy : list (option NormalizedLandmark.t)) :
    completion unit :=
  match landmarksCopy with
  | [] => Normal tt
  | landmark :: rest => _ ← get landmark; label_all rest
  end.

Section Triangulator.
(** The ring the loop walks; the page fixes it to [MOUTH_INDICES_SORTED]. *)
Variable ring : list nat.

(** [CONFIGS.DRAW_NUMBERS], a switch of the GUI; it is off when the page
    loads. *)
Variable DRAW_NUMBERS : bool.

(** [landmarksCopy[ring[i]]], whose fields are read next. *)
Definition ring_landmark (landmarksCopy : list (option NormalizedLandmark.t)) (i : nat) :
    completion NormalizedLandmark.t :=
  get (k ← ring !! i; slot landmarksCopy k).

(** The loop's mutable variables. *)
Record strip : Type := mkStrip {
  vertices : list (list Q);
  uvs : list (list Q);
  sum : Vector3.t
}.

Definition scaled (l : NormalizedLandmark.t) : Vector3.t :=
  Vector3.mk (NormalizedLandmark.x l * 2) (NormalizedLandmark.y l * 2)
             (NormalizedLandmark.z l * 2).

Definition coords (v : Vector3.t) : list Q :=
  [Vector3.x v; Vector3.y v; Vector3.z v].

Definition uv_of (l : NormalizedLandmark.t) : list Q :=
  [NormalizedLandmark.x l; NormalizedLandmark.y l].

(** One iteration of the "Setup vertices" loop. *)
Definition strip_body (landmarksCopy : list (option NormalizedLandmark.t))
    (i : nat) (s : strip) : completion strip :=
  l1 ← ring_landmark landmarksCopy i;
  l2 ← ring_landmark landmarksCopy (i + 1)%nat;
  l3 ← ring_landmark landmarksCopy (i + 2)%nat;
  let v1 := scaled l1 in
  let v2 := scaled l2 in
  let v3 := scaled l3 in
  let vertices' := vertices s ++ [coords v1; coords v2; coords v3] in
  let uvs' := uvs s ++ [uv_of l1; uv_of l2; uv_of l3] in
  let sum1 := if (i =? 0)%nat then Vector3.add (sum s) v1 else sum s in
  let sum2 := if (i =? length ring - 3)%nat then Vector3.add sum1 v3 else sum1 in
  Normal (mkStrip vertices' uvs' (Vector3.add sum2 v2)).

Definition setup_vertices (landmarksCopy : list (option NormalizedLandmark.t)) :
    completion strip :=
  for_range 0 (length ring - 2)%nat (strip_body landmarksCopy)
            (mkStrip [] [] (Vector3.mk 0 0 0)).

Definition averagePoint (s : strip) : Vector3.t :=
  let n := inject_Z (Z.of_nat (length ring)) in
  Vector3.mk (Vector3.x (sum s) / n) (Vector3.y (sum s) / n) (Vector3.z (sum s) / n).

(** The geometry before [geometry.center()]. *)
Definition raw_geometry (s : strip) : BufferGeometry.t :=
  BufferGeometry.mk (BufferAttribute.mk (concat (vertices s)) 3)
                    (BufferAttribute.mk (concat (uvs s)) 2).

(** [if(CONFIGS.DRAW_NUMBERS) { ... }]. *)
Definition draw_numbers (landmarksCopy : list (option NormalizedLandmark.t)) :
    completion unit :=
  if DRAW_NUMBERS then label_all landmarksCopy else Normal tt.

(** [landmarksToMesh]; [None] is the [undefined] of the early return. *)
Definition landmarksToMesh_on (landmarks : list (option NormalizedLandmark.t)) :
    completion (option Mesh.t) :=
  if (length landmarks =? 0)%nat then Normal None
  else
    s ← setup_vertices landmarks;
    _ ← draw_numbers landmarks;
    Normal (Some (Mesh.mk (BufferGeometry.center (raw_geometry s))
                          (averagePoint s)
                          (Vector3.mk 1 1 1))).
End Triangulator.

Definition landmarksToMesh (DRAW_NUMBERS : bool) :
    list (option NormalizedLandmark.t) -> completion (option Mesh.t) :=
  landmarksToMesh_on MOUTH_INDICES_SORTED DRAW_NUMBERS.

(** The [MODIFICATIONS] object bound to the GUI sliders. *)
Record Modifications : Type := mkModifications {
  scale : Q;
  flipX : bool;
  flipY : bool;
  curvature : Q
}.

Section Deformer.
(** [Math.sin], of which nothing is assumed. *)
Variable Math_sin : Q -> Q.

(** One iteration of the curvature loop, at array index [i].  A typed
    array ignores a store past its end, and so does the list insert. *)
Definition curve_body (c : Q) (origin : Vector3.t) (i : nat) (vertices : list Q) :
    list Q :=
  match vertices !! i, vertices !! (i + 1)%nat with
  | Some vx, Some vy =>
      let distX := Qabs (vx - Vector3.x origin) in
      <[(i + 1)%nat := vy + Math_sin (distX * c) * (1 # 10)]> vertices
  | _, _ => vertices
  end.

(** [for (let i = start; i < vertices.length; i += 3)], [n] iterations. *)
Fixpoint curve_loop (c : Q) (origin : Vector3.t) (n i : nat) (vertices : list Q) :
    list Q :=
  match n with
  | O => vertices
  | S n' => curve_loop c origin n' (i + 3)%nat (curve_body c origin i vertices)
  end.

Definition curve (c : Q) (origin : Vector3.t) (vertices : list Q) : list Q :=
  curve_loop c origin ((length vertices + 2) / 3)%nat 0 vertices.

(** What [predictWebcam] does to a mesh that [landmarksToMesh] returned,
    before it adds the mesh to the scene. *)
Definition modify (M : Modifications) (mesh : Mesh.t) : Mesh.t :=
  let s := scale M in
  let sx := if flipX M then s * -1 else s in
  let sy := if flipY M then s * -1 else s in
  let g := Mesh.geometry mesh in
  let p := BufferGeometry.position g in
  let g' :=
    if truthy (curvature M) then
      BufferGeometry.mk
        (BufferAttribute.mk
           (curve (curvature M) (Mesh.position mesh) (BufferAttribute.array p))
           (BufferAttribute.itemSize p))
        (BufferGeometry.uv g)
    else g in
  Mesh.mk g' (Mesh.position mesh) (Vector3.mk sx sy s).

(** The mouth mesh after a frame: replaced when [landmarksToMesh] gives
    a mesh, kept otherwise. *)
Definition mouth_frame (DRAW_NUMBERS : bool) (M : Modifications)
    (mouthLandmarks : list (option NormalizedLandmark.t))
    (mouthMesh : option Mesh.t) : completion (option Mesh.t) :=
  mesh ← landmarksToMesh DRAW_NUMBERS mouthLandmarks;
  match mesh with
  | Some m => Normal (Some (modify M m))
  | None => Normal mouthMesh
  end.
End Deformer.

(** *** Vocabulary of the statements *)

(** The landmark the ring's [j]-th entry points at, when there is one. *)
Definition ring_point (ring : list nat) (landmarks : list (option NormalizedLandmark.t))
    (j : nat) : option NormalizedLandmark.t :=
  k ← ring !! j; slot landmarks k.

Definition all_present (ring : list nat) (landmarks : list (option NormalizedLandmark.t)) :
    Prop :=
  forall j : nat, (j < length ring)%nat -> is_Some (ring_point ring landmarks j).

(** The labels can be drawn: with the switch on, no slot of the array
    holds [undefined]. *)
Definition labels_readable (DRAW_NUMBERS : bool)
    (landmarks : list (option NormalizedLandmark.t)) : Prop :=
  DRAW_NUMBERS = true -> Forall is_Some landmarks.

(** Sum of [f 0], ..., [f (n - 1)]. *)
Fixpoint vsum (f : nat -> Vector3.t) (n : nat) : Vector3.t :=
  match n with
  | O => Vector3.mk 0 0 0
  | S n' => Vector3.add (vsum f n') (f n')
  end.

Definition divide (v : Vector3.t) (n : nat) : Vector3.t :=
  let d := inject_Z (Z.of_nat n) in
  Vector3.mk (Vector3.x v / d) (Vector3.y v / d) (Vector3.z v / d).

Definition raw_point (l : option NormalizedLandmark.t) : Vector3.t :=
  match l with
  | Some l => Vector3.mk (NormalizedLandmark.x l) (NormalizedLandmark.y l)
                         (NormalizedLandmark.z l)
  | None => Vector3.mk 0 0 0
  end.

(** The vertices the traversal adds up: the first vertex of the first
    triangle, the middle vertex of every triangle, the last vertex of the
    last triangle. *)
Definition traversal (m : Mesh.t) : list (option (Q * Q * Q)) :=
  let t := Mesh.triangle_count m in
  Mesh.vertex_position m 0
    :: map (fun i => Mesh.vertex_position m (3 * i + 1)%nat) (seq 0 t)
    ++ [Mesh.vertex_position m (3 * (t - 1) + 2)%nat].

Definition point_of (v : option (Q * Q * Q)) : Vector3.t :=
  match v with
  | Some (a, b, c) => Vector3.mk a b c
  | None => Vector3.mk 0 0 0
  end.

Definition traversal_mean (m : Mesh.t) : Vector3.t :=
  let vs := traversal m in
  divide (fold_left (fun acc v => Vector3.add acc (point_of v)) vs (Vector3.mk 0 0 0))
         (length vs).

(** The y coordinate the claim gives a vertex at [(vx, vy, _)]. *)
Definition displaced_y (Math_sin : Q -> Q) (c originX vx vy : Q) : Q :=
  vy + Math_sin (Qabs (vx - originX) * c) * (1 # 10).

(** What one iteration of the curvature loop leaves at index [i + 1],
    given what it read at [i] and [i + 1]. *)
Definition stored (Math_sin : Q -> Q) (c : Q) (origin : Vector3.t)
    (ox oy : option Q) : option Q :=
  match ox, oy with
  | Some vx, Some vy => Some (displaced_y Math_sin c (Vector3.x origin) vx vy)
  | _, _ => oy
  end.

(** The position array of a mesh. *)
Definition position_array (m : Mesh.t) : list Q :=
  BufferAttribute.array (BufferGeometry.position (Mesh.geometry m)).

(** The mean of all the vertices of a mesh, each counted as often as it
    is emitted. *)
Definition vertex_mean (m : Mesh.t) : Vector3.t :=
  let ps := BufferGeometry.points (position_array m) in
  divide (fold_left Vector3.add ps (Vector3.mk 0 0 0)) (length ps).

(** The same landmark as a total function, for indices inside the ring. *)
Definition the_point (ring : list nat) (landmarks : list (option NormalizedLandmark.t))
    (j : nat) : NormalizedLandmark.t :=
  default (NormalizedLandmark.mk 0 0 0) (ring_point ring landmarks j).

Definition triangle_vertices (ring : list nat) (landmarks : list (option NormalizedLandmark.t))
    (i : nat) : list (list Q) :=
  [coords (scaled (the_point ring landmarks i));
   coords (scaled (the_point ring landmarks (i + 1)%nat));
   coords (scaled (the_point ring landmarks (i + 2)%nat))].

Definition triangle_uvs (ring : list nat) (landmarks : list (option NormalizedLandmark.t))
    (i : nat) : list (list Q) :=
  [uv_of (the_point ring landmarks i);
   uv_of (the_point ring landmarks (i + 1));
   uv_of (the_point ring landmarks (i + 2))].

(** What holds of the loop's variables after [j] iterations. *)
Definition strip_inv (ring : list nat) (landmarks : list (option NormalizedLandmark.t))
    (j : nat) (s : strip) : Prop :=
  let f i := scaled (the_point ring landmarks i) in
  vertices s = flat_map (triangle_vertices ring landmarks) (seq 0 j)
  /\ uvs s = flat_map (triangle_uvs ring landmarks) (seq 0 j)
  /\ (j = 0%nat -> Vector3.equiv (sum s) (Vector3.mk 0 0 0))
  /\ ((0 < j)%nat -> (j < length ring - 2)%nat ->
        Vector3.equiv (sum s) (vsum f (j + 1)%nat))
  /\ ((0 < j)%nat -> j = (length ring - 2)%nat ->
        Vector3.equiv (sum s) (vsum f (length ring))).

End Mouth.

(** ** The pinned object of [src/pin/pin2.ts] *)

Module Matrix4.
(** Entries by row and column, in the order of [Matrix4.set]. *)
Record t : Type := set {
  n11 : Q; n12 : Q; n13 : Q; n14 : Q;
  n21 : Q; n22 : Q; n23 : Q; n24 : Q;
  n31 : Q; n32 : Q; n33 : Q; n34 : Q;
  n41 : Q; n42 : Q; n43 : Q; n44 : Q
}.

(** [fromArray]: the array lists the entries column by column. *)
Definition fromArray (a : list Q) : t :=
  let e (i : nat) := nth i a 0 in
  set (e 0%nat) (e 4%nat) (e 8%nat) (e 12%nat)
      (e 1%nat) (e 5%nat) (e 9%nat) (e 13%nat)
      (e 2%nat) (e 6%nat) (e 10%nat) (e 14%nat)
      (e 3%nat) (e 7%nat) (e 11%nat) (e 15%nat).

Definition makeTranslation (tx ty tz : Q) : t :=
  set 1 0 0 tx
      0 1 0 ty
      0 0 1 tz
      0 0 0 1.

Definition makeScale (sx sy sz : Q) : t :=
  set sx 0 0 0
      0 sy 0 0
      0 0 sz 0
      0 0 0 1.

(** [a.multiply(b)] leaves a times b in [a]. *)
Definition multiply (a b : t) : t :=
  set (n11 a * n11 b + n12 a * n21 b + n13 a * n31 b + n14 a * n41 b)
      (n11 a * n12 b + n12 a * n22 b + n13 a * n32 b + n14 a * n42 b)
      (n11 a * n13 b + n12 a * n23 b + n13 a * n33 b + n14 a * n43 b)
      (n11 a * n14 b + n12 a * n24 b + n13 a * n34 b + n14 a * n44 b)
      (n21 a * n11 b + n22 a * n21 b + n23 a * n31 b + n24 a * n41 b)
      (n21 a * n12 b + n22 a * n22 b + n23 a * n32 b + n24 a * n42 b)
      (n21 a * n13 b + n22 a * n23 b + n23 a * n33 b + n24 a * n43 b)
      (n21 a * n14 b + n22 a * n24 b + n23 a * n34 b + n24 a * n44 b)
      (n31 a * n11 b + n32 a * n21 b + n33 a * n31 b + n34 a * n41 b)
      (n31 a * n12 b + n32 a * n22 b + n33 a * n32 b + n34 a * n42 b)
      (n31 a * n13 b + n32 a * n23 b + n33 a * n33 b + n34 a * n43 b)
      (n31 a * n14 b + n32 a * n24 b + n33 a * n34 b + n34 a * n44 b)
      (n41 a * n11 b + n42 a * n21 b + n43 a * n31 b + n44 a * n41 b)
      (n41 a * n12 b + n42 a * n22 b + n43 a * n32 b + n44 a * n42 b)
      (n41 a * n13 b + n42 a * n23 b + n43 a * n33 b + n44 a * n43 b)
      (n41 a * n14 b + n42 a * n24 b + n43 a * n34 b + n44 a * n44 b).

(** [m.scale(v)] multiplies the first three columns by [v]'s components. *)
Definition scale (m : t) (v : Vector3.t) : t :=
  let '(sx, sy, sz) := (Vector3.x v, Vector3.y v, Vector3.z v) in
  set (n11 m * sx) (n12 m * sy) (n13 m * sz) (n14 m)
      (n21 m * sx) (n22 m * sy) (n23 m * sz) (n24 m)
      (n31 m * sx) (n32 m * sy) (n33 m * sz) (n34 m)
      (n41 m * sx) (n42 m * sy) (n43 m * sz) (n44 m).

Definition entries (m : t) : list Q :=
  [n11 m; n12 m; n13 m; n14 m; n21 m; n22 m; n23 m; n24 m;
   n31 m; n32 m; n33 m; n34 m; n41 m; n42 m; n43 m; n44 m].

(** Entry-wise equality of rationals. *)
Definition equiv (a b : t) : Prop := Forall2 Qeq (entries a) (entries b).
End Matrix4.

Module Pin.

(** [gltf.scene] with the objects below it: [traverse] visits the scene
    itself, then its descendants. *)
Record GLTFScene : Type := mkScene {
  visible : bool;
  descendants_visible : list bool;
  matrixAutoUpdate : bool;
  matrix : Matrix4.t
}.

Record PinnedObject : Type := mkObject {
  gltf : option GLTFScene;
  vertexToPin : nat
}.

Record FaceLandmarkerResult : Type := mkResult {
  faceLandmarks : list (list NormalizedLandmark.t);
  (** the [data] arrays of the matrices, when the detector gives any *)
  facialTransformationMatrixes : option (list (list Q))
}.

Definition all_visible (s : GLTFScene) : bool :=
  visible s && forallb id (descendants_visible s).

Definition none_visible (s : GLTFScene) : bool :=
  negb (visible s) && forallb negb (descendants_visible s).

(** [scene.traverse(o => o.visible = b)]. *)
Definition set_visible (b : bool) (s : GLTFScene) : GLTFScene :=
  mkScene b (map (fun _ => b) (descendants_visible s)) (matrixAutoUpdate s) (matrix s).

(** [applyMatrix(matrix, options)]; [scale] is [options.scale], 1 when
    the option is left out. *)
Definition applyMatrix (o : PinnedObject) (m : Matrix4.t) (scale : option Q) :
    PinnedObject :=
  let s := default 1 scale in
  match gltf o with
  | None => o
  | Some g =>
      let m' := Matrix4.scale m (Vector3.mk s s s) in
      mkObject (Some (mkScene (visible g) (descendants_visible g) false m'))
               (vertexToPin o)
  end.

Definition displacement (vertex center l234 l454 l10 l152 : NormalizedLandmark.t) :
    Vector3.t :=
  let faceWidth := Qabs (NormalizedLandmark.x l234 - NormalizedLandmark.x l454) * 3 in
  let faceHeight := Qabs (NormalizedLandmark.y l10 - NormalizedLandmark.y l152) * (5 # 4) in
  let faceDepth := Qabs (NormalizedLandmark.z l10 - NormalizedLandmark.z l152) in
  let faceDimensions := Vector3.mk faceWidth faceHeight faceDepth in
  Vector3.multiplyScalar
    (Vector3.multiply
       (Vector3.mk (NormalizedLandmark.x vertex - NormalizedLandmark.x center)
                   (- NormalizedLandmark.y vertex + NormalizedLandmark.y center)
                   (NormalizedLandmark.z vertex - NormalizedLandmark.z center))
       faceDimensions)
    120.

Definition to_ndc (vertex : NormalizedLandmark.t) : Vector3.t :=
  let ndcX := NormalizedLandmark.x vertex * 2 - 1 in
  let ndcY := 1 - NormalizedLandmark.y vertex * 2 in
  Vector3.mk ndcX ndcY (NormalizedLandmark.z vertex).

Section Retargeter.
(** [v.unproject(scene.camera)] for the camera of the frame. *)
Variable unproject : Vector3.t -> Vector3.t.

(** The matrix handed to [applyMatrix] for the first transformation
    matrix [data] of the result. *)
Definition retarget (o : PinnedObject) (landmarks : FaceLandmarkerResult)
    (data : list Q) : completion Matrix4.t :=
  let matrix := Matrix4.fromArray data in
  face ← get (faceLandmarks landmarks !! 0%nat);
  l234 ← get (face !! 234%nat);
  l454 ← get (face !! 454%nat);
  l10 ← get (face !! 10%nat);
  l152 ← get (face !! 152%nat);
  vertex ← get (face !! vertexToPin o);
  center ← get (face !! 1%nat);
  let d := displacement vertex center l234 l454 l10 l152 in
  let ndc := unproject (to_ndc vertex) in
  let vertexTransformationMatrix :=
    Matrix4.makeTranslation (Vector3.x ndc) (Vector3.y ndc) (Vector3.z ndc) in
  let matrix := Matrix4.multiply matrix vertexTransformationMatrix in
  let translationMatrix :=
    Matrix4.makeTranslation (Vector3.x d) (Vector3.y d) (Vector3.z d) in
  Normal (Matrix4.multiply matrix translationMatrix).

(** [detectFaceLandmarks] up to the debug drawing.  [detection] is [None]
    while [faceLandmarker] is unset, else the result of [detectForVideo].
    The object is returned as the frame leaves it, also when it throws. *)
Definition detectFaceLandmarks (o : PinnedObject)
    (detection : option FaceLandmarkerResult) : PinnedObject * completion unit :=
  match detection with
  | None => (o, Normal tt)
  | Some landmarks =>
      let shown := (0 <? length (faceLandmarks landmarks))%nat in
      let o1 := mkObject (set_visible shown <$> gltf o) (vertexToPin o) in
      match facialTransformationMatrixes landmarks with
      | Some (data :: _) =>
          match retarget o1 landmarks data with
          | Normal m => (applyMatrix o1 m (Some 5), Normal tt)
          | Throw e => (o1, Throw e)
          end
      | _ => (o1, Normal tt)
      end
  end.
End Retargeter.

End Pin.

(** ** The target game of [src/hands/hands.ts] *)

Module BoundingBox.
Record t : Type := mk { originX : Q; originY : Q; width : Q; height : Q; angle : Q }.
End BoundingBox.

Module Target.
Record t : Type := mk { x : Q; y : Q; radius : Q }.

(** The test of [Target.hit]; on [true] the method dispatches "hit". *)
Definition inside (t : t) (box : BoundingBox.t) : bool :=
  let bx := BoundingBox.originX box in
  let by' := BoundingBox.originY box in
  Qle_bool bx (x t) && Qle_bool (x t) (bx + BoundingBox.width box)
  && Qle_bool by' (y t) && Qle_bool (y t) (by' + BoundingBox.height box).
End Target.

Module Category.
Record t : Type := mk { categoryName : string; score : Q; displayName : string }.
End Category.

Module Hands.

Record GestureRecognizerResult : Type := mkResult {
  landmarks : option (list (list NormalizedLandmark.t));
  gestures : list (list Category.t);
  handedness : list (list Category.t)
}.

(** What a run leaves behind: the calls of [Target.hit] made by the frame
    loop (for which hand, with which outcome) and the "scoreChanged" events
    dispatched to the listeners. *)
Inductive Event : Type :=
  | HitTested (hand : nat) (hit : bool)
  | ScoreChanged (detail : Z).

(** The [Game] object with the canvas of its renderer; [draws] counts the
    calls of [Math.random] made so far, by the page and by three.js alike,
    and [log] grows at the end. *)
Record Game : Type := mkGame {
  score : Z;
  lastHandStates : gmap nat string;
  target : Target.t;
  canvas_width : Q;
  canvas_height : Q;
  draws : nat;
  log : list Event
}.

Definition radius : Q := 5.
Definition margin : Q := 20.

(** The position [generateNewTarget] computes from the raw products
    [Math.random() * canvas.width] and [Math.random() * canvas.height]. *)
Definition clamp_position (raw size : Q) : Q :=
  Qmax (radius + margin) (Qmin raw (size - radius - margin)).

Section Game.
(** [Math_random n] is what the [n]-th call of [Math.random] returns,
    counting from 0 and counting every call, whoever makes it. *)
Variable Math_random : nat -> Q.

(** [new Target(x, y, radius, model)] builds its mesh through three.js,
    which calls [Math.random] for the UUID of every object it creates or
    clones (geometry, material and mesh of the sphere; the nodes of the
    loaded model).  [Target_draws n] is the number of these calls when
    [n] calls have been made before; nothing is assumed of it. *)
Variable Target_draws : nat -> nat.

Definition generateNewTarget (g : Game) : Game :=
  let x0 := Math_random (draws g) * canvas_width g in
  let y0 := Math_random (S (draws g)) * canvas_height g in
  let tx := clamp_position x0 (canvas_width g) in
  let ty := clamp_position y0 (canvas_height g) in
  let drawn := S (S (draws g)) in
  mkGame (score g) (lastHandStates g) (Target.mk tx ty radius)
         (canvas_width g) (canvas_height g) (drawn + Target_draws drawn)%nat (log g).

Definition addScore (points : Z) (g : Game) : Game :=
  let score' := (score g + points)%Z in
  mkGame score' (lastHandStates g) (target g) (canvas_width g) (canvas_height g)
         (draws g) (log g ++ [ScoreChanged score']).

(** The listener of "hit" that [generateNewTarget] registers. *)
Definition onHit (g : Game) : Game := generateNewTarget (addScore 1 g).

(** [game.target.hit(box)] called for hand [i]. *)
Definition hit (i : nat) (box : BoundingBox.t) (g : Game) : Game :=
  let h := Target.inside (target g) box in
  let g1 := mkGame (score g) (lastHandStates g) (target g) (canvas_width g)
                   (canvas_height g) (draws g) (log g ++ [HitTested i h]) in
  if h then onHit g1 else g1.

Definition set_lastHandState (i : nat) (label : string) (g : Game) : Game :=
  mkGame (score g) (<[i := label]> (lastHandStates g)) (target g)
         (canvas_width g) (canvas_height g) (draws g) (log g).

(** [minX], [maxX], [minY], [maxY] over one hand. *)
Definition extent (hand : list NormalizedLandmark.t) : Q * Q * Q * Q :=
  fold_left
    (fun '(minX, maxX, minY, maxY) l =>
       let lx := NormalizedLandmark.x l in
       let ly := NormalizedLandmark.y l in
       (if Qltb lx minX then lx else minX,
        if Qltb maxX lx then lx else maxX,
        if Qltb ly minY then ly else minY,
        if Qltb maxY ly then ly else maxY))
    hand (1, 0, 1, 0).

Definition boundingBox (w h : Q) (hand : list NormalizedLandmark.t) : BoundingBox.t :=
  let '(minX, maxX, minY, maxY) := extent hand in
  BoundingBox.mk (minX * w) (minY * h) ((maxX - minX) * w) ((maxY - minY) * h) 0.

(** [generateHTML(result, i)]: what it reads for the panel, in the order
    it reads it.  The formatting of the score and of the HTML is left out. *)
Definition generateHTML (results : GestureRecognizerResult) (result : list Category.t)
    (i : nat) : completion (string * Q * string) :=
  top ← get (result !! 0%nat);
  let categoryName := Category.categoryName top in
  let categoryScore := Category.score top * 100 in
  hand ← get (handedness results !! i);
  side ← get (hand !! 0%nat);
  Normal (categoryName, categoryScore, Category.displayName side).

(** One iteration of the loop over [results.gestures]; the string [html]
    is only written to the panel and is left out. *)
Definition gesture_body (results : GestureRecognizerResult)
    (boundingBoxes : list BoundingBox.t) (i : nat) (g : Game) : completion Game :=
  result ← get (gestures results !! i);
  _ ← generateHTML results result i;
  top ← get (result !! 0%nat);
  g1 ← (if bool_decide (Category.categoryName top = "Closed_Fist")
           && bool_decide (lastHandStates g !! i ≠ Some "Closed_Fist")
        then box ← get (boundingBoxes !! i); Normal (hit i box g)
        else Normal g);
  Normal (set_lastHandState i (Category.categoryName top) g1).

(** The game's share of a frame of [predictWebcam]; [w] and [h] are the
    size of the output canvas the boxes are drawn on. *)
Definition predictWebcam (w h : Q) (results : GestureRecognizerResult) (g : Game) :
    completion Game :=
  let boundingBoxes :=
    match landmarks results with
    | Some hands => map (boundingBox w h) hands
    | None => []
    end in
  for_range 0 (length (gestures results)) (gesture_body results boundingBoxes) g.

(** Frame after frame, until one throws. *)
Fixpoint run (w h : Q) (frames : list GestureRecognizerResult) (g : Game) :
    completion Game :=
  match frames with
  | [] => Normal g
  | f :: rest => g' ← predictWebcam w h f g; run w h rest g'
  end.
End Game.

(** *** Vocabulary of the statements *)

Definition is_hit_test (hand : nat) (e : Event) : bool :=
  match e with
  | HitTested i _ => (i =? hand)%nat
  | ScoreChanged _ => false
  end.

(** How often [Target.hit] was called for [hand]. *)
Definition hit_tests (hand : nat) (l : list Event) : nat :=
  length (List.filter (is_hit_test hand) l).

(** A rising edge: the label is "Closed_Fist" and the one stored before
    it is not. *)
Definition rising (prev : option string) (label : string) : bool :=
  bool_decide (label = "Closed_Fist") && bool_decide (prev ≠ Some "Closed_Fist").

(** The number of rising edges along [labels], starting from [prev]. *)
Fixpoint rising_edges (prev : option string) (labels : list string) : nat :=
  match labels with
  | [] => 0
  | l :: rest => (if rising prev l then 1 else 0) + rising_edges (Some l) rest
  end.

(** A frame in which one hand is tracked: its landmarks, the category
    that tells its side, and its gesture label. *)
Definition one_hand (hand : list NormalizedLandmark.t) (side : Category.t)
    (label : string) : GestureRecognizerResult :=
  mkResult (Some [hand]) [[Category.mk label 1 ""]] [[side]].

End Hands.

(** ** More of the mouth-mesh page *)

Module Connection.
Record t : Type := mk { start : nat; end_ : nat }.
End Connection.

Module MouthPage.

Definition MOUTH_POINTS : list Connection.t :=
  [Connection.mk 0 267; Connection.mk 267 269; Connection.mk 269 270;
   Connection.mk 270 409; Connection.mk 409 291; Connection.mk 291 375;
   Connection.mk 375 321; Connection.mk 321 405; Connection.mk 405 314;
   Connection.mk 314 17; Connection.mk 17 84; Connection.mk 84 181;
   Connection.mk 181 91; Connection.mk 91 146; Connection.mk 146 61;
   Connection.mk 61 185; Connection.mk 185 40; Connection.mk 40 39;
   Connection.mk 39 37; Connection.mk 37 0]%nat.

(** [Set.add] on a set kept as the list of its members in insertion
    order, which is the order a [for ... of] walks it in. *)
Definition set_add (s : list nat) (v : nat) : list nat :=
  if bool_decide (v ∈ s) then s else s ++ [v].

Definition MOUTH_INDICES : list nat :=
  fold_left (fun s c => set_add (set_add s (Connection.start c)) (Connection.end_ c))
            MOUTH_POINTS [].

(** The [mouthLandmarks] array [predictWebcam] hands to [landmarksToMesh]:
    an entry is [None] where [results.faceLandmarks[0][index]] is
    [undefined].  An empty first face is truthy and gives twenty such
    entries. *)
Definition mouthLandmarks (faceLandmarks : list (list NormalizedLandmark.t)) :
    list (option NormalizedLandmark.t) :=
  match faceLandmarks !! 0%nat with
  | Some face => map (fun index => face !! index) MOUTH_INDICES
  | None => []
  end.

(** [drawClippingRegion] up to its canvas calls: the [path] of landmark
    pairs and the [averagePoint] the canvas is translated by. *)
Definition path (landmarks : list NormalizedLandmark.t) (connections : list Connection.t) :
    list (option NormalizedLandmark.t * option NormalizedLandmark.t) :=
  map (fun c => (landmarks !! Connection.start c, landmarks !! Connection.end_ c))
      connections.

Definition averagePoint_step (acc : completion (Q * Q))
    (seg : option NormalizedLandmark.t * option NormalizedLandmark.t) :
    completion (Q * Q) :=
  a ← acc;
  from ← get (fst seg);
  to ← get (snd seg);
  Normal (fst a + (NormalizedLandmark.x from + NormalizedLandmark.x to) / 2,
          snd a + (NormalizedLandmark.y from + NormalizedLandmark.y to) / 2).

Definition averagePoint (landmarks : list NormalizedLandmark.t)
    (connections : list Connection.t) : completion (Q * Q) :=
  fold_left averagePoint_step (path landmarks connections) (Normal (0, 0)).

(** *** Vocabulary of the statements *)

(** The face landmark behind each entry of the ring, in ring order. *)
Definition strip_order : list nat :=
  [61; 185; 146; 40; 91; 39; 181; 37; 84; 0; 17; 267; 314; 269; 405; 270; 321; 409;
   375; 291]%nat.

(** The connections of the closed polygon through [vs]. *)
Definition loop (vs : list nat) : list Connection.t :=
  match vs with
  | [] => []
  | v0 :: rest => zip_with Connection.mk vs (rest ++ [v0])
  end.

Fixpoint sum_xy (ls : list NormalizedLandmark.t) : Q * Q :=
  match ls with
  | [] => (0, 0)
  | l :: rest =>
      (NormalizedLandmark.x l + fst (sum_xy rest), NormalizedLandmark.y l + snd (sum_xy rest))
  end.

End MouthPage.

(** ** The model of [src/pin/pin.ts] *)

Module PinPage.

(** The loaded [model]: its position and the rotation three.js derives
    from a matrix, which is kept as given. *)
Record Object3D : Type := mkObject3D {
  position : Vector3.t;
  rotation : Matrix4.t
}.

Record FaceLandmarkerResult : Type := mkResult {
  faceLandmarks : option (list (list NormalizedLandmark.t));
  facialTransformationMatrixes : option (list (list Q))
}.

Definition ANCHOR_POINT_ID : nat := 9.

(** The model after a frame of [predictWebcam], drawing left out; [None]
    is the [model] variable before the loader has set it. *)
Definition predictWebcam (model : option Object3D) (results : FaceLandmarkerResult) :
    completion (option Object3D) :=
  match faceLandmarks results with
  | None => Normal model
  | Some faces =>
      matrices ← get (facialTransformationMatrixes results);
      if (0 <? length matrices)%nat then
        m ← get (matrices !! 0%nat);
        let matrix := Matrix4.fromArray m in
        face ← get (faces !! 0%nat);
        mo ← get model;
        position ← get (face !! ANCHOR_POINT_ID);
        Normal (Some (mkObject3D
                        (Vector3.mk (NormalizedLandmark.x position)
                                    (NormalizedLandmark.y position)
                                    (NormalizedLandmark.z position))
                        matrix))
      else Normal model
  end.

End PinPage.

(** ** Moving a face as a whole *)

Module Shift.
(** The landmark [l] moved by [s] in normalized image space. *)
Definition landmark (s : Vector3.t) (l : NormalizedLandmark.t) : NormalizedLandmark.t :=
  NormalizedLandmark.mk (NormalizedLandmark.x l + Vector3.x s)
                        (NormalizedLandmark.y l + Vector3.y s)
                        (NormalizedLandmark.z l + Vector3.z s).
End Shift.

(** ** Frames without a hand *)

Module Untracked.
(** A frame in which no hand is tracked. *)
Definition frame : Hands.GestureRecognizerResult := Hands.mkResult (Some []) [] [].
End Untracked.

(** ** More of the target game *)

Module GameLife.

Section Life.
Variable Math_random : nat -> Q.
Variable Target_draws : nat -> nat.

(** [new Game(scene, renderer)] on a canvas of the given size, after
    [calls] calls of [Math.random] (the page has built its scene, camera
    and renderer by then).  The target written here first is replaced by
    the constructor's own call of [generateNewTarget]. *)
Definition newGame (calls : nat) (canvas_width canvas_height : Q) : Hands.Game :=
  Hands.generateNewTarget Math_random Target_draws
    (Hands.mkGame 0 ∅ (Target.mk 0 0 0) canvas_width canvas_height calls []).

(** [loadModel] once the loader has answered, having called [Math.random]
    [loader_draws] times for the objects of the model: the model only
    changes what is drawn; the target is generated anew. *)
Definition loadModel (loader_draws : nat) (g : Hands.Game) : Hands.Game :=
  Hands.generateNewTarget Math_random Target_draws
    (Hands.mkGame (Hands.score g) (Hands.lastHandStates g) (Hands.target g)
                  (Hands.canvas_width g) (Hands.canvas_height g)
                  (Hands.draws g + loader_draws)%nat (Hands.log g)).
End Life.

(** *** Vocabulary of the statements *)

(** The successful hit tests and the totals announced, in order. *)
Definition hits (l : list Hands.Event) : nat :=
  length (List.filter (fun e => match e with Hands.HitTested _ true => true | _ => false end) l).

Definition announced (l : list Hands.Event) : list Z :=
  flat_map (fun e => match e with Hands.ScoreChanged d => [d] | _ => [] end) l.

(** The books of a game whose first hit test came after [d0] calls of
    [Math.random]: the score counts the successful hit tests, the totals
    announced are 1, 2, ... up to the score, and every hit was followed by
    two calls of [Math.random] at least. *)
Definition accounted (d0 : nat) (g : Hands.Game) : Prop :=
  Hands.score g = Z.of_nat (hits (Hands.log g))
  /\ announced (Hands.log g) = map Z.of_nat (seq 1 (hits (Hands.log g)))
  /\ (d0 + 2 * hits (Hands.log g) <= Hands.draws g)%nat.

(** The label of the hand's first category, when it has one. *)
Definition top_label (result : list Category.t) : option string :=
  Category.categoryName <$> result !! 0%nat.

End GameLife.

(** ** Sample inputs *)

Module Samples.
(** The four-point ring around the unit square. *)
Definition square_ring : list nat := [0; 1; 2; 3]%nat.

Definition square_corners : list NormalizedLandmark.t :=
  [NormalizedLandmark.mk 0 0 0; NormalizedLandmark.mk 1 0 0;
   NormalizedLandmark.mk 1 1 0; NormalizedLandmark.mk 0 1 0].

Definition unit_square : list (option NormalizedLandmark.t) :=
  [Some (NormalizedLandmark.mk 0 0 0); Some (NormalizedLandmark.mk 1 0 0);
   Some (NormalizedLandmark.mk 1 1 0); Some (NormalizedLandmark.mk 0 1 0)].

(** Twenty mouth landmarks, all at the origin but the first. *)
Definition lopsided_mouth : list (option NormalizedLandmark.t) :=
  Some (NormalizedLandmark.mk 1 0 0) :: repeat (Some (NormalizedLandmark.mk 0 0 0)) 19.

(** A single landmark. *)
Definition lone_landmark : list (option NormalizedLandmark.t) :=
  [Some (NormalizedLandmark.mk (1 # 2) (1 # 2) 0)].

(** A face of 478 landmarks on a diagonal. *)
Definition face : list NormalizedLandmark.t :=
  map (fun i => let q := inject_Z (Z.of_nat i) / 478 in NormalizedLandmark.mk q q (- q))
      (seq 0 478).

Definition identity_data : list Q :=
  [1; 0; 0; 0; 0; 1; 0; 0; 0; 0; 1; 0; 0; 0; 0; 1].

(** A loaded object with one child, hidden, still under the engine's
    automatic pose. *)
Definition loaded_scene : Pin.GLTFScene :=
  Pin.mkScene false [false] true (Matrix4.fromArray identity_data).

Definition loaded_object : Pin.PinnedObject := Pin.mkObject (Some loaded_scene) 10.

(** A frame with a face but without transformation matrices. *)
Definition face_without_matrix : Pin.FaceLandmarkerResult :=
  Pin.mkResult [face] None.

Definition face_with_matrix : Pin.FaceLandmarkerResult :=
  Pin.mkResult [face] (Some [identity_data]).

(** A game on a 640 by 480 canvas and one on a 40 by 40 canvas, each
    with its first target in place. *)
Definition game : Hands.Game :=
  Hands.mkGame 0 ∅ (Target.mk 100 100 5) 640 480 14 [].

Definition small_game : Hands.Game :=
  Hands.mkGame 0 ∅ (Target.mk 25 25 5) 40 40 14 [].

Definition box : BoundingBox.t := BoundingBox.mk 100 100 50 60 0.

Definition small_box : BoundingBox.t := BoundingBox.mk 0 0 40 40 0.

Definition hand : list NormalizedLandmark.t :=
  [NormalizedLandmark.mk (1 # 10) (1 # 10) 0; NormalizedLandmark.mk (3 # 10) (2 # 10) 0].

Definition half (n : nat) : Q := 1 # 2.

(** Three UUIDs of four calls each for a sphere target: its geometry, its
    material and its mesh. *)
Definition sphere_draws (n : nat) : nat := 12.

Definition right : Category.t := Category.mk "Right" 1 "Right".
End Samples.

(** * Facts *)

(** ** Loops and flat arrays *)

Lemma for_range_inv {St : Type} (P : nat -> St -> Prop)
    (body : nat -> St -> completion St) (n : nat) :
  forall (start : nat) (s : St),
    P start s ->
    (forall j t, (start <= j < start + n)%nat -> P j t ->
       exists t', body j t = Normal t' /\ P (S j) t') ->
    exists s', for_range start n body s = Normal s' /\ P (start + n)%nat s'.
Proof.
  induction n as [|n IH]; intros start s Hs Hstep; simpl.
  - exists s. by rewrite Nat.add_0_r.
  - destruct (Hstep start s ltac:(lia) Hs) as (t & Ht & HP).
    rewrite Ht. simpl.
    destruct (IH (S start) t HP) as (s' & Hrun & HP').
    + intros j u Hj. apply Hstep. lia.
    + exists s'. split; [done|]. by replace (start + S n)%nat with (S start + n)%nat by lia.
Qed.

Lemma flat_map_seq_snoc {A : Type} (f : nat -> list A) (s m : nat) :
  flat_map f (seq s (S m)) = flat_map f (seq s m) ++ f (s + m)%nat.
Proof.
  rewrite seq_S, flat_map_app. simpl. by rewrite app_nil_r.
Qed.

Lemma length_flat_map_seq {A : Type} (f : nat -> list A) (c : nat) :
  (forall k, length (f k) = c) ->
  forall m s, length (flat_map f (seq s m)) = (c * m)%nat.
Proof.
  intros Hf m. induction m as [|m IH]; intros s; simpl.
  - lia.
  - rewrite length_app, Hf, IH. lia.
Qed.

Lemma lookup_flat_map_seq {A : Type} (f : nat -> list A) (c : nat) :
  (forall k, length (f k) = c) ->
  forall m s i r, (i < m)%nat -> (r < c)%nat ->
    flat_map f (seq s m) !! (c * i + r)%nat = f (s + i)%nat !! r.
Proof.
  intros Hf m. induction m as [|m IH]; intros s i r Hi Hr; [lia|].
  simpl. destruct i as [|i].
  - rewrite Nat.mul_0_r, Nat.add_0_r, Nat.add_0_l.
    apply lookup_app_l. by rewrite Hf.
  - replace (c * S i + r)%nat with (c + (c * i + r))%nat by lia.
    rewrite <- (Hf s) at 1. rewrite lookup_app_r by lia.
    replace (length (f s) + (c * i + r) - length (f s))%nat with (c * i + r)%nat by lia.
    rewrite IH by lia. by replace (S s + i)%nat with (s + S i)%nat by lia.
Qed.

Lemma concat_flat_map {A B : Type} (g : B -> list (list A)) (l : list B) :
  concat (flat_map g l) = flat_map (fun b => concat (g b)) l.
Proof.
  induction l as [|b l IH]; simpl; [done|].
  by rewrite concat_app, IH.
Qed.

Lemma translate_array_length (o : Vector3.t) :
  forall (n : nat) (a : list Q), (length a <= n)%nat ->
    length (BufferGeometry.translate_array o a) = length a.
Proof.
  induction n as [|n IH]; intros a Ha.
  - destruct a; [done|simpl in Ha; lia].
  - destruct a as [|a0 [|a1 [|a2 a]]]; simpl; try done.
    rewrite IH; [done|]. simpl in Ha. lia.
Qed.

Lemma translate_array_lookup (o : Vector3.t) :
  forall (k : nat) (a : list Q) (vx vy vz : Q),
    a !! (3 * k)%nat = Some vx ->
    a !! (3 * k + 1)%nat = Some vy ->
    a !! (3 * k + 2)%nat = Some vz ->
    BufferGeometry.translate_array o a !! (3 * k)%nat = Some (vx + Vector3.x o)
    /\ BufferGeometry.translate_array o a !! (3 * k + 1)%nat = Some (vy + Vector3.y o)
    /\ BufferGeometry.translate_array o a !! (3 * k + 2)%nat = Some (vz + Vector3.z o).
Proof.
  induction k as [|k IH]; intros a vx vy vz Hx Hy Hz.
  - destruct a as [|a0 [|a1 [|a2 a]]]; simpl in *; try discriminate.
    by simplify_eq.
  - replace (3 * S k)%nat with (S (S (S (3 * k)))) in * by lia.
    remember (3 * k)%nat as j eqn:Ej.
    destruct a as [|a0 [|a1 [|a2 a]]]; simpl in Hx, Hy, Hz |- *; try discriminate.
    by apply IH.
Qed.

(** ** Vectors up to equality of rationals *)

#[global] Instance Vector3_equiv_equivalence : Equivalence Vector3.equiv.
Proof.
  split.
  - intros a. by repeat split.
  - intros a b (H1 & H2 & H3). by repeat split; symmetry.
  - intros a b c (H1 & H2 & H3) (K1 & K2 & K3).
    repeat split; etrans; eauto.
Qed.

#[global] Instance Vector3_add_proper :
  Proper (Vector3.equiv ==> Vector3.equiv ==> Vector3.equiv) Vector3.add.
Proof.
  intros a b (H1 & H2 & H3) c d (K1 & K2 & K3).
  repeat split; simpl; by apply Qplus_comp.
Qed.

Lemma Vector3_add_zero_l (v : Vector3.t) :
  Vector3.equiv (Vector3.add (Vector3.mk 0 0 0) v) v.
Proof. repeat split; simpl; ring. Qed.

Lemma Vector3_add_swap (a b c : Vector3.t) :
  Vector3.equiv (Vector3.add (Vector3.add a c) b) (Vector3.add (Vector3.add a b) c).
Proof. repeat split; simpl; ring. Qed.

#[global] Instance divide_proper (n : nat) :
  Proper (Vector3.equiv ==> Vector3.equiv) (fun v => Mouth.divide v n).
Proof.
  intros a b (H1 & H2 & H3). unfold Mouth.divide.
  repeat split; simpl; by apply Qdiv_comp.
Qed.

(** ** The ring triangulator *)

Section StripFacts.
Variable ring : list nat.
Variable landmarks : list (option NormalizedLandmark.t).
Hypothesis present : Mouth.all_present ring landmarks.

Lemma ring_point_the_point (j : nat) :
  (j < length ring)%nat ->
  Mouth.ring_point ring landmarks j = Some (Mouth.the_point ring landmarks j).
Proof.
  intros Hj. unfold Mouth.the_point.
  by destruct (present j Hj) as [l ->].
Qed.

Lemma ring_landmark_present (j : nat) :
  (j < length ring)%nat ->
  Mouth.ring_landmark ring landmarks j = Normal (Mouth.the_point ring landmarks j).
Proof.
  intros Hj. unfold Mouth.ring_landmark.
  pose proof (ring_point_the_point j Hj) as H. unfold Mouth.ring_point in H.
  by rewrite H.
Qed.

Lemma strip_body_inv (j : nat) (s : Mouth.strip) :
  (j < length ring - 2)%nat ->
  Mouth.strip_inv ring landmarks j s ->
  exists s', Mouth.strip_body ring landmarks j s = Normal s'
             /\ Mouth.strip_inv ring landmarks (S j) s'.
Proof.
  intros Hj (Hv & Hu & H0 & Hmid & Hlast).
  unfold Mouth.strip_body.
  rewrite !ring_landmark_present by lia. simpl.
  eexists; split; [reflexivity|].
  unfold Mouth.strip_inv; cbn [Mouth.vertices Mouth.uvs Mouth.sum].
  split; [|split].
  - rewrite (flat_map_seq_snoc _ 0 j), <- Hv. done.
  - rewrite (flat_map_seq_snoc _ 0 j), <- Hu. done.
  - set (f := fun i => Mouth.scaled (Mouth.the_point ring landmarks i)) in *.
    assert (Hsum : (j = 0%nat -> Vector3.equiv (Mouth.sum s) (Vector3.mk 0 0 0))
                   /\ ((0 < j)%nat -> Vector3.equiv (Mouth.sum s) (Mouth.vsum f (j + 1))))
      by (split; [done | intros; apply Hmid; lia]).
    clear H0 Hmid Hlast. destruct Hsum as [H0 Hpos].
    split; [lia|].
    destruct (Nat.eqb_spec j (length ring - 3)) as [E | E];
      destruct (Nat.eqb_spec j 0) as [Hz | Hne];
      try (rewrite Hz in *; clear Hz);
      split; intros _ Hn; try lia.
    + replace (length ring) with 3%nat by lia.
      rewrite (H0 eq_refl). simpl.
      rewrite !Vector3_add_zero_l. apply Vector3_add_swap.
    + replace (length ring) with (S (S (j + 1))) by lia.
      rewrite (Hpos ltac:(lia)). simpl.
      replace (S (j + 1)) with (j + 2)%nat by lia.
      apply Vector3_add_swap.
    + rewrite (H0 eq_refl). simpl. by rewrite !Vector3_add_zero_l.
    + rewrite (Hpos ltac:(lia)).
      replace (S j + 1)%nat with (S (j + 1)) by lia. simpl. done.
Qed.

Lemma setup_vertices_inv :
  exists s, Mouth.setup_vertices ring landmarks = Normal s
            /\ Mouth.strip_inv ring landmarks (length ring - 2) s.
Proof.
  unfold Mouth.setup_vertices.
  destruct (for_range_inv (Mouth.strip_inv ring landmarks)
              (Mouth.strip_body ring landmarks) (length ring - 2) 0
              (Mouth.mkStrip [] [] (Vector3.mk 0 0 0))) as (s & Hs & Hinv).
  - unfold Mouth.strip_inv; simpl. repeat split; try done; lia.
  - intros j t Hj Ht. apply strip_body_inv; [lia | done].
  - by exists s.
Qed.
End StripFacts.

Lemma strip_uv_lookup (ring : list nat) (landmarks : list (option NormalizedLandmark.t))
    (m i j : nat) :
  (i < m)%nat -> (j < 3)%nat ->
  let a := concat (flat_map (Mouth.triangle_uvs ring landmarks) (seq 0 m)) in
  let l := Mouth.the_point ring landmarks (i + j) in
  a !! ((3 * i + j) * 2)%nat = Some (NormalizedLandmark.x l)
  /\ a !! ((3 * i + j) * 2 + 1)%nat = Some (NormalizedLandmark.y l).
Proof.
  intros Hi Hj a l. subst a l. rewrite concat_flat_map.
  replace ((3 * i + j) * 2 + 1)%nat with (6 * i + (2 * j + 1))%nat by lia.
  replace ((3 * i + j) * 2)%nat with (6 * i + 2 * j)%nat by lia.
  rewrite !(lookup_flat_map_seq _ 6) by (done || lia).
  destruct j as [|[|[|j]]]; [| | |lia]; rewrite ?Nat.add_0_r; by split.
Qed.

Lemma strip_vertex_lookup (ring : list nat) (landmarks : list (option NormalizedLandmark.t))
    (m i j : nat) :
  (i < m)%nat -> (j < 3)%nat ->
  let a := concat (flat_map (Mouth.triangle_vertices ring landmarks) (seq 0 m)) in
  let v := Mouth.scaled (Mouth.the_point ring landmarks (i + j)) in
  a !! (3 * (3 * i + j))%nat = Some (Vector3.x v)
  /\ a !! (3 * (3 * i + j) + 1)%nat = Some (Vector3.y v)
  /\ a !! (3 * (3 * i + j) + 2)%nat = Some (Vector3.z v).
Proof.
  intros Hi Hj a v. subst a v. rewrite concat_flat_map.
  replace (3 * (3 * i + j) + 2)%nat with (9 * i + (3 * j + 2))%nat by lia.
  replace (3 * (3 * i + j) + 1)%nat with (9 * i + (3 * j + 1))%nat by lia.
  replace (3 * (3 * i + j))%nat with (9 * i + 3 * j)%nat by lia.
  rewrite !(lookup_flat_map_seq _ 9) by (done || lia).
  destruct j as [|[|[|j]]]; [| | |lia]; rewrite ?Nat.add_0_r; by repeat split.
Qed.

Lemma strip_array_lengths (ring : list nat) (landmarks : list (option NormalizedLandmark.t))
    (m : nat) :
  length (concat (flat_map (Mouth.triangle_vertices ring landmarks) (seq 0 m))) = (9 * m)%nat
  /\ length (concat (flat_map (Mouth.triangle_uvs ring landmarks) (seq 0 m))) = (6 * m)%nat.
Proof.
  rewrite !concat_flat_map. split; by apply length_flat_map_seq.
Qed.

Lemma all_present_nonempty (ring : list nat) (landmarks : list (option NormalizedLandmark.t)) :
  (0 < length ring)%nat -> Mouth.all_present ring landmarks -> (0 < length landmarks)%nat.
Proof.
  intros Hr Hp. destruct (Hp 0%nat Hr) as [l Hl].
  unfold Mouth.ring_point in Hl.
  destruct (ring !! 0%nat) as [k|]; [|done]. unfold Mouth.slot in Hl. simpl in Hl.
  destruct (landmarks !! k) as [o|] eqn:E; [|done].
  apply lookup_lt_Some in E. lia.
Qed.

Lemma label_all_outcome (landmarks : list (option NormalizedLandmark.t)) :
  (Forall is_Some landmarks -> Mouth.label_all landmarks = Normal tt)
  /\ (~ Forall is_Some landmarks -> Mouth.label_all landmarks = Throw TypeError).
Proof.
  induction landmarks as [|[l|] ls [IHok IHthrow]].
  - split; [done|]. intros H. destruct H. constructor.
  - cbn [Mouth.label_all get mbind completion_bind]. split.
    + intros H. apply IHok. by inversion H.
    + intros H. apply IHthrow. intros Hls. apply H. constructor; [by eexists | done].
  - cbn [Mouth.label_all get mbind completion_bind]. split; [|done].
    intros H. inversion H as [|? ? [l Hl] ?]. discriminate Hl.
Qed.

Lemma draw_numbers_readable (DRAW_NUMBERS : bool)
    (landmarks : list (option NormalizedLandmark.t)) :
  Mouth.labels_readable DRAW_NUMBERS landmarks ->
  Mouth.draw_numbers DRAW_NUMBERS landmarks = Normal tt.
Proof.
  intros H. unfold Mouth.draw_numbers. destruct DRAW_NUMBERS; [|done].
  by apply label_all_outcome, H.
Qed.

(** What [landmarksToMesh] returns on a ring of three or more entries whose
    landmarks are all there, when the labels can be drawn. *)
Lemma landmarksToMesh_on_present (ring : list nat) (DRAW_NUMBERS : bool)
    (landmarks : list (option NormalizedLandmark.t)) :
  (3 <= length ring)%nat -> Mouth.all_present ring landmarks ->
  Mouth.labels_readable DRAW_NUMBERS landmarks ->
  exists s,
    Mouth.setup_vertices ring landmarks = Normal s
    /\ Mouth.strip_inv ring landmarks (length ring - 2) s
    /\ Mouth.landmarksToMesh_on ring DRAW_NUMBERS landmarks =
       Normal (Some (Mesh.mk (BufferGeometry.center (Mouth.raw_geometry s))
                             (Mouth.averagePoint ring s) (Vector3.mk 1 1 1))).
Proof.
  intros Hlen Hp Hlabels.
  destruct (setup_vertices_inv ring landmarks Hp) as (s & Hs & Hinv).
  exists s. split; [done|]. split; [done|].
  unfold Mouth.landmarksToMesh_on.
  pose proof (all_present_nonempty ring landmarks ltac:(lia) Hp) as Hne.
  destruct (Nat.eqb_spec (length landmarks) 0) as [E|_]; [lia|].
  rewrite Hs. cbn [mbind completion_bind].
  by rewrite (draw_numbers_readable _ _ Hlabels).
Qed.

(** Projections of a mesh that is written out. *)
Ltac mesh_fields :=
  cbn [Mesh.geometry Mesh.position BufferGeometry.center BufferGeometry.translate
       BufferGeometry.position BufferGeometry.uv BufferAttribute.array
       BufferAttribute.itemSize Mouth.raw_geometry].

Lemma centred_triangle_count (ring : list nat) (landmarks : list (option NormalizedLandmark.t))
    (s : Mouth.strip) (p sc : Vector3.t) (m : nat) :
  Mouth.vertices s = flat_map (Mouth.triangle_vertices ring landmarks) (seq 0 m) ->
  Mesh.triangle_count (Mesh.mk (BufferGeometry.center (Mouth.raw_geometry s)) p sc) = m.
Proof.
  intros Hv. unfold Mesh.triangle_count, BufferAttribute.count. mesh_fields.
  rewrite (translate_array_length _ _ _ (Nat.le_refl _)), Hv.
  destruct (strip_array_lengths ring landmarks m) as [-> _].
  replace (9 * m)%nat with (m * 3 * 3)%nat by lia.
  by rewrite !Nat.div_mul.
Qed.

(** C1: on a ring of 2N entries (N at least 2) whose landmarks are all
    present, and with labels that can be drawn (the switch is off, or no
    slot holds [undefined]), [landmarksToMesh] returns a mesh of exactly
    2N - 2 triangles;
    vertex [j] of triangle [i] comes from ring entry [i + j], so triangle [i]
    is built from the ring points i, i+1, i+2: its UV is that landmark's
    (x, y) and its position is the landmark's doubled coordinates moved by
    the recentring offset [o], the same for every vertex. *)
Theorem ring_triangulator_strip (ring : list nat) (DRAW_NUMBERS : bool)
    (landmarks : list (option NormalizedLandmark.t)) (N : nat) :
  (2 <= N)%nat ->
  length ring = (2 * N)%nat ->
  Mouth.all_present ring landmarks ->
  Mouth.labels_readable DRAW_NUMBERS landmarks ->
  exists (mesh : Mesh.t) (o : Vector3.t),
    Mouth.landmarksToMesh_on ring DRAW_NUMBERS landmarks = Normal (Some mesh)
    /\ Mesh.triangle_count mesh = (2 * N - 2)%nat
    /\ forall i j : nat, (i < 2 * N - 2)%nat -> (j < 3)%nat ->
         exists l : NormalizedLandmark.t,
           Mouth.ring_point ring landmarks (i + j) = Some l
           /\ Mesh.vertex_uv mesh (3 * i + j) =
              Some (NormalizedLandmark.x l, NormalizedLandmark.y l)
           /\ Mesh.vertex_position mesh (3 * i + j) =
              Some (NormalizedLandmark.x l * 2 + Vector3.x o,
                    NormalizedLandmark.y l * 2 + Vector3.y o,
                    NormalizedLandmark.z l * 2 + Vector3.z o).
Proof.
  intros HN Hlen Hp Hlabels.
  destruct (landmarksToMesh_on_present ring DRAW_NUMBERS landmarks ltac:(lia) Hp Hlabels)
    as (s & _ & (Hv & Hu & _) & Hmesh).
  rewrite Hlen in Hv, Hu.
  exists (Mesh.mk (BufferGeometry.center (Mouth.raw_geometry s))
                  (Mouth.averagePoint ring s) (Vector3.mk 1 1 1)).
  exists (BufferGeometry.center_offset (Mouth.raw_geometry s)).
  split; [done|].
  split.
  - by apply (centred_triangle_count ring landmarks).
  - intros i j Hi Hj.
    exists (Mouth.the_point ring landmarks (i + j)).
    split; [apply ring_point_the_point; [done | lia]|].
    split.
    + unfold Mesh.vertex_uv, BufferAttribute.getX, BufferAttribute.getY. mesh_fields.
      rewrite Hu.
      destruct (strip_uv_lookup ring landmarks (2 * N - 2) i j Hi Hj) as [-> ->].
      done.
    + unfold Mesh.vertex_position, BufferAttribute.getX, BufferAttribute.getY,
        BufferAttribute.getZ. mesh_fields.
      rewrite Hv.
      destruct (strip_vertex_lookup ring landmarks (2 * N - 2) i j Hi Hj)
        as (Hx & Hy & Hz).
      replace ((3 * i + j) * 3)%nat with (3 * (3 * i + j))%nat by lia.
      destruct (translate_array_lookup
                  (BufferGeometry.center_offset (Mouth.raw_geometry s))
                  _ _ _ _ _ Hx Hy Hz) as (-> & -> & ->).
      done.
Qed.

(** ** Placement and recentring *)

Lemma vsum_proper (f g : nat -> Vector3.t) (n : nat) :
  (forall i, (i < n)%nat -> Vector3.equiv (f i) (g i)) ->
  Vector3.equiv (Mouth.vsum f n) (Mouth.vsum g n).
Proof.
  induction n as [|n IH]; intros H; simpl; [done|].
  rewrite IH by (intros; apply H; lia). by rewrite (H n) by lia.
Qed.

Lemma vsum_scaled (ring : list nat) (landmarks : list (option NormalizedLandmark.t)) (n : nat) :
  Vector3.equiv
    (Mouth.vsum (fun i => Mouth.scaled (Mouth.the_point ring landmarks i)) n)
    (Vector3.multiplyScalar
       (Mouth.vsum (fun i => Mouth.raw_point (Mouth.ring_point ring landmarks i)) n) 2).
Proof.
  induction n as [|n IH]; simpl.
  - repeat split; simpl; ring.
  - rewrite IH. unfold Mouth.the_point.
    destruct (Mouth.ring_point ring landmarks n) as [l|]; repeat split; simpl; ring.
Qed.

Lemma divide_multiplyScalar (v : Vector3.t) (n : nat) (q : Q) :
  Vector3.equiv (Mouth.divide (Vector3.multiplyScalar v q) n)
                (Vector3.multiplyScalar (Mouth.divide v n) q).
Proof. repeat split; simpl; unfold Qdiv; ring. Qed.

(** The vertices of the geometry before it is recentred. *)
Lemma raw_vertex_position (ring : list nat) (landmarks : list (option NormalizedLandmark.t))
    (s : Mouth.strip) (p sc : Vector3.t) (m i j : nat) :
  Mouth.vertices s = flat_map (Mouth.triangle_vertices ring landmarks) (seq 0 m) ->
  (i < m)%nat -> (j < 3)%nat ->
  let v := Mouth.scaled (Mouth.the_point ring landmarks (i + j)) in
  Mesh.vertex_position (Mesh.mk (Mouth.raw_geometry s) p sc) (3 * i + j)
  = Some (Vector3.x v, Vector3.y v, Vector3.z v).
Proof.
  intros Hv Hi Hj v.
  unfold Mesh.vertex_position, BufferAttribute.getX, BufferAttribute.getY,
    BufferAttribute.getZ. mesh_fields. rewrite Hv.
  replace ((3 * i + j) * 3)%nat with (3 * (3 * i + j))%nat by lia.
  by destruct (strip_vertex_lookup ring landmarks m i j Hi Hj) as (-> & -> & ->).
Qed.

Lemma fold_add_middles (f : nat -> Vector3.t) (t : nat) (acc : Vector3.t) :
  Vector3.equiv
    (fold_left (fun a v => Vector3.add a (Mouth.point_of v))
       (map (fun i => Some (Vector3.x (f (S i)), Vector3.y (f (S i)), Vector3.z (f (S i))))
            (seq 0 t))
       acc)
    (Vector3.add acc (Vector3.add (Mouth.vsum f (S t)) (Vector3.negate (f 0%nat)))).
Proof.
  induction t as [|t IH].
  - simpl. repeat split; simpl; ring.
  - rewrite seq_S, map_app, fold_left_app. simpl. rewrite IH.
    repeat split; simpl; ring.
Qed.

(** The mean over the traversal, taken on the geometry before recentring,
    is the mean of the doubled ring landmarks. *)
Lemma raw_traversal_mean (ring : list nat) (landmarks : list (option NormalizedLandmark.t))
    (s : Mouth.strip) (p sc : Vector3.t) :
  (3 <= length ring)%nat ->
  Mouth.vertices s =
    flat_map (Mouth.triangle_vertices ring landmarks) (seq 0 (length ring - 2)) ->
  Vector3.equiv
    (Mouth.traversal_mean (Mesh.mk (Mouth.raw_geometry s) p sc))
    (Mouth.divide
       (Mouth.vsum (fun i => Mouth.scaled (Mouth.the_point ring landmarks i)) (length ring))
       (length ring)).
Proof.
  intros Hlen Hv.
  set (f := fun i => Mouth.scaled (Mouth.the_point ring landmarks i)).
  set (t := (length ring - 2)%nat) in *.
  assert (Ht : Mesh.triangle_count (Mesh.mk (Mouth.raw_geometry s) p sc) = t).
  { unfold Mesh.triangle_count, BufferAttribute.count. mesh_fields.
    rewrite Hv. destruct (strip_array_lengths ring landmarks t) as [-> _].
    replace (9 * t)%nat with (t * 3 * 3)%nat by lia. by rewrite !Nat.div_mul. }
  unfold Mouth.traversal_mean, Mouth.traversal. rewrite Ht.
  assert (Hfirst : Mesh.vertex_position (Mesh.mk (Mouth.raw_geometry s) p sc) 0
                   = Some (Vector3.x (f 0%nat), Vector3.y (f 0%nat), Vector3.z (f 0%nat))).
  { apply (raw_vertex_position ring landmarks s p sc t 0 0 Hv); lia. }
  assert (Hlast : Mesh.vertex_position (Mesh.mk (Mouth.raw_geometry s) p sc)
                    (3 * (t - 1) + 2)
                  = Some (Vector3.x (f (S t)), Vector3.y (f (S t)), Vector3.z (f (S t)))).
  { rewrite (raw_vertex_position ring landmarks s p sc t (t - 1) 2 Hv) by lia.
    by replace (t - 1 + 2)%nat with (S t) by lia. }
  assert (Hmid : map (fun i => Mesh.vertex_position (Mesh.mk (Mouth.raw_geometry s) p sc)
                                 (3 * i + 1)) (seq 0 t)
                 = map (fun i => Some (Vector3.x (f (S i)), Vector3.y (f (S i)),
                                       Vector3.z (f (S i)))) (seq 0 t)).
  { apply map_ext_in. intros i Hi. apply in_seq in Hi.
    rewrite (raw_vertex_position ring landmarks s p sc t i 1 Hv) by lia.
    by replace (i + 1)%nat with (S i) by lia. }
  rewrite Hfirst, Hlast, Hmid.
  cbn [length]. rewrite length_app, length_map, length_seq. cbn [length].
  replace (S (t + 1)) with (length ring) by lia.
  apply divide_proper.
  cbn [fold_left]. rewrite fold_left_app. cbn [fold_left].
  rewrite fold_add_middles.
  replace (length ring) with (S (S t)) by lia.
  repeat split; simpl; ring.
Qed.

Lemma points_translate (o : Vector3.t) :
  forall (n : nat) (a : list Q), (length a <= n)%nat ->
    BufferGeometry.points (BufferGeometry.translate_array o a)
    = map (fun p => Vector3.add p o) (BufferGeometry.points a).
Proof.
  induction n as [|n IH]; intros a Ha.
  - destruct a; [done|simpl in Ha; lia].
  - destruct a as [|a0 [|a1 [|a2 a]]]; simpl; try done.
    rewrite IH; [done|]. simpl in Ha. lia.
Qed.

Lemma Vector3_min_add (a a' p o : Vector3.t) :
  Vector3.equiv a' (Vector3.add a o) ->
  Vector3.equiv (Vector3.min a' (Vector3.add p o)) (Vector3.add (Vector3.min a p) o).
Proof.
  intros (H1 & H2 & H3). repeat split; simpl in *.
  - rewrite H1. apply Q.plus_min_distr_r.
  - rewrite H2. apply Q.plus_min_distr_r.
  - rewrite H3. apply Q.plus_min_distr_r.
Qed.

Lemma Vector3_max_add (a a' p o : Vector3.t) :
  Vector3.equiv a' (Vector3.add a o) ->
  Vector3.equiv (Vector3.max a' (Vector3.add p o)) (Vector3.add (Vector3.max a p) o).
Proof.
  intros (H1 & H2 & H3). repeat split; simpl in *.
  - rewrite H1. apply Q.plus_max_distr_r.
  - rewrite H2. apply Q.plus_max_distr_r.
  - rewrite H3. apply Q.plus_max_distr_r.
Qed.

Lemma bounding_box_translate (o : Vector3.t) (ps : list Vector3.t) :
  forall b b' : Vector3.t * Vector3.t,
    Vector3.equiv (fst b') (Vector3.add (fst b) o) ->
    Vector3.equiv (snd b') (Vector3.add (snd b) o) ->
    let r := fold_left BufferGeometry.expandByPoint ps b in
    let r' := fold_left BufferGeometry.expandByPoint
                (map (fun p => Vector3.add p o) ps) b' in
    Vector3.equiv (fst r') (Vector3.add (fst r) o)
    /\ Vector3.equiv (snd r') (Vector3.add (snd r) o).
Proof.
  induction ps as [|p ps IH]; intros b b' Hlo Hhi; simpl; [done|].
  apply IH; simpl.
  - by apply Vector3_min_add.
  - by apply Vector3_max_add.
Qed.

(** [center] leaves the bounding box of a geometry centred on the origin. *)
Lemma center_centered (g : BufferGeometry.t) :
  Vector3.equiv
    (BufferGeometry.getCenter (BufferGeometry.computeBoundingBox (BufferGeometry.center g)))
    (Vector3.mk 0 0 0).
Proof.
  unfold BufferGeometry.center, BufferGeometry.center_offset,
    BufferGeometry.computeBoundingBox.
  cbn [BufferGeometry.translate BufferGeometry.position BufferAttribute.array].
  rewrite (points_translate _ _ _ (Nat.le_refl _)).
  destruct (BufferGeometry.points (BufferAttribute.array (BufferGeometry.position g)))
    as [|p ps]; [done|].
  cbn [map BufferGeometry.getCenter].
  set (o := Vector3.negate _).
  destruct (bounding_box_translate o ps (p, p) (Vector3.add p o, Vector3.add p o))
    as [Hlo Hhi]; [done | done |].
  cbv zeta in Hlo, Hhi.
  destruct (fold_left _ (map _ ps) _) as [lo' hi'].
  subst o. destruct (fold_left _ ps _) as [lo hi]. simpl in *.
  destruct Hlo as (L1 & L2 & L3), Hhi as (H1 & H2 & H3).
  repeat split; simpl; rewrite ?L1, ?L2, ?L3, ?H1, ?H2, ?H3; simpl; ring.
Qed.

Lemma unit_square_present : Mouth.all_present Samples.square_ring Samples.unit_square.
Proof.
  intros j Hj. destruct j as [|[|[|[|j]]]]; [by eexists ..|simpl in Hj; lia].
Defined.

Lemma ring_triangulator_strip_witness :
  exists (mesh : Mesh.t) (o : Vector3.t),
    Mouth.landmarksToMesh_on Samples.square_ring false Samples.unit_square = Normal (Some mesh)
    /\ Mesh.triangle_count mesh = (2 * 2 - 2)%nat
    /\ forall i j : nat, (i < 2 * 2 - 2)%nat -> (j < 3)%nat ->
         exists l : NormalizedLandmark.t,
           Mouth.ring_point Samples.square_ring Samples.unit_square (i + j) = Some l
           /\ Mesh.vertex_uv mesh (3 * i + j) =
              Some (NormalizedLandmark.x l, NormalizedLandmark.y l)
           /\ Mesh.vertex_position mesh (3 * i + j) =
              Some (NormalizedLandmark.x l * 2 + Vector3.x o,
                    NormalizedLandmark.y l * 2 + Vector3.y o,
                    NormalizedLandmark.z l * 2 + Vector3.z o).
Proof.
  apply (ring_triangulator_strip Samples.square_ring false Samples.unit_square 2).
  - lia.
  - reflexivity.
  - exact unit_square_present.
  - intros H. discriminate H.
Defined.

(** The page's own ring has twenty entries, hence eighteen triangles. *)
Lemma landmarksToMesh_eighteen_triangles (DRAW_NUMBERS : bool)
    (landmarks : list (option NormalizedLandmark.t)) :
  Mouth.all_present Mouth.MOUTH_INDICES_SORTED landmarks ->
  Mouth.labels_readable DRAW_NUMBERS landmarks ->
  exists mesh : Mesh.t,
    Mouth.landmarksToMesh DRAW_NUMBERS landmarks = Normal (Some mesh)
    /\ Mesh.triangle_count mesh = 18%nat.
Proof.
  intros Hp Hlabels.
  destruct (landmarksToMesh_on_present Mouth.MOUTH_INDICES_SORTED DRAW_NUMBERS landmarks
              ltac:(simpl; lia) Hp Hlabels) as (s & _ & (Hv & _) & Hmesh).
  eexists. split; [exact Hmesh|].
  by apply (centred_triangle_count Mouth.MOUTH_INDICES_SORTED landmarks).
Qed.

Lemma strip_entry_lookup {A : Type} (f : nat -> list A) (m i j : nat) :
  (forall k, length (f k) = 3%nat) ->
  (i < m)%nat -> (j < 3)%nat ->
  flat_map f (seq 0 m) !! (3 * i + j)%nat = f i !! j.
Proof.
  intros Hf Hi Hj. by rewrite (lookup_flat_map_seq f 3 Hf m 0 i j Hi Hj).
Qed.

(** C10: on a ring whose landmarks are all present, with labels that can
    be drawn: before recentring, every vertex the triangulator emits is its
    source landmark with each coordinate multiplied by 2, while the UV entry
    at the same index holds the landmark's unscaled (x, y); the returned
    mesh is that geometry recentred, and its placement position is twice the
    mean of the ring's normalized landmarks. *)
Theorem vertices_at_twice_scale (ring : list nat) (DRAW_NUMBERS : bool)
    (landmarks : list (option NormalizedLandmark.t)) :
  (3 <= length ring)%nat ->
  Mouth.all_present ring landmarks ->
  Mouth.labels_readable DRAW_NUMBERS landmarks ->
  exists (s : Mouth.strip) (mesh : Mesh.t),
    Mouth.setup_vertices ring landmarks = Normal s
    /\ Mouth.landmarksToMesh_on ring DRAW_NUMBERS landmarks = Normal (Some mesh)
    /\ Mesh.geometry mesh = BufferGeometry.center (Mouth.raw_geometry s)
    /\ (forall i j : nat, (i < length ring - 2)%nat -> (j < 3)%nat ->
          exists l : NormalizedLandmark.t,
            Mouth.ring_point ring landmarks (i + j) = Some l
            /\ Mouth.vertices s !! (3 * i + j)%nat =
               Some [NormalizedLandmark.x l * 2; NormalizedLandmark.y l * 2;
                     NormalizedLandmark.z l * 2]
            /\ Mouth.uvs s !! (3 * i + j)%nat =
               Some [NormalizedLandmark.x l; NormalizedLandmark.y l])
    /\ Vector3.equiv (Mesh.position mesh)
         (Vector3.multiplyScalar
            (Mouth.divide
               (Mouth.vsum (fun k => Mouth.raw_point (Mouth.ring_point ring landmarks k))
                           (length ring))
               (length ring))
            2).
Proof.
  intros Hlen Hp Hlabels.
  destruct (landmarksToMesh_on_present ring DRAW_NUMBERS landmarks Hlen Hp Hlabels)
    as (s & Hs & (Hv & Hu & _ & _ & Hsum) & Hmesh).
  exists s. eexists. split; [done|]. split; [exact Hmesh|]. split; [done|]. split.
  - intros i j Hi Hj.
    exists (Mouth.the_point ring landmarks (i + j)).
    split; [apply ring_point_the_point; [done | lia]|].
    rewrite Hv, Hu.
    rewrite !(strip_entry_lookup _ _ i j) by done.
    destruct j as [|[|[|j]]]; [| | |lia]; rewrite ?Nat.add_0_r; by split.
  - cbn [Mesh.position]. rewrite <- divide_multiplyScalar.
    change (Mouth.averagePoint ring s) with (Mouth.divide (Mouth.sum s) (length ring)).
    apply divide_proper.
    rewrite (Hsum ltac:(lia) eq_refl). apply vsum_scaled.
Qed.

Lemma vertices_at_twice_scale_witness :
  exists (s : Mouth.strip) (mesh : Mesh.t),
    Mouth.setup_vertices Samples.square_ring Samples.unit_square = Normal s
    /\ Mouth.landmarksToMesh_on Samples.square_ring false Samples.unit_square = Normal (Some mesh)
    /\ Mesh.geometry mesh = BufferGeometry.center (Mouth.raw_geometry s)
    /\ (forall i j : nat, (i < length Samples.square_ring - 2)%nat -> (j < 3)%nat ->
          exists l : NormalizedLandmark.t,
            Mouth.ring_point Samples.square_ring Samples.unit_square (i + j) = Some l
            /\ Mouth.vertices s !! (3 * i + j)%nat =
               Some [NormalizedLandmark.x l * 2; NormalizedLandmark.y l * 2;
                     NormalizedLandmark.z l * 2]
            /\ Mouth.uvs s !! (3 * i + j)%nat =
               Some [NormalizedLandmark.x l; NormalizedLandmark.y l])
    /\ Vector3.equiv (Mesh.position mesh)
         (Vector3.multiplyScalar
            (Mouth.divide
               (Mouth.vsum
                  (fun k => Mouth.raw_point
                              (Mouth.ring_point Samples.square_ring Samples.unit_square k))
                  (length Samples.square_ring))
               (length Samples.square_ring))
            2).
Proof.
  apply (vertices_at_twice_scale Samples.square_ring false Samples.unit_square).
  - simpl. lia.
  - exact unit_square_present.
  - intros H. discriminate H.
Defined.

(** C7, as the code has it, on a ring whose landmarks are all present and
    with labels that can be drawn: the returned geometry is recentred on the
    centre of its bounding box, so that box is centred on the mesh's local
    origin;
    and the mesh's placement position is the mean over the traversal (first
    vertex, the middle vertex of every triangle, last vertex) of the vertex
    positions as they are before recentring. *)
Theorem placement_is_traversal_mean (ring : list nat) (DRAW_NUMBERS : bool)
    (landmarks : list (option NormalizedLandmark.t)) :
  (3 <= length ring)%nat ->
  Mouth.all_present ring landmarks ->
  Mouth.labels_readable DRAW_NUMBERS landmarks ->
  exists (s : Mouth.strip) (mesh : Mesh.t),
    Mouth.setup_vertices ring landmarks = Normal s
    /\ Mouth.landmarksToMesh_on ring DRAW_NUMBERS landmarks = Normal (Some mesh)
    /\ Mesh.geometry mesh = BufferGeometry.center (Mouth.raw_geometry s)
    /\ Vector3.equiv
         (BufferGeometry.getCenter (BufferGeometry.computeBoundingBox (Mesh.geometry mesh)))
         (Vector3.mk 0 0 0)
    /\ Vector3.equiv (Mesh.position mesh)
         (Mouth.traversal_mean
            (Mesh.mk (Mouth.raw_geometry s) (Mesh.position mesh) (Mesh.scale mesh))).
Proof.
  intros Hlen Hp Hlabels.
  destruct (landmarksToMesh_on_present ring DRAW_NUMBERS landmarks Hlen Hp Hlabels)
    as (s & Hs & (Hv & Hu & _ & _ & Hsum) & Hmesh).
  exists s. eexists. split; [done|]. split; [exact Hmesh|]. split; [done|]. split.
  - apply center_centered.
  - cbn [Mesh.position Mesh.scale].
    rewrite (raw_traversal_mean ring landmarks s _ _ Hlen Hv).
    change (Mouth.averagePoint ring s) with (Mouth.divide (Mouth.sum s) (length ring)).
    apply divide_proper. by apply Hsum; [lia|].
Qed.

Lemma placement_is_traversal_mean_witness :
  exists (s : Mouth.strip) (mesh : Mesh.t),
    Mouth.setup_vertices Samples.square_ring Samples.unit_square = Normal s
    /\ Mouth.landmarksToMesh_on Samples.square_ring false Samples.unit_square = Normal (Some mesh)
    /\ Mesh.geometry mesh = BufferGeometry.center (Mouth.raw_geometry s)
    /\ Vector3.equiv
         (BufferGeometry.getCenter (BufferGeometry.computeBoundingBox (Mesh.geometry mesh)))
         (Vector3.mk 0 0 0)
    /\ Vector3.equiv (Mesh.position mesh)
         (Mouth.traversal_mean
            (Mesh.mk (Mouth.raw_geometry s) (Mesh.position mesh) (Mesh.scale mesh))).
Proof.
  apply (placement_is_traversal_mean Samples.square_ring false Samples.unit_square).
  - simpl. lia.
  - exact unit_square_present.
  - intros H. discriminate H.
Defined.

(** C7 as stated fails: on twenty landmarks that are not spread evenly the
    mesh is returned, with the labels on or off, yet the mean of its
    recentred vertices is not the local origin, neither over the traversal
    nor over all the vertices. *)
Lemma recentring_misses_centroid :
  exists mesh : Mesh.t,
    (forall DRAW_NUMBERS : bool,
       Mouth.landmarksToMesh DRAW_NUMBERS Samples.lopsided_mouth = Normal (Some mesh))
    /\ Vector3.x (Mouth.traversal_mean mesh) == - (9 # 10)
    /\ ~ Vector3.equiv (Mouth.traversal_mean mesh) (Vector3.mk 0 0 0)
    /\ ~ Vector3.equiv (Mouth.vertex_mean mesh) (Vector3.mk 0 0 0).
Proof.
  eexists. split; [intros [|]; vm_compute; reflexivity|]. split; [by vm_compute|].
  split; intros (Hx & _); vm_compute in Hx; discriminate Hx.
Qed.

(** C4 as stated fails: a list of one landmark has fewer than three points,
    and [landmarksToMesh] throws on it instead of returning no mesh; the
    frame that called it throws with it. *)
Lemma lone_landmark_throws :
  (length Samples.lone_landmark < 3)%nat
  /\ (forall DRAW_NUMBERS : bool,
        Mouth.landmarksToMesh DRAW_NUMBERS Samples.lone_landmark = Throw TypeError)
  /\ forall (Math_sin : Q -> Q) (DRAW_NUMBERS : bool) (M : Mouth.Modifications)
            (old : option Mesh.t),
       Mouth.mouth_frame Math_sin DRAW_NUMBERS M Samples.lone_landmark old
       = Throw TypeError.
Proof.
  split; [simpl; lia|]. split; [intros; reflexivity|]. intros. reflexivity.
Qed.

(** C4, as the code has it: [landmarksToMesh] returns no mesh, without
    throwing, exactly when the landmark list is empty; the frame then keeps
    the mesh it had. *)
Theorem no_mesh_iff_no_landmarks (ring : list nat) (DRAW_NUMBERS : bool)
    (landmarks : list (option NormalizedLandmark.t)) :
  (Mouth.landmarksToMesh_on ring DRAW_NUMBERS landmarks = Normal None <-> landmarks = [])
  /\ forall (Math_sin : Q -> Q) (M : Mouth.Modifications) (old : option Mesh.t),
       Mouth.mouth_frame Math_sin DRAW_NUMBERS M [] old = Normal old.
Proof.
  split; [|done].
  unfold Mouth.landmarksToMesh_on. split.
  - destruct landmarks as [|l ls]; [done|]. simpl.
    destruct (Mouth.setup_vertices ring (l :: ls)); [|done].
    cbn [mbind completion_bind].
    by destruct (Mouth.draw_numbers DRAW_NUMBERS (l :: ls)).
  - by intros ->.
Qed.

(** ** The surface deformer *)

Section DeformerFacts.
Variable Math_sin : Q -> Q.
Variables (c : Q) (origin : Vector3.t).

Lemma curve_body_lookup (i idx : nat) (a : list Q) :
  Mouth.curve_body Math_sin c origin i a !! idx
  = if decide (idx = i + 1)%nat then Mouth.stored Math_sin c origin (a !! i) (a !! (i + 1)%nat) else a !! idx.
Proof.
  unfold Mouth.curve_body, Mouth.stored.
  destruct (a !! i) as [vx|] eqn:Hx; destruct (a !! (i + 1)%nat) as [vy|] eqn:Hy;
    case_decide as E; subst; try done.
  - apply list_lookup_insert_eq. by apply lookup_lt_Some in Hy.
  - by apply list_lookup_insert_ne.
Qed.

Lemma curve_loop_lookup (n : nat) :
  forall (i : nat) (a : list Q),
    (forall idx, (forall m, (m < n)%nat -> idx <> (i + 3 * m + 1)%nat) ->
       Mouth.curve_loop Math_sin c origin n i a !! idx = a !! idx)
    /\ (forall m, (m < n)%nat ->
          Mouth.curve_loop Math_sin c origin n i a !! (i + 3 * m + 1)%nat
          = Mouth.stored Math_sin c origin (a !! (i + 3 * m)%nat) (a !! (i + 3 * m + 1)%nat)).
Proof.
  induction n as [|n IH]; intros i a; (split; [intros idx Hidx | intros m Hm]).
  - done.
  - lia.
  - cbn [Mouth.curve_loop].
    destruct (IH (i + 3)%nat (Mouth.curve_body Math_sin c origin i a)) as [IHa _].
    rewrite IHa by (intros m Hm; specialize (Hidx (S m) ltac:(lia)); lia).
    rewrite curve_body_lookup.
    case_decide as E; [|done]. specialize (Hidx 0%nat ltac:(lia)). lia.
  - cbn [Mouth.curve_loop].
    destruct (IH (i + 3)%nat (Mouth.curve_body Math_sin c origin i a)) as [IHa IHb].
    destruct m as [|m].
    + rewrite IHa by (intros; lia).
      rewrite curve_body_lookup. rewrite Nat.mul_0_r, Nat.add_0_r.
      by case_decide.
    + replace (i + 3 * S m + 1)%nat with (i + 3 + 3 * m + 1)%nat by lia.
      replace (i + 3 * S m)%nat with (i + 3 + 3 * m)%nat by lia.
      rewrite IHb by lia. rewrite !curve_body_lookup.
      by repeat case_decide; try lia.
Qed.

(** The curvature pass vertex by vertex. *)
Lemma curve_vertex (a : list Q) (k : nat) (vx vy vz : Q) :
  a !! (3 * k)%nat = Some vx ->
  a !! (3 * k + 1)%nat = Some vy ->
  a !! (3 * k + 2)%nat = Some vz ->
  let a' := Mouth.curve Math_sin c origin a in
  a' !! (3 * k)%nat = Some vx
  /\ a' !! (3 * k + 1)%nat = Some (Mouth.displaced_y Math_sin c (Vector3.x origin) vx vy)
  /\ a' !! (3 * k + 2)%nat = Some vz.
Proof.
  intros Hx Hy Hz a'. subst a'. unfold Mouth.curve.
  set (n := ((length a + 2) / 3)%nat).
  assert (Hk : (k < n)%nat).
  { apply lookup_lt_Some in Hz. subst n.
    pose proof (Nat.div_mod_eq (length a + 2) 3) as E.
    pose proof (Nat.mod_upper_bound (length a + 2) 3 ltac:(lia)). lia. }
  destruct (curve_loop_lookup n 0 a) as [Ha Hb].
  split; [|split].
  - rewrite Ha by (intros; lia). done.
  - specialize (Hb k Hk). rewrite !Nat.add_0_l in Hb. rewrite Hb.
    unfold Mouth.stored. by rewrite Hx, Hy.
  - rewrite Ha by (intros; lia). done.
Qed.
End DeformerFacts.

(** C6: for every vertex (vx, vy, vz) of the mesh, the curvature pass with
    coefficient c leaves x and z as they are and makes the y coordinate
    vy + sin(|vx - originX| * c) * 0.1, where originX is the x of the mesh's
    position; the pass is skipped when c is zero, so then y is unchanged,
    which agrees with the formula because sin 0 = 0. *)
Theorem surface_deformer_displacement (Math_sin : Q -> Q) (M : Mouth.Modifications)
    (mesh : Mesh.t) (k : nat) (vx vy vz : Q) :
  Math_sin 0 == 0 ->
  Proper (Qeq ==> Qeq) Math_sin ->
  Mouth.position_array mesh !! (3 * k)%nat = Some vx ->
  Mouth.position_array mesh !! (3 * k + 1)%nat = Some vy ->
  Mouth.position_array mesh !! (3 * k + 2)%nat = Some vz ->
  let c := Mouth.curvature M in
  let originX := Vector3.x (Mesh.position mesh) in
  let a' := Mouth.position_array (Mouth.modify Math_sin M mesh) in
  a' !! (3 * k)%nat = Some vx
  /\ a' !! (3 * k + 2)%nat = Some vz
  /\ exists vy' : Q,
       a' !! (3 * k + 1)%nat = Some vy'
       /\ vy' == Mouth.displaced_y Math_sin c originX vx vy
       /\ (~ c == 0 -> vy' = Mouth.displaced_y Math_sin c originX vx vy)
       /\ (c == 0 -> vy' = vy).
Proof.
  intros Hsin0 Hsin Hx Hy Hz c originX a'. subst a'.
  unfold Mouth.position_array, Mouth.modify, truthy in *. fold c.
  destruct (Qeq_bool c 0) eqn:Ec; cbn [negb Mesh.geometry].
  - apply Qeq_bool_iff in Ec.
    split; [done|]. split; [done|]. exists vy. split; [done|]. split; [|done].
    unfold Mouth.displaced_y.
    assert (E : Qabs (vx - originX) * c == 0) by (rewrite Ec; ring).
    rewrite E, Hsin0. ring.
  - apply Qeq_bool_neq in Ec.
    cbn [BufferGeometry.position BufferAttribute.array].
    destruct (curve_vertex Math_sin c (Mesh.position mesh) _ k vx vy vz Hx Hy Hz)
      as (Hx' & Hy' & Hz').
    split; [done|]. split; [done|]. eexists. split; [exact Hy'|].
    split; [reflexivity|]. split; [done|]. intros E. by destruct Ec.
Qed.

Lemma surface_deformer_displacement_witness :
  let M := Mouth.mkModifications 1 false false (1 # 2) in
  let mesh :=
    Mesh.mk (BufferGeometry.mk (BufferAttribute.mk [3; 1; 0] 3) (BufferAttribute.mk [0; 0] 2))
            (Vector3.mk 1 0 0) (Vector3.mk 1 1 1) in
  let a' := Mouth.position_array (Mouth.modify (fun q => q) M mesh) in
  a' !! (3 * 0)%nat = Some 3
  /\ a' !! (3 * 0 + 2)%nat = Some 0
  /\ exists vy' : Q,
       a' !! (3 * 0 + 1)%nat = Some vy'
       /\ vy' == Mouth.displaced_y (fun q => q) (1 # 2) 1 3 1
       /\ (~ (1 # 2) == 0 -> vy' = Mouth.displaced_y (fun q => q) (1 # 2) 1 3 1)
       /\ ((1 # 2) == 0 -> vy' = 1).
Proof.
  intros M mesh.
  apply (surface_deformer_displacement (fun q => q) M mesh 0 3 1 0).
  - reflexivity.
  - intros p q H. exact H.
  - reflexivity.
  - reflexivity.
  - reflexivity.
Defined.

(** ** The transform retargeter *)

Lemma scale_is_multiply (m : Matrix4.t) (s : Q) :
  Matrix4.equiv (Matrix4.scale m (Vector3.mk s s s))
                (Matrix4.multiply m (Matrix4.makeScale s s s)).
Proof.
  unfold Matrix4.equiv, Matrix4.scale, Matrix4.multiply, Matrix4.makeScale,
    Matrix4.entries. cbn.
  repeat (constructor; [ring|]). constructor.
Qed.

Lemma set_visible_flags (b : bool) (g : Pin.GLTFScene) :
  Pin.all_visible (Pin.set_visible b g) = b
  /\ Pin.none_visible (Pin.set_visible b g) = negb b.
Proof.
  unfold Pin.all_visible, Pin.none_visible, Pin.set_visible. cbn.
  induction (Pin.descendants_visible g) as [|d ds [IH1 IH2]]; destruct b; try done.
Qed.

(** C2: with the object loaded and a transformation matrix in the result,
    the pin landmark (x, y, z) goes to the device coordinates
    (2x - 1, 1 - 2y, z), these are unprojected to a world position, and the
    frame leaves as the object's matrix the product
    TransformationMatrix * translate(world) * translate(displacement) *
    scale(5), with [matrixAutoUpdate] switched off. *)
Theorem retargeter_pose_composition (unproject : Vector3.t -> Vector3.t)
    (o : Pin.PinnedObject) (g : Pin.GLTFScene) (landmarks : Pin.FaceLandmarkerResult)
    (data : list Q) (rest : list (list Q))
    (face : list NormalizedLandmark.t) (faces : list (list NormalizedLandmark.t))
    (l234 l454 l10 l152 vertex center : NormalizedLandmark.t) :
  Pin.gltf o = Some g ->
  Pin.facialTransformationMatrixes landmarks = Some (data :: rest) ->
  Pin.faceLandmarks landmarks = face :: faces ->
  face !! 234%nat = Some l234 ->
  face !! 454%nat = Some l454 ->
  face !! 10%nat = Some l10 ->
  face !! 152%nat = Some l152 ->
  face !! Pin.vertexToPin o = Some vertex ->
  face !! 1%nat = Some center ->
  let ndc := Pin.to_ndc vertex in
  let world := unproject ndc in
  let d := Pin.displacement vertex center l234 l454 l10 l152 in
  Vector3.x ndc == 2 * NormalizedLandmark.x vertex - 1
  /\ Vector3.y ndc == 1 - 2 * NormalizedLandmark.y vertex
  /\ Vector3.z ndc = NormalizedLandmark.z vertex
  /\ exists g' : Pin.GLTFScene,
       Pin.detectFaceLandmarks unproject o (Some landmarks)
       = (Pin.mkObject (Some g') (Pin.vertexToPin o), Normal tt)
       /\ Pin.matrixAutoUpdate g' = false
       /\ Matrix4.equiv (Pin.matrix g')
            (Matrix4.multiply
               (Matrix4.multiply
                  (Matrix4.multiply (Matrix4.fromArray data)
                     (Matrix4.makeTranslation (Vector3.x world) (Vector3.y world)
                                              (Vector3.z world)))
                  (Matrix4.makeTranslation (Vector3.x d) (Vector3.y d) (Vector3.z d)))
               (Matrix4.makeScale 5 5 5)).
Proof.
  intros Hg Hm Hf H234 H454 H10 H152 Hv Hc ndc world d.
  split; [simpl; ring|]. split; [simpl; ring|]. split; [done|].
  unfold Pin.detectFaceLandmarks. rewrite Hm.
  unfold Pin.retarget. cbn [Pin.vertexToPin Pin.gltf].
  rewrite Hf. cbn [lookup list_lookup get mbind completion_bind].
  rewrite H234, H454, H10, H152, Hv, Hc.
  cbn [get mbind completion_bind].
  unfold Pin.applyMatrix. cbn [Pin.gltf Pin.vertexToPin]. rewrite Hg.
  cbn [fmap option_fmap option_map default Pin.set_visible Pin.visible
       Pin.descendants_visible].
  eexists. split; [reflexivity|]. split; [reflexivity|].
  cbn [Pin.matrix]. apply scale_is_multiply.
Qed.

Lemma retargeter_pose_composition_witness :
  exists g' : Pin.GLTFScene,
    Pin.detectFaceLandmarks (fun v => v) Samples.loaded_object
      (Some Samples.face_with_matrix)
    = (Pin.mkObject (Some g') 10, Normal tt)
    /\ Pin.matrixAutoUpdate g' = false.
Proof.
  destruct (retargeter_pose_composition (fun v => v) Samples.loaded_object
              Samples.loaded_scene Samples.face_with_matrix Samples.identity_data []
              Samples.face []
              (NormalizedLandmark.mk (234 / 478) (234 / 478) (- (234 / 478)))
              (NormalizedLandmark.mk (454 / 478) (454 / 478) (- (454 / 478)))
              (NormalizedLandmark.mk (10 / 478) (10 / 478) (- (10 / 478)))
              (NormalizedLandmark.mk (152 / 478) (152 / 478) (- (152 / 478)))
              (NormalizedLandmark.mk (10 / 478) (10 / 478) (- (10 / 478)))
              (NormalizedLandmark.mk (1 / 478) (1 / 478) (- (1 / 478)))
              eq_refl eq_refl eq_refl eq_refl eq_refl eq_refl eq_refl eq_refl eq_refl)
    as (_ & _ & _ & g' & Hrun & Hauto & _).
  exists g'. split; [exact Hrun | exact Hauto].
Defined.

(** C8 as stated fails: in a frame with a face but without a transformation
    matrix the loaded object is shown, not hidden (and left untransformed). *)
Lemma shown_without_matrix :
  exists g' : Pin.GLTFScene,
    Pin.detectFaceLandmarks (fun v => v) Samples.loaded_object
      (Some Samples.face_without_matrix)
    = (Pin.mkObject (Some g') 10, Normal tt)
    /\ Pin.facialTransformationMatrixes Samples.face_without_matrix = None
    /\ Pin.all_visible g' = true
    /\ Pin.none_visible g' = false.
Proof.
  eexists. split; [reflexivity|]. by repeat split.
Qed.

(** C8, as the code has it: for a loaded object, every frame makes the
    object visible exactly when the frame's landmark set is non-empty; with
    an empty landmark set the object is marked invisible and its pose is left
    alone; without a transformation matrix the pose is left alone as well,
    the frame does not throw, and visibility still follows the landmark set. *)
Theorem retargeter_visibility (unproject : Vector3.t -> Vector3.t)
    (o : Pin.PinnedObject) (g : Pin.GLTFScene) (landmarks : Pin.FaceLandmarkerResult) :
  Pin.gltf o = Some g ->
  exists (g' : Pin.GLTFScene) (c : completion unit),
    Pin.detectFaceLandmarks unproject o (Some landmarks)
    = (Pin.mkObject (Some g') (Pin.vertexToPin o), c)
    /\ (Pin.all_visible g' = true <-> Pin.faceLandmarks landmarks <> [])
    /\ (Pin.faceLandmarks landmarks = [] ->
          Pin.none_visible g' = true
          /\ Pin.matrix g' = Pin.matrix g
          /\ Pin.matrixAutoUpdate g' = Pin.matrixAutoUpdate g)
    /\ (Pin.facialTransformationMatrixes landmarks = None
        \/ Pin.facialTransformationMatrixes landmarks = Some [] ->
          c = Normal tt
          /\ Pin.matrix g' = Pin.matrix g
          /\ Pin.matrixAutoUpdate g' = Pin.matrixAutoUpdate g).
Proof.
  intros Hg.
  set (shown := (0 <? length (Pin.faceLandmarks landmarks))%nat).
  assert (Hshown : shown = true <-> Pin.faceLandmarks landmarks <> []).
  { subst shown. destruct (Pin.faceLandmarks landmarks); simpl; split; try done. }
  destruct (set_visible_flags shown g) as [Hall Hnone].
  unfold Pin.detectFaceLandmarks. fold shown. rewrite Hg.
  cbn [fmap option_fmap option_map].
  destruct (Pin.facialTransformationMatrixes landmarks) as [[|data rest]|] eqn:Hm.
  - exists (Pin.set_visible shown g), (Normal tt).
    split; [done|]. split; [by rewrite Hall|]. split; [|done].
    intros E. rewrite Hnone. split; [|done].
    destruct shown; [|done]. by apply Hshown in E.
  - destruct (Pin.retarget unproject _ landmarks data) as [m|e] eqn:Hr.
    + unfold Pin.applyMatrix. cbn [Pin.gltf Pin.vertexToPin].
      eexists _, (Normal tt). split; [reflexivity|].
      cbn [Pin.all_visible Pin.none_visible Pin.visible Pin.descendants_visible
           Pin.set_visible Pin.matrix Pin.matrixAutoUpdate].
      split; [exact (eq_ind _ (fun b => b = true <-> _) Hshown _ (eq_sym Hall))|].
      split; [|by intros [|]].
      intros E. unfold Pin.retarget in Hr. by rewrite E in Hr.
    + exists (Pin.set_visible shown g), (Throw e).
      split; [done|]. split; [by rewrite Hall|]. split; [|by intros [|]].
      intros E. rewrite Hnone. split; [|done].
      destruct shown; [|done]. by apply Hshown in E.
  - exists (Pin.set_visible shown g), (Normal tt).
    split; [done|]. split; [by rewrite Hall|]. split; [|done].
    intros E. rewrite Hnone. split; [|done].
    destruct shown; [|done]. by apply Hshown in E.
Qed.

Lemma retargeter_visibility_witness :
  exists (g' : Pin.GLTFScene) (c : completion unit),
    Pin.detectFaceLandmarks (fun v => v) Samples.loaded_object
      (Some Samples.face_with_matrix)
    = (Pin.mkObject (Some g') 10, c)
    /\ (Pin.all_visible g' = true <-> Pin.faceLandmarks Samples.face_with_matrix <> []).
Proof.
  destruct (retargeter_visibility (fun v => v) Samples.loaded_object
              Samples.loaded_scene Samples.face_with_matrix eq_refl)
    as (g' & c & Hrun & Hvis & _).
  exists g', c. split; [exact Hrun | exact Hvis].
Defined.

(** ** The hit tester *)

(** The box of a hand with at least one landmark, on a canvas of
    non-negative size, has non-negative width and height. *)
Lemma extent_ordered (hand : list NormalizedLandmark.t) :
  forall minX maxX minY maxY : Q,
    minX <= maxX \/ hand <> [] ->
    minY <= maxY \/ hand <> [] ->
    let '(a, b, c, d) :=
      fold_left
        (fun '(minX, maxX, minY, maxY) l =>
           let lx := NormalizedLandmark.x l in
           let ly := NormalizedLandmark.y l in
           (if Qltb lx minX then lx else minX,
            if Qltb maxX lx then lx else maxX,
            if Qltb ly minY then ly else minY,
            if Qltb maxY ly then ly else maxY))
        hand (minX, maxX, minY, maxY) in
    a <= b /\ c <= d.
Proof.
  induction hand as [|l ls IH]; intros minX maxX minY maxY HX HY.
  - simpl. by destruct HX, HY.
  - cbn [fold_left]. apply IH; left.
    + unfold Qltb.
      destruct (Qle_bool minX (NormalizedLandmark.x l)) eqn:E1;
        destruct (Qle_bool (NormalizedLandmark.x l) maxX) eqn:E2; cbn [negb];
        rewrite ?Qle_bool_iff in *; try apply Qle_refl; try done.
      by apply (Qle_trans _ _ _ E1).
    + unfold Qltb.
      destruct (Qle_bool minY (NormalizedLandmark.y l)) eqn:E1;
        destruct (Qle_bool (NormalizedLandmark.y l) maxY) eqn:E2; cbn [negb];
        rewrite ?Qle_bool_iff in *; try apply Qle_refl; try done.
      by apply (Qle_trans _ _ _ E1).
Qed.

Lemma boundingBox_nonneg (w h : Q) (hand : list NormalizedLandmark.t) :
  hand <> [] -> 0 <= w -> 0 <= h ->
  0 <= BoundingBox.width (Hands.boundingBox w h hand)
  /\ 0 <= BoundingBox.height (Hands.boundingBox w h hand).
Proof.
  intros Hne Hw Hh. unfold Hands.boundingBox, Hands.extent.
  pose proof (extent_ordered hand 1 0 1 0 (or_intror Hne) (or_intror Hne)) as H.
  destruct (fold_left _ hand _) as [[[a b] c] d]. destruct H as [Hab Hcd].
  cbn [BoundingBox.width BoundingBox.height]. split.
  - apply Qmult_le_0_compat; [|done]. unfold Qminus. by rewrite <- Qle_minus_iff.
  - apply Qmult_le_0_compat; [|done]. unfold Qminus. by rewrite <- Qle_minus_iff.
Qed.

(** C9: [Target.hit] reports a hit exactly when the target's position lies
    in the box with all four bounds inclusive; so a target placed on the
    corner (originX, originY) of a box of non-negative width and height is
    hit, and the box computed from a hand with at least one landmark on a
    canvas of non-negative size is such a box. *)
Theorem hit_test_inclusive (t : Target.t) (box : BoundingBox.t) :
  (Target.inside t box = true <->
     BoundingBox.originX box <= Target.x t
     /\ Target.x t <= BoundingBox.originX box + BoundingBox.width box
     /\ BoundingBox.originY box <= Target.y t
     /\ Target.y t <= BoundingBox.originY box + BoundingBox.height box)
  /\ (0 <= BoundingBox.width box -> 0 <= BoundingBox.height box ->
      Target.inside
        (Target.mk (BoundingBox.originX box) (BoundingBox.originY box) (Target.radius t))
        box = true)
  /\ (forall (w h : Q) (hand : list NormalizedLandmark.t),
        hand <> [] -> 0 <= w -> 0 <= h ->
        let b := Hands.boundingBox w h hand in
        Target.inside
          (Target.mk (BoundingBox.originX b) (BoundingBox.originY b) (Target.radius t))
          b = true).
Proof.
  assert (Hiff : forall (u : Target.t) (b : BoundingBox.t),
    Target.inside u b = true <->
     BoundingBox.originX b <= Target.x u
     /\ Target.x u <= BoundingBox.originX b + BoundingBox.width b
     /\ BoundingBox.originY b <= Target.y u
     /\ Target.y u <= BoundingBox.originY b + BoundingBox.height b).
  { intros u b. unfold Target.inside. rewrite !andb_true_iff, !Qle_bool_iff. tauto. }
  assert (Hcorner : forall b : BoundingBox.t,
    0 <= BoundingBox.width b -> 0 <= BoundingBox.height b ->
    Target.inside
      (Target.mk (BoundingBox.originX b) (BoundingBox.originY b) (Target.radius t))
      b = true).
  { intros b Hw Hh. apply Hiff. cbn [Target.x Target.y].
    repeat split; try apply Qle_refl.
    - rewrite <- (Qplus_0_r (BoundingBox.originX b)) at 1. by apply Qplus_le_r.
    - rewrite <- (Qplus_0_r (BoundingBox.originY b)) at 1. by apply Qplus_le_r. }
  split; [apply Hiff|]. split; [apply Hcorner|].
  intros w h hand Hne Hw Hh b.
  destruct (boundingBox_nonneg w h hand Hne Hw Hh). by apply Hcorner.
Qed.

Lemma hit_test_inclusive_witness :
  Target.inside (Target.mk 100 100 5) Samples.box = true.
Proof.
  apply (hit_test_inclusive (Target.mk 100 100 5) Samples.box); discriminate.
Defined.

(** ** Target placement *)

Lemma clamp_position_lower (raw size : Q) :
  Hands.radius + Hands.margin <= Hands.clamp_position raw size.
Proof. apply Q.le_max_l. Qed.

Lemma clamp_position_upper (raw size : Q) :
  Hands.radius + Hands.margin <= size - Hands.radius - Hands.margin ->
  Hands.clamp_position raw size <= size - Hands.radius - Hands.margin.
Proof.
  intros H. apply Q.max_lub; [done|]. apply Q.le_min_r.
Qed.

(** C5 as stated fails: on a canvas 40 wide and 40 high, the target that
    replaces a hit one sits at x = 25, beyond width - radius - margin = 15. *)
Lemma small_canvas_target_clipped :
  let g' := Hands.hit Samples.half Samples.sphere_draws 0 Samples.small_box Samples.small_game in
  Target.inside (Hands.target Samples.small_game) Samples.small_box = true
  /\ Hands.score g' = 1%Z
  /\ Target.x (Hands.target g') = 25
  /\ Hands.canvas_width g' - Hands.radius - Hands.margin == 15
  /\ ~ Target.x (Hands.target g')
       <= Hands.canvas_width g' - Hands.radius - Hands.margin.
Proof.
  split; [reflexivity|]. split; [reflexivity|]. split; [reflexivity|].
  split; [reflexivity|].
  vm_compute. intros H. by apply H.
Qed.

(** C5, as the code has it: when the canvas is at least 2 * (radius + margin)
    = 50 wide and high, the target that replaces a hit one lies, whatever
    [Math.random] returns, within [radius + margin, size - radius - margin]
    on both axes; the lower bounds hold on any canvas. *)
Theorem new_target_within_margins (Math_random : nat -> Q) (Target_draws : nat -> nat) (i : nat)
    (box : BoundingBox.t) (g : Hands.Game) :
  Target.inside (Hands.target g) box = true ->
  let g' := Hands.hit Math_random Target_draws i box g in
  let t := Hands.target g' in
  Hands.score g' = (Hands.score g + 1)%Z
  /\ Hands.radius + Hands.margin <= Target.x t
  /\ Hands.radius + Hands.margin <= Target.y t
  /\ (2 * (Hands.radius + Hands.margin) <= Hands.canvas_width g ->
      Target.x t <= Hands.canvas_width g - Hands.radius - Hands.margin)
  /\ (2 * (Hands.radius + Hands.margin) <= Hands.canvas_height g ->
      Target.y t <= Hands.canvas_height g - Hands.radius - Hands.margin).
Proof.
  intros Hin g' t. subst t g'. unfold Hands.hit. rewrite Hin.
  unfold Hands.onHit, Hands.generateNewTarget, Hands.addScore.
  cbn [Hands.target Hands.score Hands.canvas_width Hands.canvas_height
       Hands.draws Target.x Target.y].
  split; [done|].
  split; [apply clamp_position_lower|]. split; [apply clamp_position_lower|].
  split; intros H; apply clamp_position_upper.
  - apply (Qplus_le_l _ _ (Hands.radius + Hands.margin)).
    ring_simplify. ring_simplify in H. done.
  - apply (Qplus_le_l _ _ (Hands.radius + Hands.margin)).
    ring_simplify. ring_simplify in H. done.
Qed.

Lemma new_target_within_margins_witness :
  let g' := Hands.hit Samples.half Samples.sphere_draws 0 Samples.box Samples.game in
  let t := Hands.target g' in
  Hands.score g' = (Hands.score Samples.game + 1)%Z
  /\ Hands.radius + Hands.margin <= Target.x t
  /\ Hands.radius + Hands.margin <= Target.y t
  /\ (2 * (Hands.radius + Hands.margin) <= Hands.canvas_width Samples.game ->
      Target.x t <= Hands.canvas_width Samples.game - Hands.radius - Hands.margin)
  /\ (2 * (Hands.radius + Hands.margin) <= Hands.canvas_height Samples.game ->
      Target.y t <= Hands.canvas_height Samples.game - Hands.radius - Hands.margin).
Proof.
  apply (new_target_within_margins Samples.half Samples.sphere_draws 0 Samples.box Samples.game).
  reflexivity.
Defined.

(** ** The gesture debouncer *)

Lemma hit_tests_app (i : nat) (l1 l2 : list Hands.Event) :
  Hands.hit_tests i (l1 ++ l2) = (Hands.hit_tests i l1 + Hands.hit_tests i l2)%nat.
Proof.
  unfold Hands.hit_tests. by rewrite List.filter_app, length_app.
Qed.

Lemma hit_counts_once (Math_random : nat -> Q) (Target_draws : nat -> nat) (i : nat)
    (box : BoundingBox.t) (g : Hands.Game) :
  Hands.hit_tests i (Hands.log (Hands.hit Math_random Target_draws i box g))
  = S (Hands.hit_tests i (Hands.log g))
  /\ Hands.lastHandStates (Hands.hit Math_random Target_draws i box g) = Hands.lastHandStates g.
Proof.
  unfold Hands.hit, Hands.onHit, Hands.generateNewTarget, Hands.addScore.
  destruct (Target.inside (Hands.target g) box);
    cbn [Hands.log Hands.lastHandStates]; rewrite !hit_tests_app;
    unfold Hands.hit_tests; cbn [List.filter Hands.is_hit_test length];
    rewrite Nat.eqb_refl; cbn [length]; split; (lia || done).
Qed.

Lemma gesture_body_spec (Math_random : nat -> Q) (Target_draws : nat -> nat)
    (results : Hands.GestureRecognizerResult)
    (boundingBoxes : list BoundingBox.t) (i : nat) (g : Hands.Game)
    (top : Category.t) (others : list Category.t)
    (side : Category.t) (sides : list Category.t) (box : BoundingBox.t) :
  Hands.gestures results !! i = Some (top :: others) ->
  Hands.handedness results !! i = Some (side :: sides) ->
  boundingBoxes !! i = Some box ->
  exists g' : Hands.Game,
    Hands.gesture_body Math_random Target_draws results boundingBoxes i g = Normal g'
    /\ Hands.lastHandStates g'
       = <[i := Category.categoryName top]> (Hands.lastHandStates g)
    /\ Hands.hit_tests i (Hands.log g')
       = (Hands.hit_tests i (Hands.log g)
          + if Hands.rising (Hands.lastHandStates g !! i) (Category.categoryName top)
            then 1 else 0)%nat.
Proof.
  intros Hres Hside Hbox.
  unfold Hands.gesture_body, Hands.generateHTML, Hands.rising. rewrite Hres, Hside.
  cbn [get mbind completion_bind lookup list_lookup].
  destruct (bool_decide (Category.categoryName top = "Closed_Fist")
            && bool_decide (Hands.lastHandStates g !! i ≠ Some "Closed_Fist")).
  - rewrite Hbox. cbn [get mbind completion_bind].
    destruct (hit_counts_once Math_random Target_draws i box g) as [Hc Hl].
    eexists. split; [reflexivity|].
    cbn [Hands.set_lastHandState Hands.lastHandStates Hands.log].
    rewrite Hl, Hc. split; [done | lia].
  - cbn [mbind completion_bind].
    eexists. split; [reflexivity|].
    cbn [Hands.set_lastHandState Hands.lastHandStates Hands.log].
    split; [done | lia].
Qed.

Lemma last_cons_default {A : Type} (l : list A) :
  forall a d : A, List.last (a :: l) d = List.last l a.
Proof.
  induction l as [|b l IH]; intros a d; [done|].
  change (List.last (a :: b :: l) d) with (List.last (b :: l) d).
  by rewrite !IH.
Qed.

Lemma run_one_hand (Math_random : nat -> Q) (Target_draws : nat -> nat) (w h : Q)
    (side : Category.t) (frames : list (list NormalizedLandmark.t * string)) :
  forall g : Hands.Game,
    exists g' : Hands.Game,
      Hands.run Math_random Target_draws w h
        (map (fun f => Hands.one_hand f.1 side f.2) frames) g
      = Normal g'
      /\ Hands.hit_tests 0 (Hands.log g')
         = (Hands.hit_tests 0 (Hands.log g)
            + Hands.rising_edges (Hands.lastHandStates g !! 0%nat) (map snd frames))%nat
      /\ Hands.lastHandStates g' !! 0%nat
         = List.last (map (fun f => Some f.2) frames) (Hands.lastHandStates g !! 0%nat).
Proof.
  induction frames as [|[hand label] frames IH]; intros g.
  - exists g. simpl. split; [done|]. split; [lia | done].
  - cbn [map Hands.run fst snd Hands.rising_edges].
    unfold Hands.predictWebcam.
    cbn [Hands.one_hand Hands.landmarks Hands.gestures length for_range map].
    destruct (gesture_body_spec Math_random Target_draws (Hands.one_hand hand side label)
                [Hands.boundingBox w h hand] 0 g (Category.mk label 1 "") [] side []
                (Hands.boundingBox w h hand) eq_refl eq_refl eq_refl)
      as (g1 & Hg1 & Hl & Hc).
    rewrite Hg1. cbn [mbind completion_bind Category.categoryName] in *.
    destruct (IH g1) as (g' & Hrun & Hcount & Hlast).
    exists g'. split; [done|].
    rewrite Hl, lookup_insert_eq in Hcount, Hlast.
    split.
    + rewrite Hcount, Hc. lia.
    + by rewrite Hlast, last_cons_default.
Qed.

(** C3: in a frame, for a hand [i] that comes with a gesture category, a
    handedness category and a box, the hit test is called exactly when the
    hand's current label is "Closed_Fist" and the label stored for that hand
    is not; the stored label becomes the current one whether or not the test
    was called.  Fed the labels none, none, trigger, trigger, trigger, none,
    trigger, one tracked hand causes exactly 2 hit tests. *)
Theorem gesture_debounce (Math_random : nat -> Q) (Target_draws : nat -> nat) (w h : Q) :
  (forall (results : Hands.GestureRecognizerResult) (boundingBoxes : list BoundingBox.t)
          (i : nat) (g : Hands.Game) (top : Category.t) (others : list Category.t)
          (side : Category.t) (sides : list Category.t) (box : BoundingBox.t),
     Hands.gestures results !! i = Some (top :: others) ->
     Hands.handedness results !! i = Some (side :: sides) ->
     boundingBoxes !! i = Some box ->
     exists g' : Hands.Game,
       Hands.gesture_body Math_random Target_draws results boundingBoxes i g = Normal g'
       /\ Hands.lastHandStates g' !! i = Some (Category.categoryName top)
       /\ (Hands.hit_tests i (Hands.log g') = S (Hands.hit_tests i (Hands.log g)) <->
             Category.categoryName top = "Closed_Fist"
             /\ Hands.lastHandStates g !! i <> Some "Closed_Fist")
       /\ (Hands.hit_tests i (Hands.log g') = Hands.hit_tests i (Hands.log g) <->
             ~ (Category.categoryName top = "Closed_Fist"
                /\ Hands.lastHandStates g !! i <> Some "Closed_Fist")))
  /\ (forall (hand : list NormalizedLandmark.t) (side : Category.t) (none : string)
             (g : Hands.Game),
        none <> "Closed_Fist" ->
        Hands.lastHandStates g !! 0%nat <> Some "Closed_Fist" ->
        exists g' : Hands.Game,
          Hands.run Math_random Target_draws w h
            (map (Hands.one_hand hand side)
                 [none; none; "Closed_Fist"; "Closed_Fist"; "Closed_Fist"; none;
                  "Closed_Fist"]) g
          = Normal g'
          /\ Hands.hit_tests 0 (Hands.log g') = (Hands.hit_tests 0 (Hands.log g) + 2)%nat).
Proof.
  split.
  - intros results boundingBoxes i g top others side sides box Hres Hside Hbox.
    destruct (gesture_body_spec Math_random Target_draws results boundingBoxes i g
                top others side sides box Hres Hside Hbox) as (g' & Hrun & Hl & Hc).
    exists g'. split; [done|]. split; [by rewrite Hl, lookup_insert_eq|].
    rewrite Hc. unfold Hands.rising.
    repeat case_bool_decide; cbn [andb]; split; split; try lia; try tauto.
  - intros hand side none g Hnone Hprev.
    destruct (run_one_hand Math_random Target_draws w h side
                (map (fun l => (hand, l))
                     [none; none; "Closed_Fist"; "Closed_Fist"; "Closed_Fist"; none;
                      "Closed_Fist"]) g) as (g' & Hrun & Hc & _).
    exists g'. split; [exact Hrun|].
    rewrite Hc. f_equal. cbn [map snd Hands.rising_edges]. unfold Hands.rising.
    repeat case_bool_decide; simplify_eq; try done.
Qed.

Lemma gesture_debounce_witness :
  exists g' : Hands.Game,
    Hands.run Samples.half Samples.sphere_draws 640 480
      (map (Hands.one_hand Samples.hand Samples.right)
           ["None"; "None"; "Closed_Fist"; "Closed_Fist"; "Closed_Fist"; "None";
            "Closed_Fist"]%string) Samples.game
    = Normal g'
    /\ Hands.hit_tests 0 (Hands.log g') = (Hands.hit_tests 0 (Hands.log Samples.game) + 2)%nat.
Proof.
  apply (proj2 (gesture_debounce Samples.half Samples.sphere_draws 640 480) Samples.hand
           Samples.right "None"%string Samples.game).
  - discriminate.
  - discriminate.
Defined.

(** * Further facts *)

(** ** What the mouth page feeds the triangulator *)

Lemma MOUTH_INDICES_members :
  MouthPage.MOUTH_INDICES
  = [0; 267; 269; 270; 409; 291; 375; 321; 405; 314; 17; 84; 181; 91; 146; 61; 185; 40;
     39; 37]%nat.
Proof. by vm_compute. Qed.

Lemma strip_order_ring :
  MouthPage.strip_order
  = map (fun k => nth k MouthPage.MOUTH_INDICES 0%nat) Mouth.MOUTH_INDICES_SORTED.
Proof. by vm_compute. Qed.

Lemma ring_table (n : nat) :
  (n < 20)%nat ->
  exists k idx : nat,
    Mouth.MOUTH_INDICES_SORTED !! n = Some k
    /\ MouthPage.MOUTH_INDICES !! k = Some idx
    /\ nth n MouthPage.strip_order 0%nat = idx
    /\ (k < 20)%nat /\ (idx < 410)%nat.
Proof.
  intros Hn.
  do 20 (destruct n as [|n];
         [eexists _, _; split; [reflexivity|]; split; [by vm_compute|];
          split; [reflexivity|]; split; lia|]).
  lia.
Qed.

(** The mesh of a ring whose landmarks are all present: its triangles, its
    two parallel attributes and where each UV comes from. *)
Lemma strip_mesh_uvs (ring : list nat) (DRAW_NUMBERS : bool)
    (landmarks : list (option NormalizedLandmark.t)) :
  (3 <= length ring)%nat ->
  Mouth.all_present ring landmarks ->
  Mouth.labels_readable DRAW_NUMBERS landmarks ->
  exists mesh : Mesh.t,
    Mouth.landmarksToMesh_on ring DRAW_NUMBERS landmarks = Normal (Some mesh)
    /\ Mesh.triangle_count mesh = (length ring - 2)%nat
    /\ BufferAttribute.count (BufferGeometry.position (Mesh.geometry mesh))
       = (3 * (length ring - 2))%nat
    /\ BufferAttribute.count (BufferGeometry.uv (Mesh.geometry mesh))
       = (3 * (length ring - 2))%nat
    /\ forall i j : nat, (i < length ring - 2)%nat -> (j < 3)%nat ->
         Mesh.vertex_uv mesh (3 * i + j)
         = Some (NormalizedLandmark.x (Mouth.the_point ring landmarks (i + j)),
                 NormalizedLandmark.y (Mouth.the_point ring landmarks (i + j))).
Proof.
  intros Hlen Hp Hlabels.
  destruct (landmarksToMesh_on_present ring DRAW_NUMBERS landmarks Hlen Hp Hlabels)
    as (s & _ & (Hv & Hu & _) & Hmesh).
  eexists. split; [exact Hmesh|].
  destruct (strip_array_lengths ring landmarks (length ring - 2)) as [Lv Lu].
  split; [by apply (centred_triangle_count ring landmarks)|].
  split; [|split].
  - unfold BufferAttribute.count. mesh_fields.
    rewrite (translate_array_length _ _ _ (Nat.le_refl _)), Hv, Lv.
    replace (9 * (length ring - 2))%nat with (3 * (length ring - 2) * 3)%nat by lia.
    by rewrite Nat.div_mul.
  - unfold BufferAttribute.count. mesh_fields. rewrite Hu, Lu.
    replace (6 * (length ring - 2))%nat with (3 * (length ring - 2) * 2)%nat by lia.
    by rewrite Nat.div_mul.
  - intros i j Hi Hj.
    unfold Mesh.vertex_uv, BufferAttribute.getX, BufferAttribute.getY. mesh_fields.
    rewrite Hu.
    by destruct (strip_uv_lookup ring landmarks (length ring - 2) i j Hi Hj) as [-> ->].
Qed.

Lemma dense_labels_readable (DRAW_NUMBERS : bool) (ls : list NormalizedLandmark.t) :
  Mouth.labels_readable DRAW_NUMBERS (map Some ls).
Proof.
  intros _. induction ls as [|l ls IH]; [constructor|].
  cbn [map]. constructor; [by eexists | exact IH].
Qed.

(** X1: a first face of at least 410 landmarks gives [landmarksToMesh]
    twenty defined mouth landmarks, and the mesh it returns has 18
    triangles whose vertex [j] of triangle [i] carries the UV of the face
    landmark [strip_order[i + j]]: the strip runs from landmark 61 to
    landmark 291, alternating between the two lips. *)
Theorem full_face_mouth_mesh (DRAW_NUMBERS : bool) (face : list NormalizedLandmark.t)
    (others : list (list NormalizedLandmark.t)) :
  (410 <= length face)%nat ->
  exists (ml : list NormalizedLandmark.t) (mesh : Mesh.t),
    MouthPage.mouthLandmarks (face :: others) = map Some ml
    /\ Mouth.landmarksToMesh DRAW_NUMBERS (MouthPage.mouthLandmarks (face :: others))
       = Normal (Some mesh)
    /\ Mesh.triangle_count mesh = 18%nat
    /\ forall i j : nat, (i < 18)%nat -> (j < 3)%nat ->
         exists l : NormalizedLandmark.t,
           face !! nth (i + j) MouthPage.strip_order 0%nat = Some l
           /\ Mesh.vertex_uv mesh (3 * i + j)
              = Some (NormalizedLandmark.x l, NormalizedLandmark.y l).
Proof.
  intros Hface.
  set (f := fun index => default (NormalizedLandmark.mk 0 0 0) (face !! index)).
  set (ml := map f MouthPage.MOUTH_INDICES).
  assert (Hf : forall idx, (idx < 410)%nat -> face !! idx = Some (f idx)).
  { intros idx Hidx. subst f. cbv beta.
    destruct (lookup_lt_is_Some_2 face idx ltac:(lia)) as [l ->]. done. }
  assert (Hml : MouthPage.mouthLandmarks (face :: others) = map Some ml).
  { unfold MouthPage.mouthLandmarks. cbn [lookup list_lookup].
    subst ml. rewrite List.map_map. apply map_ext_in. intros idx Hin.
    apply Hf. revert idx Hin. apply List.Forall_forall.
    rewrite MOUTH_INDICES_members. repeat (constructor; [lia|]). constructor. }
  assert (Hrp : forall n, (n < 20)%nat ->
            Mouth.ring_point Mouth.MOUTH_INDICES_SORTED (map Some ml) n
            = face !! nth n MouthPage.strip_order 0%nat).
  { intros n Hn. destruct (ring_table n Hn) as (k & idx & Hk & Hidx & Hnth & _ & Hlt).
    unfold Mouth.ring_point, Mouth.slot. rewrite Hk. cbn [mbind option_bind].
    subst ml. rewrite !list_lookup_fmap, Hidx, Hnth.
    cbn [fmap option_fmap option_map mjoin option_join].
    by rewrite Hf. }
  assert (Hp : Mouth.all_present Mouth.MOUTH_INDICES_SORTED (map Some ml)).
  { intros n Hn. rewrite Hrp by done.
    destruct (ring_table n Hn) as (k & idx & _ & _ & -> & _ & Hlt).
    rewrite Hf by done. by eexists. }
  destruct (strip_mesh_uvs Mouth.MOUTH_INDICES_SORTED DRAW_NUMBERS (map Some ml)
              ltac:(simpl; lia) Hp (dense_labels_readable DRAW_NUMBERS ml))
    as (mesh & Hmesh & Ht & _ & _ & Huv).
  exists ml, mesh. rewrite Hml.
  split; [done|split; [exact Hmesh|split; [exact Ht|]]].
  intros i j Hi Hj.
  exists (Mouth.the_point Mouth.MOUTH_INDICES_SORTED (map Some ml) (i + j)).
  split; [|by apply Huv].
  rewrite <- Hrp by lia. apply ring_point_the_point; [done | simpl; lia].
Qed.

Lemma full_face_mouth_mesh_witness :
  exists (ml : list NormalizedLandmark.t) (mesh : Mesh.t),
    MouthPage.mouthLandmarks [Samples.face] = map Some ml
    /\ Mouth.landmarksToMesh true (MouthPage.mouthLandmarks [Samples.face])
       = Normal (Some mesh)
    /\ Mesh.triangle_count mesh = 18%nat
    /\ forall i j : nat, (i < 18)%nat -> (j < 3)%nat ->
         exists l : NormalizedLandmark.t,
           Samples.face !! nth (i + j) MouthPage.strip_order 0%nat = Some l
           /\ Mesh.vertex_uv mesh (3 * i + j)
              = Some (NormalizedLandmark.x l, NormalizedLandmark.y l).
Proof.
  apply (full_face_mouth_mesh true Samples.face []).
  unfold Samples.face. rewrite length_map, length_seq. lia.
Defined.

Lemma for_range_throws {St : Type} (body : nat -> St -> completion St) (n : nat) :
  forall (start j : nat) (s : St),
    (start <= j < start + n)%nat ->
    (forall t, body j t = Throw TypeError) ->
    for_range start n body s = Throw TypeError.
Proof.
  induction n as [|n IH]; intros start j s Hj Hthrow; [lia|].
  simpl. destruct (body start s) as [s'|[]] eqn:Hb; [|done].
  destruct (decide (j = start)) as [->|Hne].
  - by rewrite Hthrow in Hb.
  - simpl. apply (IH (S start) j); [lia | done].
Qed.

Lemma ring_table_inverse (k : nat) :
  (k < 20)%nat -> exists n : nat, (n < 20)%nat /\ Mouth.MOUTH_INDICES_SORTED !! n = Some k.
Proof.
  intros Hk.
  exists (nth k [9; 11; 13; 15; 17; 19; 18; 16; 14; 12; 10; 8; 6; 4; 2; 0; 1; 3; 5; 7]%nat
              0%nat).
  do 20 (destruct k as [|k]; [split; [cbn [nth]; lia | reflexivity]|]).
  lia.
Qed.

Lemma strip_body_throws (ring : list nat) (landmarks : list (option NormalizedLandmark.t))
    (j n : nat) (t : Mouth.strip) :
  (j <= n <= j + 2)%nat ->
  Mouth.ring_landmark ring landmarks n = Throw TypeError ->
  Mouth.strip_body ring landmarks j t = Throw TypeError.
Proof.
  intros Hn Hthrow. unfold Mouth.strip_body.
  assert (n = j \/ n = (j + 1)%nat \/ n = (j + 2)%nat) as [-> | [-> | ->]] by lia.
  - by rewrite Hthrow.
  - destruct (Mouth.ring_landmark ring landmarks j) as [l1|[]]; [|done].
    cbn [mbind completion_bind]. by rewrite Hthrow.
  - destruct (Mouth.ring_landmark ring landmarks j) as [l1|[]]; [|done].
    destruct (Mouth.ring_landmark ring landmarks (j + 1)) as [l2|[]]; [|done].
    cbn [mbind completion_bind]. by rewrite Hthrow.
Qed.

Lemma slots_defined_or_not (landmarks : list (option NormalizedLandmark.t)) (n : nat) :
  (forall k : nat, (k < n)%nat -> is_Some (Mouth.slot landmarks k))
  \/ (exists k : nat, (k < n)%nat /\ Mouth.slot landmarks k = None).
Proof.
  induction n as [|n [IH|(k & Hk & Hnone)]].
  - left. intros k Hk. lia.
  - destruct (Mouth.slot landmarks n) as [l|] eqn:E.
    + left. intros k Hk. destruct (decide (k = n)) as [->|Hne]; [by rewrite E|].
      apply IH. lia.
    + right. exists n. split; [lia | done].
  - right. exists k. split; [lia | done].
Qed.

(** X2: the three outcomes of [landmarksToMesh] on the array it is given:
    no mesh exactly for the empty array; a mesh of 18 triangles exactly when
    the slots 0 to 19 all hold a landmark and the labels can be drawn; a
    [TypeError] exactly for a non-empty array in which one of the slots 0 to
    19 is missing or holds [undefined], or whose labels are switched on
    while some slot holds [undefined].  For an array without [undefined]
    slots the slots 0 to 19 are all there exactly when it has 20 entries or
    more. *)
Theorem landmarksToMesh_outcomes (DRAW_NUMBERS : bool)
    (landmarks : list (option NormalizedLandmark.t)) :
  (Mouth.landmarksToMesh DRAW_NUMBERS landmarks = Normal None <->
     length landmarks = 0%nat)
  /\ (Mouth.landmarksToMesh DRAW_NUMBERS landmarks = Throw TypeError <->
        (0 < length landmarks)%nat
        /\ ((exists k : nat, (k < 20)%nat /\ Mouth.slot landmarks k = None)
            \/ ~ Mouth.labels_readable DRAW_NUMBERS landmarks))
  /\ ((exists mesh : Mesh.t,
         Mouth.landmarksToMesh DRAW_NUMBERS landmarks = Normal (Some mesh)
         /\ Mesh.triangle_count mesh = 18%nat) <->
        (forall k : nat, (k < 20)%nat -> is_Some (Mouth.slot landmarks k))
        /\ Mouth.labels_readable DRAW_NUMBERS landmarks)
  /\ (Forall is_Some landmarks ->
        Mouth.labels_readable DRAW_NUMBERS landmarks
        /\ ((forall k : nat, (k < 20)%nat -> is_Some (Mouth.slot landmarks k)) <->
              (20 <= length landmarks)%nat)).
Proof.
  assert (H0 : length landmarks = 0%nat ->
               Mouth.landmarksToMesh DRAW_NUMBERS landmarks = Normal None).
  { intros E. by destruct landmarks. }
  assert (H1 : (0 < length landmarks)%nat ->
               (exists k : nat, (k < 20)%nat /\ Mouth.slot landmarks k = None) ->
               Mouth.landmarksToMesh DRAW_NUMBERS landmarks = Throw TypeError).
  { intros Hl (k & Hk & Hnone).
    destruct (ring_table_inverse k Hk) as (n & Hn & Hring).
    unfold Mouth.landmarksToMesh, Mouth.landmarksToMesh_on.
    destruct (Nat.eqb_spec (length landmarks) 0) as [E|_]; [lia|].
    unfold Mouth.setup_vertices.
    rewrite (for_range_throws _ _ 0 (Nat.min n 17)); [done | simpl; lia |].
    intros t. apply (strip_body_throws _ _ _ n); [lia|].
    unfold Mouth.ring_landmark. rewrite Hring. cbn [mbind option_bind].
    by rewrite Hnone. }
  assert (Hp : (forall k : nat, (k < 20)%nat -> is_Some (Mouth.slot landmarks k)) ->
               Mouth.all_present Mouth.MOUTH_INDICES_SORTED landmarks).
  { intros Hdef n Hn. destruct (ring_table n Hn) as (k & idx & Hk & _ & _ & Hlt & _).
    unfold Mouth.ring_point. rewrite Hk. cbn [mbind option_bind].
    by apply Hdef. }
  assert (H2 : (forall k : nat, (k < 20)%nat -> is_Some (Mouth.slot landmarks k)) ->
               Mouth.labels_readable DRAW_NUMBERS landmarks ->
               exists mesh : Mesh.t,
                 Mouth.landmarksToMesh DRAW_NUMBERS landmarks = Normal (Some mesh)
                 /\ Mesh.triangle_count mesh = 18%nat).
  { intros Hdef Hlabels.
    destruct (strip_mesh_uvs Mouth.MOUTH_INDICES_SORTED DRAW_NUMBERS landmarks
                ltac:(simpl; lia) (Hp Hdef) Hlabels) as (mesh & Hmesh & Ht & _).
    by exists mesh. }
  assert (H3 : (forall k : nat, (k < 20)%nat -> is_Some (Mouth.slot landmarks k)) ->
               ~ Mouth.labels_readable DRAW_NUMBERS landmarks ->
               Mouth.landmarksToMesh DRAW_NUMBERS landmarks = Throw TypeError).
  { intros Hdef Hlabels.
    destruct (setup_vertices_inv Mouth.MOUTH_INDICES_SORTED landmarks (Hp Hdef))
      as (s & Hs & _).
    pose proof (all_present_nonempty Mouth.MOUTH_INDICES_SORTED landmarks
                  ltac:(simpl; lia) (Hp Hdef)) as Hne.
    unfold Mouth.landmarksToMesh, Mouth.landmarksToMesh_on.
    destruct (Nat.eqb_spec (length landmarks) 0) as [E|_]; [lia|].
    rewrite Hs. cbn [mbind completion_bind]. unfold Mouth.draw_numbers.
    destruct DRAW_NUMBERS.
    - rewrite (proj2 (label_all_outcome landmarks)); [done|].
      intros Hall. apply Hlabels. by intros _.
    - destruct Hlabels. intros H. discriminate H. }
  assert (Hlab : Mouth.labels_readable DRAW_NUMBERS landmarks
                 \/ ~ Mouth.labels_readable DRAW_NUMBERS landmarks).
  { unfold Mouth.labels_readable. destruct DRAW_NUMBERS.
    - destruct (decide (Forall is_Some landmarks)) as [H|H].
      + left. by intros _.
      + right. intros Hr. by apply H, Hr.
    - left. intros H. discriminate H. }
  assert (Hcases :
    (length landmarks = 0%nat
     /\ Mouth.landmarksToMesh DRAW_NUMBERS landmarks = Normal None)
    \/ ((0 < length landmarks)%nat
        /\ ((exists k : nat, (k < 20)%nat /\ Mouth.slot landmarks k = None)
            \/ ~ Mouth.labels_readable DRAW_NUMBERS landmarks)
        /\ Mouth.landmarksToMesh DRAW_NUMBERS landmarks = Throw TypeError)
    \/ ((0 < length landmarks)%nat
        /\ (forall k : nat, (k < 20)%nat -> is_Some (Mouth.slot landmarks k))
        /\ Mouth.labels_readable DRAW_NUMBERS landmarks
        /\ exists mesh : Mesh.t,
             Mouth.landmarksToMesh DRAW_NUMBERS landmarks = Normal (Some mesh)
             /\ Mesh.triangle_count mesh = 18%nat)).
  { destruct (Nat.eq_dec (length landmarks) 0%nat) as [E|Hne];
      [left; split; [done | by apply H0]|].
    right.
    destruct (slots_defined_or_not landmarks 20) as [Hdef|Hex].
    - destruct Hlab as [Hl|Hl].
      + right. split; [lia|]. split; [done|]. split; [done|]. by apply H2.
      + left. split; [lia|]. split; [by right|]. by apply H3.
    - left. split; [lia|]. split; [by left|]. apply H1; [lia | done]. }
  assert (Hslot0 : length landmarks = 0%nat ->
                   ~ forall k : nat, (k < 20)%nat -> is_Some (Mouth.slot landmarks k)).
  { intros E Hdef. destruct landmarks; [|done].
    destruct (Hdef 0%nat ltac:(lia)) as [l Hl]. discriminate Hl. }
  assert (Hexcl : (exists k : nat, (k < 20)%nat /\ Mouth.slot landmarks k = None) ->
                  ~ forall k : nat, (k < 20)%nat -> is_Some (Mouth.slot landmarks k)).
  { intros (k & Hk & Hnone) Hdef. destruct (Hdef k Hk) as [l Hl]. congruence. }
  split; [|split; [|split]].
  - split; [|exact H0]. intros Hnone.
    destruct Hcases as [[E _]|[(_ & _ & Ht)|(_ & _ & _ & mesh & Hm & _)]];
      [done | congruence | congruence].
  - split.
    + intros Hthrow.
      destruct Hcases as [[_ Hn]|[(Hl & Hwhy & _)|(_ & _ & _ & mesh & Hm & _)]];
        [congruence | by split | congruence].
    + intros [Hl Hwhy].
      destruct Hcases as [[E _]|[(_ & _ & Ht)|(_ & Hdef & Hlabels & _)]];
        [lia | done |].
      destruct Hwhy as [Hex|Hno]; [by destruct (Hexcl Hex) | by destruct Hno].
  - split.
    + intros (mesh & Hm & _).
      destruct Hcases as [[_ Hn]|[(_ & _ & Ht)|(_ & Hdef & Hlabels & _)]];
        [congruence | congruence | by split].
    + intros [Hdef Hlabels]. by apply H2.
  - intros Hdense. split; [by intros _|]. split.
    + intros Hdef. destruct (Hdef 19%nat ltac:(lia)) as [l Hl].
      unfold Mouth.slot in Hl.
      destruct (landmarks !! 19%nat) as [o|] eqn:E; [|done].
      apply lookup_lt_Some in E. lia.
    + intros Hlen k Hk. unfold Mouth.slot.
      destruct (lookup_lt_is_Some_2 landmarks k ltac:(lia)) as [o Ho]. rewrite Ho.
      rewrite Forall_lookup in Hdense. exact (Hdense k o Ho).
Qed.

(** X3: when the ring's landmarks are all present and the labels can be
    drawn, the mesh's two attributes are parallel: with [t] triangles there
    are [3 * t] positions and [3 * t] UVs, every vertex below that count has
    both, and no vertex from that count on has either. *)
Theorem mesh_attributes_parallel (ring : list nat) (DRAW_NUMBERS : bool)
    (landmarks : list (option NormalizedLandmark.t)) :
  (3 <= length ring)%nat ->
  Mouth.all_present ring landmarks ->
  Mouth.labels_readable DRAW_NUMBERS landmarks ->
  exists mesh : Mesh.t,
    Mouth.landmarksToMesh_on ring DRAW_NUMBERS landmarks = Normal (Some mesh)
    /\ BufferAttribute.count (BufferGeometry.position (Mesh.geometry mesh))
       = (3 * Mesh.triangle_count mesh)%nat
    /\ BufferAttribute.count (BufferGeometry.uv (Mesh.geometry mesh))
       = (3 * Mesh.triangle_count mesh)%nat
    /\ forall v : nat,
         ((v < 3 * Mesh.triangle_count mesh)%nat ->
            is_Some (Mesh.vertex_position mesh v) /\ is_Some (Mesh.vertex_uv mesh v))
         /\ ((3 * Mesh.triangle_count mesh <= v)%nat ->
            Mesh.vertex_position mesh v = None /\ Mesh.vertex_uv mesh v = None).
Proof.
  intros Hlen Hp Hlabels.
  destruct (landmarksToMesh_on_present ring DRAW_NUMBERS landmarks Hlen Hp Hlabels)
    as (s & _ & (Hv & Hu & _) & Hmesh).
  destruct (strip_mesh_uvs ring DRAW_NUMBERS landmarks Hlen Hp Hlabels)
    as (mesh & Hm & Ht & Hcp & Hcu & Huv).
  assert (mesh = Mesh.mk (BufferGeometry.center (Mouth.raw_geometry s))
                         (Mouth.averagePoint ring s) (Vector3.mk 1 1 1)) as E
    by congruence.
  exists mesh. rewrite Ht. split; [done|]. split; [done|]. split; [done|].
  set (m := (length ring - 2)%nat) in *.
  destruct (strip_array_lengths ring landmarks m) as [Lv Lu].
  intros v. split.
  - intros Hlt.
    pose proof (Nat.div_mod_eq v 3) as Hdm.
    pose proof (Nat.mod_upper_bound v 3 ltac:(lia)) as Hmod.
    set (i := (v / 3)%nat) in *. set (j := (v mod 3)%nat) in *.
    assert (Hi : (i < m)%nat) by lia.
    rewrite Hdm. split; [|rewrite Huv by done; by eexists].
    rewrite E. unfold Mesh.vertex_position, BufferAttribute.getX, BufferAttribute.getY,
      BufferAttribute.getZ. mesh_fields. rewrite Hv.
    destruct (strip_vertex_lookup ring landmarks m i j Hi Hmod) as (Hx & Hy & Hz).
    replace ((3 * i + j) * 3)%nat with (3 * (3 * i + j))%nat by lia.
    destruct (translate_array_lookup
                (BufferGeometry.center_offset (Mouth.raw_geometry s))
                _ _ _ _ _ Hx Hy Hz) as (-> & -> & ->).
    by eexists.
  - intros Hge. rewrite E.
    unfold Mesh.vertex_position, Mesh.vertex_uv, BufferAttribute.getX. mesh_fields.
    rewrite !lookup_ge_None_2; [done| |].
    + rewrite Hu, Lu. lia.
    + rewrite (translate_array_length _ _ _ (Nat.le_refl _)), Hv, Lv. lia.
Qed.

Lemma mesh_attributes_parallel_witness :
  exists mesh : Mesh.t,
    Mouth.landmarksToMesh_on Samples.square_ring false Samples.unit_square = Normal (Some mesh)
    /\ BufferAttribute.count (BufferGeometry.position (Mesh.geometry mesh))
       = (3 * Mesh.triangle_count mesh)%nat.
Proof.
  destruct (mesh_attributes_parallel Samples.square_ring false Samples.unit_square
              ltac:(simpl; lia) unit_square_present ltac:(intros H; discriminate H))
    as (mesh & Hm & Hc & _).
  exists mesh. split; [exact Hm | exact Hc].
Defined.

(** ** More on the surface deformer *)

Lemma curve_loop_length (Math_sin : Q -> Q) (c : Q) (origin : Vector3.t) (n : nat) :
  forall (i : nat) (a : list Q),
    length (Mouth.curve_loop Math_sin c origin n i a) = length a.
Proof.
  induction n as [|n IH]; intros i a; [done|].
  cbn [Mouth.curve_loop]. rewrite IH. unfold Mouth.curve_body.
  destruct (a !! i); [|done]. destruct (a !! (i + 1)%nat); [|done].
  apply length_insert.
Qed.

(** X4: whatever the coefficient, the curvature pass moves no vertex by
    more than 0.1 along y, provided [Math.sin] stays within [-1, 1]. *)
Theorem curvature_amplitude (Math_sin : Q -> Q) (M : Mouth.Modifications)
    (mesh : Mesh.t) (k : nat) (vx vy vz : Q) :
  (forall q : Q, Qabs (Math_sin q) <= 1) ->
  Mouth.position_array mesh !! (3 * k)%nat = Some vx ->
  Mouth.position_array mesh !! (3 * k + 1)%nat = Some vy ->
  Mouth.position_array mesh !! (3 * k + 2)%nat = Some vz ->
  exists vy' : Q,
    Mouth.position_array (Mouth.modify Math_sin M mesh) !! (3 * k + 1)%nat = Some vy'
    /\ Qabs (vy' - vy) <= 1 # 10.
Proof.
  intros Hsin Hx Hy Hz.
  unfold Mouth.position_array, Mouth.modify in *.
  destruct (truthy (Mouth.curvature M)); cbn [Mesh.geometry].
  - cbn [BufferGeometry.position BufferAttribute.array].
    destruct (curve_vertex Math_sin (Mouth.curvature M) (Mesh.position mesh) _ k vx vy vz
                Hx Hy Hz) as (_ & Hy' & _).
    eexists. split; [exact Hy'|]. unfold Mouth.displaced_y.
    set (d := Math_sin _).
    assert (E : vy + d * (1 # 10) - vy == d * (1 # 10)) by ring.
    rewrite E, Qabs_Qmult. specialize (Hsin (Qabs (vx - Vector3.x (Mesh.position mesh))
                                              * Mouth.curvature M)). fold d in Hsin.
    change (Qabs (1 # 10)) with (1 # 10).
    rewrite <- (Qmult_1_l (1 # 10)) at 2.
    by apply Qmult_le_compat_r.
  - exists vy. split; [done|].
    assert (E : vy - vy == 0) by ring. by rewrite E.
Qed.

Lemma curvature_amplitude_witness :
  exists vy' : Q,
    Mouth.position_array
      (Mouth.modify (fun q => 0) (Mouth.mkModifications 1 false false (1 # 2))
         (Mesh.mk (BufferGeometry.mk (BufferAttribute.mk [3; 1; 0] 3)
                                     (BufferAttribute.mk [0; 0] 2))
                  (Vector3.mk 1 0 0) (Vector3.mk 1 1 1)))
      !! (3 * 0 + 1)%nat = Some vy'
    /\ Qabs (vy' - 1) <= 1 # 10.
Proof.
  apply (curvature_amplitude (fun q => 0) _ _ 0 3 1 0).
  - intros q. discriminate.
  - reflexivity.
  - reflexivity.
  - reflexivity.
Defined.

(** X5: the displacement depends only on a vertex's horizontal distance
    to the mesh position: two vertices at the same distance, on either
    side, are moved by the same amount, and a vertex straight above or below
    the position is not moved (for a [Math.sin] with sin 0 = 0). *)
Theorem curvature_mirror (Math_sin : Q -> Q) (M : Mouth.Modifications)
    (mesh : Mesh.t) (k1 k2 : nat) (x1 y1 z1 x2 y2 z2 : Q) :
  Math_sin 0 == 0 ->
  Proper (Qeq ==> Qeq) Math_sin ->
  Mouth.position_array mesh !! (3 * k1)%nat = Some x1 ->
  Mouth.position_array mesh !! (3 * k1 + 1)%nat = Some y1 ->
  Mouth.position_array mesh !! (3 * k1 + 2)%nat = Some z1 ->
  Mouth.position_array mesh !! (3 * k2)%nat = Some x2 ->
  Mouth.position_array mesh !! (3 * k2 + 1)%nat = Some y2 ->
  Mouth.position_array mesh !! (3 * k2 + 2)%nat = Some z2 ->
  let originX := Vector3.x (Mesh.position mesh) in
  let a' := Mouth.position_array (Mouth.modify Math_sin M mesh) in
  exists y1' y2' : Q,
    a' !! (3 * k1 + 1)%nat = Some y1'
    /\ a' !! (3 * k2 + 1)%nat = Some y2'
    /\ (Qabs (x1 - originX) == Qabs (x2 - originX) -> y1' - y1 == y2' - y2)
    /\ (x1 == originX -> y1' == y1).
Proof.
  intros Hsin0 Hsin Hx1 Hy1 Hz1 Hx2 Hy2 Hz2 originX a'. subst a'.
  unfold Mouth.position_array, Mouth.modify in *.
  destruct (truthy (Mouth.curvature M)); cbn [Mesh.geometry].
  - cbn [BufferGeometry.position BufferAttribute.array].
    destruct (curve_vertex Math_sin (Mouth.curvature M) (Mesh.position mesh) _ k1 x1 y1 z1
                Hx1 Hy1 Hz1) as (_ & H1 & _).
    destruct (curve_vertex Math_sin (Mouth.curvature M) (Mesh.position mesh) _ k2 x2 y2 z2
                Hx2 Hy2 Hz2) as (_ & H2 & _).
    eexists _, _. split; [exact H1|]. split; [exact H2|].
    unfold Mouth.displaced_y. fold originX. split.
    + intros E. rewrite E. ring.
    + intros E.
      assert (E0 : Qabs (x1 - originX) * Mouth.curvature M == 0).
      { rewrite E. assert (E1 : originX - originX == 0) by ring. rewrite E1.
        change (Qabs 0) with 0. ring. }
      rewrite E0, Hsin0. ring.
  - exists y1, y2. split; [done|]. split; [done|]. split; [intros _; ring | done].
Qed.

Lemma curvature_mirror_witness :
  let mesh :=
    Mesh.mk (BufferGeometry.mk (BufferAttribute.mk [3; 1; 0; -1; 5; 0] 3)
                               (BufferAttribute.mk [0; 0; 0; 0] 2))
            (Vector3.mk 1 0 0) (Vector3.mk 1 1 1) in
  let a' := Mouth.position_array
              (Mouth.modify (fun q => q) (Mouth.mkModifications 1 false false (1 # 2)) mesh) in
  exists y1' y2' : Q,
    a' !! (3 * 0 + 1)%nat = Some y1'
    /\ a' !! (3 * 1 + 1)%nat = Some y2'
    /\ (Qabs (3 - 1) == Qabs (-1 - 1) -> y1' - 1 == y2' - 5)
    /\ (3 == 1 -> y1' == 1).
Proof.
  intros mesh.
  apply (curvature_mirror (fun q => q) _ mesh 0 1 3 1 0 (-1) 5 0).
  - reflexivity.
  - intros p q H. exact H.
  - reflexivity.
  - reflexivity.
  - reflexivity.
  - reflexivity.
  - reflexivity.
  - reflexivity.
Defined.

(** X6: what the modifications never touch: the number of entries of the
    position array, the UV attribute and the mesh position; the scale
    becomes the slider's value on every axis, negated on x and on y when the
    flips are set and never on z. *)
Theorem modify_preserves (Math_sin : Q -> Q) (M : Mouth.Modifications) (mesh : Mesh.t) :
  let mesh' := Mouth.modify Math_sin M mesh in
  length (Mouth.position_array mesh') = length (Mouth.position_array mesh)
  /\ BufferGeometry.uv (Mesh.geometry mesh') = BufferGeometry.uv (Mesh.geometry mesh)
  /\ Mesh.position mesh' = Mesh.position mesh
  /\ Vector3.x (Mesh.scale mesh')
     == (if Mouth.flipX M then - Mouth.scale M else Mouth.scale M)
  /\ Vector3.y (Mesh.scale mesh')
     == (if Mouth.flipY M then - Mouth.scale M else Mouth.scale M)
  /\ Vector3.z (Mesh.scale mesh') = Mouth.scale M.
Proof.
  unfold Mouth.modify, Mouth.position_array, Mouth.curve. cbn [Mesh.geometry Mesh.position
    Mesh.scale Vector3.x Vector3.y Vector3.z].
  split; [|split; [|split; [done|]]].
  - destruct (truthy (Mouth.curvature M)); [|done].
    cbn [BufferGeometry.position BufferAttribute.array]. apply curve_loop_length.
  - by destruct (truthy (Mouth.curvature M)).
  - split; [|split; [|done]].
    + destruct (Mouth.flipX M); [ring|done].
    + destruct (Mouth.flipY M); [ring|done].
Qed.

(** ** Recentring twice *)

Lemma translate_array_zero (o : Vector3.t) :
  Vector3.equiv o (Vector3.mk 0 0 0) ->
  forall (n : nat) (a : list Q), (length a <= n)%nat ->
    Forall2 Qeq (BufferGeometry.translate_array o a) a.
Proof.
  intros (Hx & Hy & Hz). simpl in Hx, Hy, Hz.
  induction n as [|n IH]; intros a Ha.
  - destruct a; [constructor|simpl in Ha; lia].
  - destruct a as [|a0 [|a1 [|a2 a]]]; simpl.
    + constructor.
    + by repeat constructor.
    + by repeat constructor.
    + constructor; [rewrite Hx; ring|]. constructor; [rewrite Hy; ring|].
      constructor; [rewrite Hz; ring|]. apply IH. simpl in Ha. lia.
Qed.

(** X7: recentring is idempotent on what [landmarksToMesh] returns: calling
    [geometry.center()] again on the mesh's geometry moves it by the zero
    vector and leaves every coordinate where it was. *)
Theorem recentring_idempotent (ring : list nat) (DRAW_NUMBERS : bool)
    (landmarks : list (option NormalizedLandmark.t)) (mesh : Mesh.t) :
  Mouth.landmarksToMesh_on ring DRAW_NUMBERS landmarks = Normal (Some mesh) ->
  Vector3.equiv (BufferGeometry.center_offset (Mesh.geometry mesh)) (Vector3.mk 0 0 0)
  /\ Forall2 Qeq
       (BufferAttribute.array
          (BufferGeometry.position (BufferGeometry.center (Mesh.geometry mesh))))
       (BufferAttribute.array (BufferGeometry.position (Mesh.geometry mesh)))
  /\ BufferGeometry.uv (BufferGeometry.center (Mesh.geometry mesh))
     = BufferGeometry.uv (Mesh.geometry mesh).
Proof.
  unfold Mouth.landmarksToMesh_on.
  destruct (length landmarks =? 0)%nat; [done|].
  destruct (Mouth.setup_vertices ring landmarks) as [s|e]; [|done].
  cbn [mbind completion_bind].
  destruct (Mouth.draw_numbers DRAW_NUMBERS landmarks) as [[]|e]; [|done].
  cbn [mbind completion_bind]. intros [= <-]. cbn [Mesh.geometry].
  assert (Hz : Vector3.equiv
                 (BufferGeometry.center_offset
                    (BufferGeometry.center (Mouth.raw_geometry s)))
                 (Vector3.mk 0 0 0)).
  { unfold BufferGeometry.center_offset at 1.
    destruct (center_centered (Mouth.raw_geometry s)) as (H1 & H2 & H3).
    simpl in H1, H2, H3.
    repeat split; cbn [Vector3.negate Vector3.x Vector3.y Vector3.z];
      rewrite ?H1, ?H2, ?H3; ring. }
  split; [done|]. split; [|done].
  unfold BufferGeometry.center at 1.
  cbn [BufferGeometry.translate BufferGeometry.position BufferAttribute.array].
  by apply (translate_array_zero _ Hz _ _ (Nat.le_refl _)).
Qed.

Lemma recentring_idempotent_witness :
  exists mesh : Mesh.t,
    Mouth.landmarksToMesh_on Samples.square_ring false Samples.unit_square = Normal (Some mesh)
    /\ Vector3.equiv (BufferGeometry.center_offset (Mesh.geometry mesh)) (Vector3.mk 0 0 0).
Proof.
  eexists. split; [vm_compute; reflexivity|].
  eapply (recentring_idempotent Samples.square_ring false Samples.unit_square).
  vm_compute. reflexivity.
Defined.

(** ** The clipping region *)

Lemma averagePoint_throw_absorbs (e : JsError)
    (p : list (option NormalizedLandmark.t * option NormalizedLandmark.t)) :
  fold_left MouthPage.averagePoint_step p (Throw e) = Throw e.
Proof. induction p as [|seg p IH]; [done|]. simpl. exact IH. Qed.

(** X8: [drawClippingRegion] gets past its [averagePoint] exactly when both
    ends of every connection are landmarks of the list; one missing end makes
    it throw. *)
Theorem clipping_average_defined (landmarks : list NormalizedLandmark.t)
    (connections : list Connection.t) :
  (exists p : Q * Q, MouthPage.averagePoint landmarks connections = Normal p)
  <-> Forall (fun c => (Connection.start c < length landmarks)%nat
                       /\ (Connection.end_ c < length landmarks)%nat) connections.
Proof.
  unfold MouthPage.averagePoint. generalize (0, 0) as acc.
  induction connections as [|c cs IH]; intros acc.
  - split; [constructor | by eexists].
  - cbn [MouthPage.path map fold_left]. fold (MouthPage.path landmarks cs).
    unfold MouthPage.averagePoint_step at 2. cbn [mbind completion_bind fst snd].
    destruct (landmarks !! Connection.start c) as [from|] eqn:Hs;
      [destruct (landmarks !! Connection.end_ c) as [to|] eqn:He|];
      cbn [get mbind completion_bind].
    + rewrite IH. apply lookup_lt_Some in Hs, He. split.
      * intros H. by constructor.
      * by intros [_ H]%Forall_cons.
    + rewrite averagePoint_throw_absorbs. apply lookup_ge_None in He. split.
      * by intros [p Hp].
      * intros [[_ H] _]%Forall_cons. lia.
    + rewrite averagePoint_throw_absorbs. apply lookup_ge_None in Hs. split.
      * by intros [p Hp].
      * intros [[H _] _]%Forall_cons. lia.
Qed.

Lemma averagePoint_chain (landmarks : list NormalizedLandmark.t)
    (vs : list nat) (pts : list NormalizedLandmark.t) :
  Forall2 (fun v l => landmarks !! v = Some l) vs pts ->
  forall (a z : nat) (la lz : NormalizedLandmark.t) (acc : Q * Q),
    landmarks !! a = Some la ->
    landmarks !! z = Some lz ->
    exists p : Q * Q,
      fold_left MouthPage.averagePoint_step
        (MouthPage.path landmarks (zip_with Connection.mk (a :: vs) (vs ++ [z])))
        (Normal acc) = Normal p
      /\ fst p == fst acc + NormalizedLandmark.x la / 2 + fst (MouthPage.sum_xy pts)
                  + NormalizedLandmark.x lz / 2
      /\ snd p == snd acc + NormalizedLandmark.y la / 2 + snd (MouthPage.sum_xy pts)
                  + NormalizedLandmark.y lz / 2.
Proof.
  induction 1 as [|b lb vs pts Hb Hrest IH]; intros a z la lz acc Ha Hz.
  - cbn [app zip_with MouthPage.path map fold_left Connection.start Connection.end_].
    unfold MouthPage.averagePoint_step. rewrite Ha, Hz.
    cbn [get mbind completion_bind fst snd MouthPage.sum_xy].
    eexists. split; [reflexivity|]. cbn [fst snd]. unfold Qdiv. split; ring.
  - cbn [app zip_with MouthPage.path map fold_left Connection.start Connection.end_].
    unfold MouthPage.averagePoint_step at 2. rewrite Ha, Hb.
    cbn [get mbind completion_bind fst snd].
    destruct (IH b z lb lz
                (fst acc + (NormalizedLandmark.x la + NormalizedLandmark.x lb) / 2,
                 snd acc + (NormalizedLandmark.y la + NormalizedLandmark.y lb) / 2)
                Hb Hz) as (p & Hp & Hx & Hy).
    exists p. split; [exact Hp|]. cbn [fst snd MouthPage.sum_xy] in *.
    rewrite Hx, Hy. split; field.
Qed.

(** X9: around a closed polygon the [averagePoint] of [drawClippingRegion]
    is the sum of the polygon's landmarks, each counted once: the midpoints
    are added up and never divided by their number. *)
Theorem clipping_average_of_loop (landmarks : list NormalizedLandmark.t)
    (vs : list nat) (pts : list NormalizedLandmark.t) :
  Forall2 (fun v l => landmarks !! v = Some l) vs pts ->
  exists p : Q * Q,
    MouthPage.averagePoint landmarks (MouthPage.loop vs) = Normal p
    /\ fst p == fst (MouthPage.sum_xy pts)
    /\ snd p == snd (MouthPage.sum_xy pts).
Proof.
  intros H. destruct H as [|v0 l0 rest prest H0 Hrest].
  - exists (0, 0). by repeat split.
  - unfold MouthPage.averagePoint, MouthPage.loop.
    destruct (averagePoint_chain landmarks rest prest Hrest v0 v0 l0 l0 (0, 0) H0 H0)
      as (p & Hp & Hx & Hy).
    exists p. split; [exact Hp|]. cbn [fst snd MouthPage.sum_xy] in *.
    rewrite Hx, Hy. split; field.
Qed.

Lemma clipping_average_of_loop_witness :
  exists p : Q * Q,
    MouthPage.averagePoint Samples.square_corners (MouthPage.loop [0; 1; 2; 3]%nat)
    = Normal p
    /\ fst p == fst (MouthPage.sum_xy Samples.square_corners)
    /\ snd p == snd (MouthPage.sum_xy Samples.square_corners).
Proof.
  apply (clipping_average_of_loop Samples.square_corners [0; 1; 2; 3]%nat
           Samples.square_corners).
  repeat constructor.
Defined.

Lemma MOUTH_POINTS_closed : MouthPage.MOUTH_POINTS = MouthPage.loop MouthPage.MOUTH_INDICES.
Proof. by vm_compute. Qed.

(** ** More on the transform retargeter *)

(** The frame of [detectFaceLandmarks] that applies a pose, written out. *)
Lemma detect_pose (unproject : Vector3.t -> Vector3.t)
    (o : Pin.PinnedObject) (g : Pin.GLTFScene) (landmarks : Pin.FaceLandmarkerResult)
    (data : list Q) (rest : list (list Q))
    (face : list NormalizedLandmark.t) (faces : list (list NormalizedLandmark.t))
    (l234 l454 l10 l152 vertex center : NormalizedLandmark.t) :
  Pin.gltf o = Some g ->
  Pin.facialTransformationMatrixes landmarks = Some (data :: rest) ->
  Pin.faceLandmarks landmarks = face :: faces ->
  face !! 234%nat = Some l234 ->
  face !! 454%nat = Some l454 ->
  face !! 10%nat = Some l10 ->
  face !! 152%nat = Some l152 ->
  face !! Pin.vertexToPin o = Some vertex ->
  face !! 1%nat = Some center ->
  let world := unproject (Pin.to_ndc vertex) in
  let d := Pin.displacement vertex center l234 l454 l10 l152 in
  Pin.detectFaceLandmarks unproject o (Some landmarks)
  = (Pin.mkObject
       (Some (Pin.mkScene true (map (fun _ => true) (Pin.descendants_visible g)) false
                (Matrix4.scale
                   (Matrix4.multiply
                      (Matrix4.multiply (Matrix4.fromArray data)
                         (Matrix4.makeTranslation (Vector3.x world) (Vector3.y world)
                                                  (Vector3.z world)))
                      (Matrix4.makeTranslation (Vector3.x d) (Vector3.y d) (Vector3.z d)))
                   (Vector3.mk 5 5 5))))
       (Pin.vertexToPin o),
     Normal tt).
Proof.
  intros Hg Hm Hf H234 H454 H10 H152 Hv Hc world d.
  unfold Pin.detectFaceLandmarks. rewrite Hm.
  unfold Pin.retarget. cbn [Pin.vertexToPin Pin.gltf].
  rewrite Hf. cbn [lookup list_lookup get mbind completion_bind].
  rewrite H234, H454, H10, H152, Hv, Hc.
  cbn [get mbind completion_bind].
  unfold Pin.applyMatrix. cbn [Pin.gltf Pin.vertexToPin]. rewrite Hg.
  cbn [fmap option_fmap option_map default Pin.set_visible Pin.visible
       Pin.descendants_visible length Nat.ltb Nat.leb].
  reflexivity.
Qed.

(** Matrices up to entry-wise equality of rationals. *)
Ltac matrix_entries :=
  unfold Matrix4.equiv, Matrix4.scale, Matrix4.multiply, Matrix4.makeScale,
    Matrix4.makeTranslation, Matrix4.entries;
  cbn [Matrix4.n11 Matrix4.n12 Matrix4.n13 Matrix4.n14 Matrix4.n21 Matrix4.n22
       Matrix4.n23 Matrix4.n24 Matrix4.n31 Matrix4.n32 Matrix4.n33 Matrix4.n34
       Matrix4.n41 Matrix4.n42 Matrix4.n43 Matrix4.n44 Vector3.x Vector3.y Vector3.z];
  repeat (constructor; [ring|]); constructor.

Lemma Matrix4_equiv_entries (a b : Matrix4.t) :
  Matrix4.equiv a b <->
  (Matrix4.n11 a == Matrix4.n11 b /\ Matrix4.n12 a == Matrix4.n12 b
   /\ Matrix4.n13 a == Matrix4.n13 b /\ Matrix4.n14 a == Matrix4.n14 b)
  /\ (Matrix4.n21 a == Matrix4.n21 b /\ Matrix4.n22 a == Matrix4.n22 b
      /\ Matrix4.n23 a == Matrix4.n23 b /\ Matrix4.n24 a == Matrix4.n24 b)
  /\ (Matrix4.n31 a == Matrix4.n31 b /\ Matrix4.n32 a == Matrix4.n32 b
      /\ Matrix4.n33 a == Matrix4.n33 b /\ Matrix4.n34 a == Matrix4.n34 b)
  /\ (Matrix4.n41 a == Matrix4.n41 b /\ Matrix4.n42 a == Matrix4.n42 b
      /\ Matrix4.n43 a == Matrix4.n43 b /\ Matrix4.n44 a == Matrix4.n44 b).
Proof.
  unfold Matrix4.equiv, Matrix4.entries. split.
  - intros H.
    repeat match goal with
           | H : Forall2 _ (_ :: _) (_ :: _) |- _ =>
               apply Forall2_cons_1 in H; destruct H as [? H]
           end.
    by repeat split.
  - intros ((?&?&?&?)&(?&?&?&?)&(?&?&?&?)&(?&?&?&?)).
    by repeat constructor.
Qed.

#[global] Instance Matrix4_equiv_equivalence : Equivalence Matrix4.equiv.
Proof.
  split.
  - intros a. apply Matrix4_equiv_entries. by repeat split.
  - intros a b H. apply Matrix4_equiv_entries in H. apply Matrix4_equiv_entries.
    destruct H as ((?&?&?&?)&(?&?&?&?)&(?&?&?&?)&(?&?&?&?)).
    by repeat split; symmetry.
  - intros a b c H1 H2.
    apply Matrix4_equiv_entries in H1, H2. apply Matrix4_equiv_entries.
    destruct H1 as ((?&?&?&?)&(?&?&?&?)&(?&?&?&?)&(?&?&?&?)).
    destruct H2 as ((?&?&?&?)&(?&?&?&?)&(?&?&?&?)&(?&?&?&?)).
    repeat split; etrans; eauto.
Qed.

#[global] Instance Matrix4_multiply_proper :
  Proper (Matrix4.equiv ==> Matrix4.equiv ==> Matrix4.equiv) Matrix4.multiply.
Proof.
  intros a a' Ha b b' Hb.
  apply Matrix4_equiv_entries in Ha, Hb. apply Matrix4_equiv_entries.
  destruct Ha as ((A11&A12&A13&A14)&(A21&A22&A23&A24)&(A31&A32&A33&A34)
                  &(A41&A42&A43&A44)).
  destruct Hb as ((B11&B12&B13&B14)&(B21&B22&B23&B24)&(B31&B32&B33&B34)
                  &(B41&B42&B43&B44)).
  unfold Matrix4.multiply.
  cbn [Matrix4.n11 Matrix4.n12 Matrix4.n13 Matrix4.n14 Matrix4.n21 Matrix4.n22
       Matrix4.n23 Matrix4.n24 Matrix4.n31 Matrix4.n32 Matrix4.n33 Matrix4.n34
       Matrix4.n41 Matrix4.n42 Matrix4.n43 Matrix4.n44].
  rewrite A11, A12, A13, A14, A21, A22, A23, A24, A31, A32, A33, A34, A41, A42, A43, A44,
    B11, B12, B13, B14, B21, B22, B23, B24, B31, B32, B33, B34, B41, B42, B43, B44.
  by repeat split.
Qed.

Lemma translations_add (w d : Vector3.t) :
  Matrix4.equiv
    (Matrix4.multiply
       (Matrix4.makeTranslation (Vector3.x w) (Vector3.y w) (Vector3.z w))
       (Matrix4.makeTranslation (Vector3.x d) (Vector3.y d) (Vector3.z d)))
    (Matrix4.makeTranslation (Vector3.x w + Vector3.x d) (Vector3.y w + Vector3.y d)
                             (Vector3.z w + Vector3.z d)).
Proof. matrix_entries. Qed.

Lemma multiply_assoc (a b c : Matrix4.t) :
  Matrix4.equiv (Matrix4.multiply (Matrix4.multiply a b) c)
                (Matrix4.multiply a (Matrix4.multiply b c)).
Proof. matrix_entries. Qed.

Lemma makeTranslation_proper (x x' y y' z z' : Q) :
  x == x' -> y == y' -> z == z' ->
  Matrix4.equiv (Matrix4.makeTranslation x y z) (Matrix4.makeTranslation x' y' z').
Proof.
  intros Hx Hy Hz. apply Matrix4_equiv_entries.
  unfold Matrix4.makeTranslation.
  cbn [Matrix4.n11 Matrix4.n12 Matrix4.n13 Matrix4.n14 Matrix4.n21 Matrix4.n22
       Matrix4.n23 Matrix4.n24 Matrix4.n31 Matrix4.n32 Matrix4.n33 Matrix4.n34
       Matrix4.n41 Matrix4.n42 Matrix4.n43 Matrix4.n44].
  by repeat split.
Qed.

Lemma pose_translations_merge (A : Matrix4.t) (w d : Vector3.t) (s : Q) :
  Matrix4.equiv
    (Matrix4.scale
       (Matrix4.multiply
          (Matrix4.multiply A
             (Matrix4.makeTranslation (Vector3.x w) (Vector3.y w) (Vector3.z w)))
          (Matrix4.makeTranslation (Vector3.x d) (Vector3.y d) (Vector3.z d)))
       (Vector3.mk s s s))
    (Matrix4.multiply
       (Matrix4.multiply A
          (Matrix4.makeTranslation (Vector3.x w + Vector3.x d) (Vector3.y w + Vector3.y d)
                                   (Vector3.z w + Vector3.z d)))
       (Matrix4.makeScale s s s)).
Proof.
  rewrite scale_is_multiply. apply Matrix4_multiply_proper; [|reflexivity].
  rewrite multiply_assoc. apply Matrix4_multiply_proper; [reflexivity|].
  apply translations_add.
Qed.

(** The translation column of a matrix times a translation times a scale. *)
Lemma translation_column (A : Matrix4.t) (p : Vector3.t) (s : Q) :
  let M := Matrix4.multiply
             (Matrix4.multiply A
                (Matrix4.makeTranslation (Vector3.x p) (Vector3.y p) (Vector3.z p)))
             (Matrix4.makeScale s s s) in
  Matrix4.n14 M == Matrix4.n11 A * Vector3.x p + Matrix4.n12 A * Vector3.y p
                   + Matrix4.n13 A * Vector3.z p + Matrix4.n14 A
  /\ Matrix4.n24 M == Matrix4.n21 A * Vector3.x p + Matrix4.n22 A * Vector3.y p
                      + Matrix4.n23 A * Vector3.z p + Matrix4.n24 A
  /\ Matrix4.n34 M == Matrix4.n31 A * Vector3.x p + Matrix4.n32 A * Vector3.y p
                      + Matrix4.n33 A * Vector3.z p + Matrix4.n34 A.
Proof.
  intros M. subst M. unfold Matrix4.multiply, Matrix4.makeTranslation, Matrix4.makeScale.
  cbn [Matrix4.n11 Matrix4.n12 Matrix4.n13 Matrix4.n14 Matrix4.n21 Matrix4.n22
       Matrix4.n23 Matrix4.n24 Matrix4.n31 Matrix4.n32 Matrix4.n33 Matrix4.n34
       Matrix4.n41 Matrix4.n42 Matrix4.n43 Matrix4.n44].
  split; [ring|]. split; ring.
Qed.

(** X10: the two translations of the pose add up: the matrix the frame
    leaves is TransformationMatrix * translate(world + displacement) *
    scale(5), and its translation column is the transformation matrix
    applied to the point world + displacement, untouched by the scale. *)
Theorem pose_translations_compose (unproject : Vector3.t -> Vector3.t)
    (o : Pin.PinnedObject) (g : Pin.GLTFScene) (landmarks : Pin.FaceLandmarkerResult)
    (data : list Q) (rest : list (list Q))
    (face : list NormalizedLandmark.t) (faces : list (list NormalizedLandmark.t))
    (l234 l454 l10 l152 vertex center : NormalizedLandmark.t) :
  Pin.gltf o = Some g ->
  Pin.facialTransformationMatrixes landmarks = Some (data :: rest) ->
  Pin.faceLandmarks landmarks = face :: faces ->
  face !! 234%nat = Some l234 ->
  face !! 454%nat = Some l454 ->
  face !! 10%nat = Some l10 ->
  face !! 152%nat = Some l152 ->
  face !! Pin.vertexToPin o = Some vertex ->
  face !! 1%nat = Some center ->
  let world := unproject (Pin.to_ndc vertex) in
  let d := Pin.displacement vertex center l234 l454 l10 l152 in
  let p := Vector3.add world d in
  let TM := Matrix4.fromArray data in
  exists g' : Pin.GLTFScene,
    Pin.gltf (fst (Pin.detectFaceLandmarks unproject o (Some landmarks))) = Some g'
    /\ Matrix4.equiv (Pin.matrix g')
         (Matrix4.multiply
            (Matrix4.multiply TM
               (Matrix4.makeTranslation (Vector3.x p) (Vector3.y p) (Vector3.z p)))
            (Matrix4.makeScale 5 5 5))
    /\ Matrix4.n14 (Pin.matrix g')
       == Matrix4.n11 TM * Vector3.x p + Matrix4.n12 TM * Vector3.y p
          + Matrix4.n13 TM * Vector3.z p + Matrix4.n14 TM
    /\ Matrix4.n24 (Pin.matrix g')
       == Matrix4.n21 TM * Vector3.x p + Matrix4.n22 TM * Vector3.y p
          + Matrix4.n23 TM * Vector3.z p + Matrix4.n24 TM
    /\ Matrix4.n34 (Pin.matrix g')
       == Matrix4.n31 TM * Vector3.x p + Matrix4.n32 TM * Vector3.y p
          + Matrix4.n33 TM * Vector3.z p + Matrix4.n34 TM.
Proof.
  intros Hg Hm Hf H234 H454 H10 H152 Hv Hc world d p TM.
  rewrite (detect_pose unproject o g landmarks data rest face faces l234 l454 l10 l152
             vertex center Hg Hm Hf H234 H454 H10 H152 Hv Hc).
  cbn [fst Pin.gltf]. eexists. split; [reflexivity|]. cbn [Pin.matrix].
  pose proof (pose_translations_merge TM world d 5) as Hmerge.
  split; [exact Hmerge|].
  apply Matrix4_equiv_entries in Hmerge.
  destruct Hmerge as ((_&_&_&E14)&(_&_&_&E24)&(_&_&_&E34)&_).
  destruct (translation_column TM p 5) as (C14 & C24 & C34).
  split; [|split].
  - etrans; [exact E14 | exact C14].
  - etrans; [exact E24 | exact C24].
  - etrans; [exact E34 | exact C34].
Qed.

Lemma pose_translations_compose_witness :
  exists g' : Pin.GLTFScene,
    Pin.gltf (fst (Pin.detectFaceLandmarks (fun v => v) Samples.loaded_object
                     (Some Samples.face_with_matrix))) = Some g'.
Proof.
  destruct (pose_translations_compose (fun v => v) Samples.loaded_object
              Samples.loaded_scene Samples.face_with_matrix Samples.identity_data []
              Samples.face []
              (NormalizedLandmark.mk (234 / 478) (234 / 478) (- (234 / 478)))
              (NormalizedLandmark.mk (454 / 478) (454 / 478) (- (454 / 478)))
              (NormalizedLandmark.mk (10 / 478) (10 / 478) (- (10 / 478)))
              (NormalizedLandmark.mk (152 / 478) (152 / 478) (- (152 / 478)))
              (NormalizedLandmark.mk (10 / 478) (10 / 478) (- (10 / 478)))
              (NormalizedLandmark.mk (1 / 478) (1 / 478) (- (1 / 478)))
              eq_refl eq_refl eq_refl eq_refl eq_refl eq_refl eq_refl eq_refl eq_refl)
    as (g' & Hrun & _).
  exists g'. exact Hrun.
Defined.

(** X11: pinning the landmark the displacement is measured from (index 1,
    the tip of the nose) makes the displacement vanish: the pose is
    TransformationMatrix * translate(world) * scale(5). *)
Theorem pin_on_centre (unproject : Vector3.t -> Vector3.t)
    (o : Pin.PinnedObject) (g : Pin.GLTFScene) (landmarks : Pin.FaceLandmarkerResult)
    (data : list Q) (rest : list (list Q))
    (face : list NormalizedLandmark.t) (faces : list (list NormalizedLandmark.t))
    (l234 l454 l10 l152 center : NormalizedLandmark.t) :
  Pin.vertexToPin o = 1%nat ->
  Pin.gltf o = Some g ->
  Pin.facialTransformationMatrixes landmarks = Some (data :: rest) ->
  Pin.faceLandmarks landmarks = face :: faces ->
  face !! 234%nat = Some l234 ->
  face !! 454%nat = Some l454 ->
  face !! 10%nat = Some l10 ->
  face !! 152%nat = Some l152 ->
  face !! 1%nat = Some center ->
  let world := unproject (Pin.to_ndc center) in
  Vector3.equiv (Pin.displacement center center l234 l454 l10 l152) (Vector3.mk 0 0 0)
  /\ exists g' : Pin.GLTFScene,
       Pin.gltf (fst (Pin.detectFaceLandmarks unproject o (Some landmarks))) = Some g'
       /\ Matrix4.equiv (Pin.matrix g')
            (Matrix4.multiply
               (Matrix4.multiply (Matrix4.fromArray data)
                  (Matrix4.makeTranslation (Vector3.x world) (Vector3.y world)
                                           (Vector3.z world)))
               (Matrix4.makeScale 5 5 5)).
Proof.
  intros Hpin Hg Hm Hf H234 H454 H10 H152 Hc world.
  split; [unfold Pin.displacement; repeat split; simpl; ring|].
  assert (Hv : face !! Pin.vertexToPin o = Some center) by by rewrite Hpin.
  rewrite (detect_pose unproject o g landmarks data rest face faces l234 l454 l10 l152
             center center Hg Hm Hf H234 H454 H10 H152 Hv Hc).
  cbn [fst Pin.gltf]. eexists. split; [reflexivity|]. cbn [Pin.matrix].
  subst world. rewrite pose_translations_merge.
  apply Matrix4_multiply_proper; [|reflexivity].
  apply Matrix4_multiply_proper; [reflexivity|].
  apply makeTranslation_proper;
    unfold Pin.displacement, Vector3.multiplyScalar, Vector3.multiply;
    cbn [Vector3.x Vector3.y Vector3.z]; ring.
Qed.

Lemma pin_on_centre_witness :
  exists g' : Pin.GLTFScene,
    Pin.gltf (fst (Pin.detectFaceLandmarks (fun v => v)
                     (Pin.mkObject (Some Samples.loaded_scene) 1)
                     (Some Samples.face_with_matrix))) = Some g'.
Proof.
  destruct (pin_on_centre (fun v => v) (Pin.mkObject (Some Samples.loaded_scene) 1)
              Samples.loaded_scene Samples.face_with_matrix Samples.identity_data []
              Samples.face []
              (NormalizedLandmark.mk (234 / 478) (234 / 478) (- (234 / 478)))
              (NormalizedLandmark.mk (454 / 478) (454 / 478) (- (454 / 478)))
              (NormalizedLandmark.mk (10 / 478) (10 / 478) (- (10 / 478)))
              (NormalizedLandmark.mk (152 / 478) (152 / 478) (- (152 / 478)))
              (NormalizedLandmark.mk (1 / 478) (1 / 478) (- (1 / 478)))
              eq_refl eq_refl eq_refl eq_refl eq_refl eq_refl eq_refl eq_refl eq_refl)
    as (_ & g' & Hrun & _).
  exists g'. exact Hrun.
Defined.

(** X12: the displacement depends on differences of landmarks only, so
    moving the whole face in the image leaves it as it is; and it flips the
    y axis: a pin below the centre in the image (larger y) is displaced
    downwards in the scene (y <= 0), a pin above it upwards, while a pin to
    the right of the centre is displaced to the right. *)
Theorem displacement_of_differences (s : Vector3.t)
    (vertex center l234 l454 l10 l152 : NormalizedLandmark.t) :
  let d := Pin.displacement vertex center l234 l454 l10 l152 in
  Vector3.equiv
    (Pin.displacement (Shift.landmark s vertex) (Shift.landmark s center)
       (Shift.landmark s l234) (Shift.landmark s l454)
       (Shift.landmark s l10) (Shift.landmark s l152))
    d
  /\ (NormalizedLandmark.y center <= NormalizedLandmark.y vertex -> Vector3.y d <= 0)
  /\ (NormalizedLandmark.y vertex <= NormalizedLandmark.y center -> 0 <= Vector3.y d)
  /\ (NormalizedLandmark.x center <= NormalizedLandmark.x vertex -> 0 <= Vector3.x d).
Proof.
  intros d. subst d.
  unfold Pin.displacement, Shift.landmark, Vector3.multiplyScalar, Vector3.multiply.
  cbn [NormalizedLandmark.x NormalizedLandmark.y NormalizedLandmark.z
       Vector3.x Vector3.y Vector3.z].
  split.
  - assert (Ex : NormalizedLandmark.x l234 + Vector3.x s
                 - (NormalizedLandmark.x l454 + Vector3.x s)
                 == NormalizedLandmark.x l234 - NormalizedLandmark.x l454) by ring.
    assert (Ey : NormalizedLandmark.y l10 + Vector3.y s
                 - (NormalizedLandmark.y l152 + Vector3.y s)
                 == NormalizedLandmark.y l10 - NormalizedLandmark.y l152) by ring.
    assert (Ez : NormalizedLandmark.z l10 + Vector3.z s
                 - (NormalizedLandmark.z l152 + Vector3.z s)
                 == NormalizedLandmark.z l10 - NormalizedLandmark.z l152) by ring.
    repeat split; cbn [Vector3.x Vector3.y Vector3.z]; rewrite ?Ex, ?Ey, ?Ez; ring.
  - pose proof (Qabs_nonneg (NormalizedLandmark.y l10 - NormalizedLandmark.y l152)) as Hh.
    pose proof (Qabs_nonneg (NormalizedLandmark.x l234 - NormalizedLandmark.x l454)) as Hw.
    set (h := Qabs (NormalizedLandmark.y l10 - NormalizedLandmark.y l152)) in *.
    set (w := Qabs (NormalizedLandmark.x l234 - NormalizedLandmark.x l454)) in *.
    repeat split; intros H; nra.
Qed.

Lemma displacement_of_differences_witness :
  Vector3.y (Pin.displacement (NormalizedLandmark.mk (1 # 2) (3 # 4) 0)
               (NormalizedLandmark.mk (1 # 2) (1 # 2) 0)
               (NormalizedLandmark.mk (1 # 4) (1 # 2) 0)
               (NormalizedLandmark.mk (3 # 4) (1 # 2) 0)
               (NormalizedLandmark.mk (1 # 2) (1 # 4) 0)
               (NormalizedLandmark.mk (1 # 2) (3 # 4) 0)) <= 0.
Proof.
  apply (displacement_of_differences (Vector3.mk 0 0 0)).
  discriminate.
Defined.

(** X13: the device coordinates of a landmark inside the image lie in
    [-1, 1] on both axes, the image centre goes to the origin, x keeps its
    direction and y is reversed. *)
Theorem ndc_range (l l' : NormalizedLandmark.t) :
  (0 <= NormalizedLandmark.x l <= 1 ->
     - (1) <= Vector3.x (Pin.to_ndc l) <= 1)
  /\ (0 <= NormalizedLandmark.y l <= 1 ->
     - (1) <= Vector3.y (Pin.to_ndc l) <= 1)
  /\ (NormalizedLandmark.x l == 1 # 2 -> Vector3.x (Pin.to_ndc l) == 0)
  /\ (NormalizedLandmark.y l == 1 # 2 -> Vector3.y (Pin.to_ndc l) == 0)
  /\ (NormalizedLandmark.x l <= NormalizedLandmark.x l' ->
     Vector3.x (Pin.to_ndc l) <= Vector3.x (Pin.to_ndc l'))
  /\ (NormalizedLandmark.y l <= NormalizedLandmark.y l' ->
     Vector3.y (Pin.to_ndc l') <= Vector3.y (Pin.to_ndc l)).
Proof.
  unfold Pin.to_ndc. cbn [Vector3.x Vector3.y].
  repeat split; try lra; destruct H; lra.
Qed.

Lemma ndc_range_witness :
  - (1) <= Vector3.x (Pin.to_ndc (NormalizedLandmark.mk (1 # 4) (1 # 4) 0)) <= 1.
Proof.
  apply (ndc_range (NormalizedLandmark.mk (1 # 4) (1 # 4) 0)
           (NormalizedLandmark.mk (1 # 4) (1 # 4) 0)).
  split; discriminate.
Defined.

(** X14: a frame changes nothing of an object whose model is not loaded
    yet, whatever the detector returns and whether or not the frame throws;
    and while the landmarker is unset a frame changes nothing and does not
    throw. *)
Theorem unloaded_object_untouched (unproject : Vector3.t -> Vector3.t)
    (o : Pin.PinnedObject) (detection : option Pin.FaceLandmarkerResult) :
  (Pin.gltf o = None -> fst (Pin.detectFaceLandmarks unproject o detection) = o)
  /\ Pin.detectFaceLandmarks unproject o None = (o, Normal tt).
Proof.
  split; [|done]. destruct o as [g v]. cbn [Pin.gltf]. intros ->.
  unfold Pin.detectFaceLandmarks, Pin.applyMatrix.
  destruct detection as [landmarks|]; [|done].
  cbn [Pin.gltf Pin.vertexToPin fmap option_fmap option_map].
  destruct (Pin.facialTransformationMatrixes landmarks) as [[|data rest]|]; try done.
  by destruct (Pin.retarget _ _ _ _).
Qed.

Lemma unloaded_object_untouched_witness :
  fst (Pin.detectFaceLandmarks (fun v => v) (Pin.mkObject None 10)
         (Some Samples.face_with_matrix)) = Pin.mkObject None 10.
Proof.
  apply (unloaded_object_untouched (fun v => v) (Pin.mkObject None 10)
           (Some Samples.face_with_matrix)).
  reflexivity.
Defined.

(** X15: a result that carries a transformation matrix but no face makes
    the frame throw a [TypeError]; by then the object has been hidden, and
    its pose is as before. *)
Theorem matrix_without_face_throws (unproject : Vector3.t -> Vector3.t)
    (o : Pin.PinnedObject) (landmarks : Pin.FaceLandmarkerResult)
    (data : list Q) (rest : list (list Q)) :
  Pin.faceLandmarks landmarks = [] ->
  Pin.facialTransformationMatrixes landmarks = Some (data :: rest) ->
  Pin.detectFaceLandmarks unproject o (Some landmarks)
  = (Pin.mkObject (Pin.set_visible false <$> Pin.gltf o) (Pin.vertexToPin o),
     Throw TypeError)
  /\ forall g : Pin.GLTFScene, Pin.gltf o = Some g ->
       Pin.matrix (Pin.set_visible false g) = Pin.matrix g
       /\ Pin.matrixAutoUpdate (Pin.set_visible false g) = Pin.matrixAutoUpdate g
       /\ Pin.none_visible (Pin.set_visible false g) = true.
Proof.
  intros Hf Hm. split.
  - unfold Pin.detectFaceLandmarks, Pin.retarget. by rewrite Hm, Hf.
  - intros g _. destruct (set_visible_flags false g) as [_ Hn]. by rewrite Hn.
Qed.

Lemma matrix_without_face_throws_witness :
  Pin.detectFaceLandmarks (fun v => v) Samples.loaded_object
    (Some (Pin.mkResult [] (Some [Samples.identity_data])))
  = (Pin.mkObject (Pin.set_visible false <$> Pin.gltf Samples.loaded_object)
       (Pin.vertexToPin Samples.loaded_object),
     Throw TypeError).
Proof.
  apply (matrix_without_face_throws (fun v => v) Samples.loaded_object
           (Pin.mkResult [] (Some [Samples.identity_data])) Samples.identity_data []).
  - reflexivity.
  - reflexivity.
Defined.

(** ** The page of [src/pin/pin.ts] *)

(** X16: while the model of [pin.ts] is still loading, a frame gets
    through only if it has no pose to apply (no landmark list, or an empty
    list of matrices); any other frame throws a [TypeError].  Once the model
    is there, a frame with a matrix and a first face of ten or more landmarks
    puts the model on landmark 9 exactly as the detector gave it. *)
Theorem pin_page_frame (model : option PinPage.Object3D)
    (results : PinPage.FaceLandmarkerResult) :
  (model = None ->
     (PinPage.faceLandmarks results = None
      \/ PinPage.facialTransformationMatrixes results = Some [] ->
        PinPage.predictWebcam model results = Normal None)
     /\ (~ (PinPage.faceLandmarks results = None
            \/ PinPage.facialTransformationMatrixes results = Some []) ->
        PinPage.predictWebcam model results = Throw TypeError))
  /\ (forall (mo : PinPage.Object3D) (face : list NormalizedLandmark.t)
             (faces : list (list NormalizedLandmark.t)) (m : list Q)
             (ms : list (list Q)),
        model = Some mo ->
        PinPage.faceLandmarks results = Some (face :: faces) ->
        PinPage.facialTransformationMatrixes results = Some (m :: ms) ->
        (10 <= length face)%nat ->
        exists l : NormalizedLandmark.t,
          face !! 9%nat = Some l
          /\ PinPage.predictWebcam model results
             = Normal (Some (PinPage.mkObject3D
                               (Vector3.mk (NormalizedLandmark.x l) (NormalizedLandmark.y l)
                                           (NormalizedLandmark.z l))
                               (Matrix4.fromArray m)))).
Proof.
  split.
  - intros ->. unfold PinPage.predictWebcam.
    destruct (PinPage.faceLandmarks results) as [faces|]; [|split; [done|tauto]].
    destruct (PinPage.facialTransformationMatrixes results) as [[|m ms]|];
      cbn [get mbind completion_bind length Nat.ltb Nat.leb lookup list_lookup].
    + split; [done|]. intros H. destruct H. by right.
    + split; [by intros [|]|]. intros _.
      by destruct (faces !! 0%nat).
    + split; [by intros [|]|done].
  - intros mo face faces m ms -> Hf Hm Hlen.
    destruct (lookup_lt_is_Some_2 face 9 ltac:(lia)) as [l Hl].
    exists l. split; [done|].
    unfold PinPage.predictWebcam, PinPage.ANCHOR_POINT_ID. rewrite Hf, Hm.
    cbn [get mbind completion_bind length Nat.ltb Nat.leb lookup list_lookup].
    by rewrite Hl.
Qed.

Lemma pin_page_frame_witness :
  PinPage.predictWebcam None (PinPage.mkResult (Some [Samples.face]) (Some [Samples.identity_data]))
  = Throw TypeError.
Proof.
  apply (pin_page_frame None
           (PinPage.mkResult (Some [Samples.face]) (Some [Samples.identity_data]))).
  - reflexivity.
  - intros [H|H]; discriminate H.
Defined.

(** ** The bounding box of a hand *)

Lemma extent_fold_bounds (hand : list NormalizedLandmark.t) :
  forall a0 b0 c0 d0 : Q,
    let '(a, b, c, d) :=
      fold_left
        (fun '(minX, maxX, minY, maxY) l =>
           let lx := NormalizedLandmark.x l in
           let ly := NormalizedLandmark.y l in
           (if Qltb lx minX then lx else minX,
            if Qltb maxX lx then lx else maxX,
            if Qltb ly minY then ly else minY,
            if Qltb maxY ly then ly else maxY))
        hand (a0, b0, c0, d0) in
    (a <= a0 /\ b0 <= b /\ c <= c0 /\ d0 <= d)
    /\ (forall l, l ∈ hand ->
          a <= NormalizedLandmark.x l <= b /\ c <= NormalizedLandmark.y l <= d)
    /\ (a = a0 \/ exists l, l ∈ hand /\ a = NormalizedLandmark.x l)
    /\ (b = b0 \/ exists l, l ∈ hand /\ b = NormalizedLandmark.x l)
    /\ (c = c0 \/ exists l, l ∈ hand /\ c = NormalizedLandmark.y l)
    /\ (d = d0 \/ exists l, l ∈ hand /\ d = NormalizedLandmark.y l).
Proof.
  induction hand as [|l ls IH]; intros a0 b0 c0 d0.
  - simpl. split; [repeat split; apply Qle_refl|].
    split; [intros l Hl; by apply elem_of_nil in Hl|]. by repeat split; left.
  - cbn [fold_left].
    set (a1 := if Qltb (NormalizedLandmark.x l) a0 then NormalizedLandmark.x l else a0).
    set (b1 := if Qltb b0 (NormalizedLandmark.x l) then NormalizedLandmark.x l else b0).
    set (c1 := if Qltb (NormalizedLandmark.y l) c0 then NormalizedLandmark.y l else c0).
    set (d1 := if Qltb d0 (NormalizedLandmark.y l) then NormalizedLandmark.y l else d0).
    assert (Ha : a1 <= a0 /\ a1 <= NormalizedLandmark.x l
                 /\ (a1 = a0 \/ a1 = NormalizedLandmark.x l)).
    { subst a1. unfold Qltb.
      destruct (Qle_bool a0 (NormalizedLandmark.x l)) eqn:E; cbn [negb].
      - apply Qle_bool_iff in E. repeat split; [apply Qle_refl | done | by left].
      - apply not_true_iff_false in E. rewrite Qle_bool_iff in E.
        apply Qnot_le_lt, Qlt_le_weak in E.
        repeat split; [done | apply Qle_refl | by right]. }
    assert (Hb : b0 <= b1 /\ NormalizedLandmark.x l <= b1
                 /\ (b1 = b0 \/ b1 = NormalizedLandmark.x l)).
    { subst b1. unfold Qltb.
      destruct (Qle_bool (NormalizedLandmark.x l) b0) eqn:E; cbn [negb].
      - apply Qle_bool_iff in E. repeat split; [apply Qle_refl | done | by left].
      - apply not_true_iff_false in E. rewrite Qle_bool_iff in E.
        apply Qnot_le_lt, Qlt_le_weak in E.
        repeat split; [done | apply Qle_refl | by right]. }
    assert (Hc : c1 <= c0 /\ c1 <= NormalizedLandmark.y l
                 /\ (c1 = c0 \/ c1 = NormalizedLandmark.y l)).
    { subst c1. unfold Qltb.
      destruct (Qle_bool c0 (NormalizedLandmark.y l)) eqn:E; cbn [negb].
      - apply Qle_bool_iff in E. repeat split; [apply Qle_refl | done | by left].
      - apply not_true_iff_false in E. rewrite Qle_bool_iff in E.
        apply Qnot_le_lt, Qlt_le_weak in E.
        repeat split; [done | apply Qle_refl | by right]. }
    assert (Hd : d0 <= d1 /\ NormalizedLandmark.y l <= d1
                 /\ (d1 = d0 \/ d1 = NormalizedLandmark.y l)).
    { subst d1. unfold Qltb.
      destruct (Qle_bool (NormalizedLandmark.y l) d0) eqn:E; cbn [negb].
      - apply Qle_bool_iff in E. repeat split; [apply Qle_refl | done | by left].
      - apply not_true_iff_false in E. rewrite Qle_bool_iff in E.
        apply Qnot_le_lt, Qlt_le_weak in E.
        repeat split; [done | apply Qle_refl | by right]. }
    clearbody a1 b1 c1 d1. specialize (IH a1 b1 c1 d1).
    destruct (fold_left _ ls (a1, b1, c1, d1)) as [[[a b] c] d].
    destruct IH as ((Ia & Ib & Ic & Id) & Hin & Ta & Tb & Tc & Td).
    destruct Ha as (Ha1 & Ha2 & Ha3), Hb as (Hb1 & Hb2 & Hb3),
             Hc as (Hc1 & Hc2 & Hc3), Hd as (Hd1 & Hd2 & Hd3).
    split; [repeat split; lra|]. split.
    + intros l' [->|Hl']%elem_of_cons; [repeat split; lra | by apply Hin].
    + assert (Hex : forall (q q0 q1 : Q) (f : NormalizedLandmark.t -> Q),
                (q = q1 \/ exists l', l' ∈ ls /\ q = f l') ->
                (q1 = q0 \/ q1 = f l) ->
                q = q0 \/ exists l', l' ∈ l :: ls /\ q = f l').
      { intros q q0 q1 f [->|(l' & Hl' & ->)] Hq.
        - destruct Hq as [->| ->]; [by left|]. right. exists l. split; [|done].
          apply elem_of_cons. by left.
        - right. exists l'. split; [|done]. apply elem_of_cons. by right. }
      repeat split; eapply Hex; eauto.
Qed.

(** X18: the box of a hand is built from the hand's extreme landmarks.
    For a hand with at least one landmark, all inside the image, there are
    landmarks of the hand with the least x, the greatest x, the least y and
    the greatest y, and the box has its origin at (least x * w, least y * h),
    the width (greatest x - least x) * w and the height
    (greatest y - least y) * h. *)
Theorem bounding_box_from_extremes (w h : Q) (hand : list NormalizedLandmark.t) :
  hand <> [] ->
  (forall l, l ∈ hand ->
     0 <= NormalizedLandmark.x l <= 1 /\ 0 <= NormalizedLandmark.y l <= 1) ->
  let box := Hands.boundingBox w h hand in
  exists lminX lmaxX lminY lmaxY : NormalizedLandmark.t,
    (lminX ∈ hand /\ lmaxX ∈ hand /\ lminY ∈ hand /\ lmaxY ∈ hand)
    /\ (forall l, l ∈ hand ->
          NormalizedLandmark.x lminX <= NormalizedLandmark.x l <= NormalizedLandmark.x lmaxX
          /\ NormalizedLandmark.y lminY <= NormalizedLandmark.y l
             <= NormalizedLandmark.y lmaxY)
    /\ BoundingBox.originX box == NormalizedLandmark.x lminX * w
    /\ BoundingBox.originY box == NormalizedLandmark.y lminY * h
    /\ BoundingBox.width box
       == (NormalizedLandmark.x lmaxX - NormalizedLandmark.x lminX) * w
    /\ BoundingBox.height box
       == (NormalizedLandmark.y lmaxY - NormalizedLandmark.y lminY) * h.
Proof.
  intros Hne Hunit box. subst box. unfold Hands.boundingBox, Hands.extent.
  pose proof (extent_fold_bounds hand 1 0 1 0) as H.
  destruct (fold_left _ hand _) as [[[a b] c] d].
  destruct H as (_ & Hin & Ta & Tb & Tc & Td).
  destruct hand as [|l0 ls]; [done|].
  assert (H0 : l0 ∈ l0 :: ls) by (apply elem_of_cons; by left).
  destruct (Hin l0 H0) as [[Hx1 Hx2] [Hy1 Hy2]].
  destruct (Hunit l0 H0) as [[Ux1 Ux2] [Uy1 Uy2]].
  cbn [BoundingBox.originX BoundingBox.originY BoundingBox.width BoundingBox.height].
  assert (Ea : exists l, l ∈ l0 :: ls /\ a == NormalizedLandmark.x l).
  { destruct Ta as [->|(l & Hl & ->)]; [|by exists l].
    exists l0. split; [done|]. lra. }
  assert (Eb : exists l, l ∈ l0 :: ls /\ b == NormalizedLandmark.x l).
  { destruct Tb as [->|(l & Hl & ->)]; [|by exists l].
    exists l0. split; [done|]. lra. }
  assert (Ec : exists l, l ∈ l0 :: ls /\ c == NormalizedLandmark.y l).
  { destruct Tc as [->|(l & Hl & ->)]; [|by exists l].
    exists l0. split; [done|]. lra. }
  assert (Ed : exists l, l ∈ l0 :: ls /\ d == NormalizedLandmark.y l).
  { destruct Td as [->|(l & Hl & ->)]; [|by exists l].
    exists l0. split; [done|]. lra. }
  destruct Ea as (la & Hla & Ea), Eb as (lb & Hlb & Eb),
           Ec as (lc & Hlc & Ec), Ed as (ld & Hld & Ed).
  exists la, lb, lc, ld. split; [done|]. split.
  - intros l Hl. destruct (Hin l Hl) as [[Lx1 Lx2] [Ly1 Ly2]].
    rewrite <- Ea, <- Eb, <- Ec, <- Ed. done.
  - rewrite Ea, Eb, Ec, Ed. done.
Qed.

Lemma bounding_box_from_extremes_witness :
  exists lminX lmaxX lminY lmaxY : NormalizedLandmark.t,
    (lminX ∈ Samples.hand /\ lmaxX ∈ Samples.hand
     /\ lminY ∈ Samples.hand /\ lmaxY ∈ Samples.hand)
    /\ (forall l, l ∈ Samples.hand ->
          NormalizedLandmark.x lminX <= NormalizedLandmark.x l <= NormalizedLandmark.x lmaxX
          /\ NormalizedLandmark.y lminY <= NormalizedLandmark.y l
             <= NormalizedLandmark.y lmaxY)
    /\ BoundingBox.originX (Hands.boundingBox 640 480 Samples.hand)
       == NormalizedLandmark.x lminX * 640
    /\ BoundingBox.originY (Hands.boundingBox 640 480 Samples.hand)
       == NormalizedLandmark.y lminY * 480
    /\ BoundingBox.width (Hands.boundingBox 640 480 Samples.hand)
       == (NormalizedLandmark.x lmaxX - NormalizedLandmark.x lminX) * 640
    /\ BoundingBox.height (Hands.boundingBox 640 480 Samples.hand)
       == (NormalizedLandmark.y lmaxY - NormalizedLandmark.y lminY) * 480.
Proof.
  apply (bounding_box_from_extremes 640 480 Samples.hand).
  - discriminate.
  - intros l Hl. apply elem_of_cons in Hl. destruct Hl as [->|Hl].
    + repeat split; discriminate.
    + apply elem_of_cons in Hl. destruct Hl as [->|Hl].
      * repeat split; discriminate.
      * by apply elem_of_nil in Hl.
Defined.

(** X19: a hand without landmarks gets a box of negative size, which no
    target can hit on a canvas of positive width or height. *)
Theorem empty_hand_never_hit (w h : Q) (t : Target.t) :
  let box := Hands.boundingBox w h [] in
  BoundingBox.width box == - w
  /\ BoundingBox.height box == - h
  /\ (0 < w \/ 0 < h -> Target.inside t box = false).
Proof.
  cbn [Hands.boundingBox Hands.extent fold_left BoundingBox.width BoundingBox.height].
  split; [ring|]. split; [ring|]. intros Hpos.
  apply not_true_iff_false. unfold Target.inside.
  cbn [BoundingBox.originX BoundingBox.originY BoundingBox.width BoundingBox.height].
  rewrite !andb_true_iff, !Qle_bool_iff. intros [[[H1 H2] H3] H4].
  destruct Hpos; lra.
Qed.

Lemma empty_hand_never_hit_witness :
  Target.inside (Target.mk 0 0 5) (Hands.boundingBox 640 480 []) = false.
Proof.
  apply (empty_hand_never_hit 640 480 (Target.mk 0 0 5)).
  left. reflexivity.
Defined.

(** ** The books of the game *)

Lemma for_range_preserves {St : Type} (P : St -> Prop)
    (body : nat -> St -> completion St) (n : nat) :
  (forall j t t', P t -> body j t = Normal t' -> P t') ->
  forall (start : nat) (s s' : St),
    P s -> for_range start n body s = Normal s' -> P s'.
Proof.
  intros Hbody. induction n as [|n IH]; intros start s s' Hs Hrun.
  - simpl in Hrun. by injection Hrun as <-.
  - simpl in Hrun. destruct (body start s) as [t|e] eqn:Hb; [|done].
    simpl in Hrun. eapply IH; [|exact Hrun]. by eapply Hbody.
Qed.

Lemma hits_app (l1 l2 : list Hands.Event) :
  GameLife.hits (l1 ++ l2) = (GameLife.hits l1 + GameLife.hits l2)%nat.
Proof. unfold GameLife.hits. by rewrite List.filter_app, length_app. Qed.

Lemma announced_app (l1 l2 : list Hands.Event) :
  GameLife.announced (l1 ++ l2) = GameLife.announced l1 ++ GameLife.announced l2.
Proof. unfold GameLife.announced. by rewrite flat_map_app. Qed.

Lemma generateNewTarget_accounted (Math_random : nat -> Q) (Target_draws : nat -> nat)
    (d0 : nat) (g : Hands.Game) :
  GameLife.accounted d0 g ->
  GameLife.accounted (d0 + 2) (Hands.generateNewTarget Math_random Target_draws g).
Proof.
  intros (Hs & Ha & Hd). unfold GameLife.accounted, Hands.generateNewTarget.
  cbn [Hands.score Hands.log Hands.draws]. split; [done|]. split; [done|]. lia.
Qed.

Lemma hit_accounted (Math_random : nat -> Q) (Target_draws : nat -> nat) (d0 i : nat)
    (box : BoundingBox.t) (g : Hands.Game) :
  GameLife.accounted d0 g ->
  GameLife.accounted d0 (Hands.hit Math_random Target_draws i box g)
  /\ (Hands.score g <= Hands.score (Hands.hit Math_random Target_draws i box g))%Z.
Proof.
  intros (Hs & Ha & Hd).
  unfold GameLife.accounted, Hands.hit, Hands.onHit, Hands.generateNewTarget,
    Hands.addScore.
  destruct (Target.inside (Hands.target g) box);
    cbn [Hands.score Hands.log Hands.draws];
    rewrite ?hits_app, ?announced_app, Ha;
    cbn [GameLife.hits GameLife.announced List.filter flat_map length app].
  - rewrite Nat.add_0_r, Hs.
    replace (GameLife.hits (Hands.log g) + 1)%nat with (S (GameLife.hits (Hands.log g)))
      by lia.
    rewrite seq_S, map_app. cbn [map Nat.add].
    repeat split; try lia. rewrite app_nil_r. do 2 f_equal. lia.
  - rewrite !Nat.add_0_r, !app_nil_r. repeat split; try done; lia.
Qed.

Lemma gesture_body_accounted (Math_random : nat -> Q) (Target_draws : nat -> nat)
    (d0 : nat) (s0 : Z)
    (results : Hands.GestureRecognizerResult) (boundingBoxes : list BoundingBox.t)
    (j : nat) (t t' : Hands.Game) :
  GameLife.accounted d0 t /\ (s0 <= Hands.score t)%Z ->
  Hands.gesture_body Math_random Target_draws results boundingBoxes j t = Normal t' ->
  GameLife.accounted d0 t' /\ (s0 <= Hands.score t')%Z.
Proof.
  intros [Hacc Hle]. unfold Hands.gesture_body, Hands.generateHTML.
  destruct (Hands.gestures results !! j) as [result|]; [|done].
  cbn [get mbind completion_bind].
  destruct (result !! 0%nat) as [top|]; [|done].
  cbn [get mbind completion_bind].
  destruct (Hands.handedness results !! j) as [hand|]; [|done].
  cbn [get mbind completion_bind].
  destruct (hand !! 0%nat) as [side|]; [|done].
  cbn [get mbind completion_bind].
  destruct (_ && _).
  - destruct (boundingBoxes !! j) as [box|]; [|done].
    cbn [get mbind completion_bind]. intros [= <-].
    destruct (hit_accounted Math_random Target_draws d0 j box t Hacc) as [H1 H2].
    split; [exact H1|]. cbn [Hands.set_lastHandState Hands.score]. lia.
  - cbn [mbind completion_bind]. intros [= <-]. by split.
Qed.

(** X20: the books of the game balance.  A new game starts balanced,
    having called [Math.random] twice at least for its first target; so
    does a game whose model has just been loaded; and every run of frames
    that does not throw keeps the balance: the score is the number of
    successful hit tests, the totals announced by "scoreChanged" are
    1, 2, ..., score in that order, every hit is followed by two calls of
    [Math.random] at least, and the score never goes down. *)
Theorem game_books_balance (Math_random : nat -> Q) (Target_draws : nat -> nat) (w h : Q) :
  (forall (calls : nat) (cw ch : Q),
     GameLife.accounted (calls + 2)
       (GameLife.newGame Math_random Target_draws calls cw ch))
  /\ (forall (d0 loader_draws : nat) (g : Hands.Game),
        GameLife.accounted d0 g ->
        GameLife.accounted (d0 + loader_draws + 2)
          (GameLife.loadModel Math_random Target_draws loader_draws g))
  /\ (forall (d0 : nat) (frames : list Hands.GestureRecognizerResult)
             (g g' : Hands.Game),
        GameLife.accounted d0 g ->
        Hands.run Math_random Target_draws w h frames g = Normal g' ->
        GameLife.accounted d0 g' /\ (Hands.score g <= Hands.score g')%Z).
Proof.
  split; [|split].
  - intros calls cw ch. apply generateNewTarget_accounted.
    unfold GameLife.accounted. cbn [Hands.score Hands.log Hands.draws].
    split; [done|]. split; [done|]. cbn [GameLife.hits List.filter length]. lia.
  - intros d0 loader_draws g (Hs & Ha & Hd). apply generateNewTarget_accounted.
    unfold GameLife.accounted. cbn [Hands.score Hands.log Hands.draws].
    split; [done|]. split; [done|]. lia.
  - intros d0 frames. induction frames as [|f frames IH]; intros g g' Hacc Hrun.
    + simpl in Hrun. injection Hrun as <-. split; [done | lia].
    + simpl in Hrun.
      destruct (Hands.predictWebcam Math_random Target_draws w h f g) as [g1|e] eqn:Hf;
        [|done].
      simpl in Hrun.
      assert (H1 : GameLife.accounted d0 g1 /\ (Hands.score g <= Hands.score g1)%Z).
      { unfold Hands.predictWebcam in Hf.
        eapply (for_range_preserves
                  (fun t => GameLife.accounted d0 t /\ (Hands.score g <= Hands.score t)%Z));
          [|split; [exact Hacc | lia] | exact Hf].
        intros j t t'. apply gesture_body_accounted. }
      destruct H1 as [Hacc1 Hle1].
      destruct (IH g1 g' Hacc1 Hrun) as [Hacc' Hle']. split; [done | lia].
Qed.

Lemma game_books_balance_witness :
  exists g' : Hands.Game,
    Hands.run Samples.half Samples.sphere_draws 640 480
      [Hands.one_hand Samples.hand Samples.right "Closed_Fist";
       Hands.one_hand Samples.hand Samples.right "None"]
      (GameLife.newGame Samples.half Samples.sphere_draws 0 640 480) = Normal g'
    /\ GameLife.accounted (0 + 2) g'.
Proof.
  eexists. split; [vm_compute; reflexivity|].
  eapply (proj2 (proj2 (game_books_balance Samples.half Samples.sphere_draws 640 480))
            (0 + 2)%nat
            [Hands.one_hand Samples.hand Samples.right "Closed_Fist";
             Hands.one_hand Samples.hand Samples.right "None"]
            (GameLife.newGame Samples.half Samples.sphere_draws 0 640 480)).
  - apply (proj1 (game_books_balance Samples.half Samples.sphere_draws 640 480)).
  - vm_compute. reflexivity.
Defined.

(** ** Frames with several hands *)

(** X21: a frame in which every hand comes with a landmark list, at least
    one gesture category and at least one handedness category does not
    throw; it stores the top label of every hand under the hand's index and
    leaves the labels of all other indices alone. *)
Theorem frame_updates_every_hand (Math_random : nat -> Q) (Target_draws : nat -> nat)
    (w h : Q) (results : Hands.GestureRecognizerResult)
    (hands : list (list NormalizedLandmark.t)) (g : Hands.Game) :
  Hands.landmarks results = Some hands ->
  (length (Hands.gestures results) <= length hands)%nat ->
  (length (Hands.gestures results) <= length (Hands.handedness results))%nat ->
  Forall (fun result => result <> []) (Hands.gestures results) ->
  Forall (fun hand => hand <> []) (Hands.handedness results) ->
  exists g' : Hands.Game,
    Hands.predictWebcam Math_random Target_draws w h results g = Normal g'
    /\ (forall i : nat, (i < length (Hands.gestures results))%nat ->
          Hands.lastHandStates g' !! i
          = Hands.gestures results !! i ≫= GameLife.top_label)
    /\ (forall i : nat, (length (Hands.gestures results) <= i)%nat ->
          Hands.lastHandStates g' !! i = Hands.lastHandStates g !! i).
Proof.
  intros Hl Hlen Hlenh Hne Hneh. unfold Hands.predictWebcam. rewrite Hl.
  set (boxes := map (Hands.boundingBox w h) hands).
  destruct (for_range_inv
              (fun j t =>
                 (forall i, (i < j)%nat ->
                    Hands.lastHandStates t !! i
                    = Hands.gestures results !! i ≫= GameLife.top_label)
                 /\ (forall i, (j <= i)%nat ->
                       Hands.lastHandStates t !! i = Hands.lastHandStates g !! i))
              (Hands.gesture_body Math_random Target_draws results boxes)
              (length (Hands.gestures results)) 0 g) as (g' & Hrun & Hlt & Hge).
  - split; [intros; lia | done].
  - intros j t Hj [Hlow Hhigh].
    destruct (lookup_lt_is_Some_2 (Hands.gestures results) j ltac:(lia)) as [result Hr].
    assert (Hres : result <> []).
    { rewrite Forall_lookup in Hne. by apply (Hne j). }
    destruct result as [|top others]; [done|].
    destruct (lookup_lt_is_Some_2 (Hands.handedness results) j ltac:(lia)) as [hand Hh].
    assert (Hhand : hand <> []).
    { rewrite Forall_lookup in Hneh. by apply (Hneh j). }
    destruct hand as [|side sides]; [done|].
    destruct (lookup_lt_is_Some_2 boxes j) as [box Hb].
    { subst boxes. rewrite length_map. lia. }
    destruct (gesture_body_spec Math_random Target_draws results boxes j t top others
                side sides box Hr Hh Hb) as (t' & Ht' & Hst & _).
    exists t'. split; [done|]. rewrite Hst. split.
    + intros i Hi. destruct (decide (i = j)) as [->|Hij].
      * rewrite lookup_insert_eq, Hr. done.
      * rewrite lookup_insert_ne by done. apply Hlow. lia.
    + intros i Hi. rewrite lookup_insert_ne by lia. apply Hhigh. lia.
  - exists g'. split; [done|]. split; [exact Hlt | exact Hge].
Qed.

Lemma frame_updates_every_hand_witness :
  exists g' : Hands.Game,
    Hands.predictWebcam Samples.half Samples.sphere_draws 640 480
      (Hands.mkResult (Some [Samples.hand; Samples.hand])
         [[Category.mk "Closed_Fist" 1 ""]; [Category.mk "Open_Palm" 1 ""]]
         [[Samples.right]; [Samples.right]])
      Samples.game = Normal g'
    /\ (forall i : nat, (i < 2)%nat ->
          Hands.lastHandStates g' !! i
          = [[Category.mk "Closed_Fist" 1 ""]; [Category.mk "Open_Palm" 1 ""]] !! i
            ≫= GameLife.top_label).
Proof.
  destruct (frame_updates_every_hand Samples.half Samples.sphere_draws 640 480
              (Hands.mkResult (Some [Samples.hand; Samples.hand])
                 [[Category.mk "Closed_Fist" 1 ""]; [Category.mk "Open_Palm" 1 ""]]
                 [[Samples.right]; [Samples.right]])
              [Samples.hand; Samples.hand] Samples.game eq_refl (Nat.le_refl 2)
              (Nat.le_refl 2))
    as (g' & Hrun & Hlt & _).
  - repeat constructor; discriminate.
  - repeat constructor; discriminate.
  - exists g'. split; [exact Hrun | exact Hlt].
Defined.

(** X22: what makes a frame of the game throw a [TypeError]: a hand whose
    list of categories is empty, wherever it comes in the frame; and a first
    hand that closes its fist anew while the result carries no landmarks,
    since the hit test then gets no box. *)
Theorem frame_throws_on_missing_data (Math_random : nat -> Q) (Target_draws : nat -> nat)
    (w h : Q) (results : Hands.GestureRecognizerResult) (g : Hands.Game) :
  ((exists i : nat, Hands.gestures results !! i = Some []) ->
     Hands.predictWebcam Math_random Target_draws w h results g = Throw TypeError)
  /\ (forall (top : Category.t) (others : list Category.t)
             (rest : list (list Category.t)),
        Hands.landmarks results = None ->
        Hands.gestures results = (top :: others) :: rest ->
        Category.categoryName top = "Closed_Fist" ->
        Hands.lastHandStates g !! 0%nat <> Some "Closed_Fist" ->
        Hands.predictWebcam Math_random Target_draws w h results g = Throw TypeError).
Proof.
  split.
  - intros [i Hi]. unfold Hands.predictWebcam.
    apply (for_range_throws _ _ 0 i).
    + apply lookup_lt_Some in Hi. lia.
    + intros t. unfold Hands.gesture_body, Hands.generateHTML. by rewrite Hi.
  - intros top others rest Hl Hg Hfist Hprev.
    unfold Hands.predictWebcam. rewrite Hl, Hg.
    cbn [length for_range]. unfold Hands.gesture_body, Hands.generateHTML. rewrite Hg.
    cbn [lookup list_lookup get mbind completion_bind].
    destruct (Hands.handedness results !! 0%nat) as [hand|]; [|done].
    cbn [get mbind completion_bind].
    destruct (hand !! 0%nat) as [side|]; [|done].
    cbn [get mbind completion_bind].
    rewrite Hfist. rewrite !bool_decide_eq_true_2 by done.
    done.
Qed.

Lemma frame_throws_on_missing_data_witness :
  Hands.predictWebcam Samples.half Samples.sphere_draws 640 480
    (Hands.mkResult (Some [Samples.hand]) [[]] [[Samples.right]]) Samples.game
  = Throw TypeError.
Proof.
  apply (frame_throws_on_missing_data Samples.half Samples.sphere_draws 640 480
           (Hands.mkResult (Some [Samples.hand]) [[]] [[Samples.right]]) Samples.game).
  exists 0%nat. reflexivity.
Defined.

(** ** How often a hand can hit *)

Lemma rising_edges_bound (labels : list string) :
  forall prev : option string,
    (2 * Hands.rising_edges prev labels
     <= length labels + (if bool_decide (prev = Some "Closed_Fist") then 0 else 1))%nat.
Proof.
  induction labels as [|l labels IH]; intros prev.
  - simpl. case_bool_decide; lia.
  - cbn [Hands.rising_edges length]. specialize (IH (Some l)).
    unfold Hands.rising.
    destruct (decide (l = "Closed_Fist")) as [->|Hl].
    + rewrite (bool_decide_eq_true_2 (Some "Closed_Fist" = Some "Closed_Fist")) in IH
        by done.
      rewrite (bool_decide_eq_true_2 ("Closed_Fist" = "Closed_Fist")) by done.
      cbn [andb]. repeat case_bool_decide; try done; lia.
    + rewrite (bool_decide_eq_false_2 (l = "Closed_Fist")) by done.
      cbn [andb]. repeat case_bool_decide; lia.
Qed.

Lemma rising_edges_held (n : nat) :
  forall prev : option string,
    (Hands.rising_edges prev (repeat "Closed_Fist"%string n) <= 1)%nat
    /\ (prev = Some "Closed_Fist"%string ->
        Hands.rising_edges prev (repeat "Closed_Fist"%string n) = 0%nat).
Proof.
  induction n as [|n IH]; intros prev; [simpl; split; [lia|done]|].
  cbn [repeat Hands.rising_edges]. unfold Hands.rising.
  destruct (IH (Some "Closed_Fist"%string)) as [_ IH0]. rewrite (IH0 eq_refl).
  rewrite (bool_decide_eq_true_2 ("Closed_Fist" = "Closed_Fist")) by done.
  cbn [andb]. case_bool_decide as E; (split; [lia|]); intros Hp; first [lia | done].
Qed.

(** X23: a run of [n] frames that each carry one hand with its landmarks,
    its handedness category and its gesture label does not throw, and the
    hit test is called at most (n + 1) / 2 times in it, since two calls need
    a frame without the fist between them; however long the fist is held,
    frame after frame, it calls the hit test at most once. *)
Theorem hit_tests_bounded (Math_random : nat -> Q) (Target_draws : nat -> nat) (w h : Q)
    (side : Category.t) (frames : list (list NormalizedLandmark.t * string))
    (g : Hands.Game) :
  exists g' : Hands.Game,
    Hands.run Math_random Target_draws w h
      (map (fun f => Hands.one_hand f.1 side f.2) frames) g
    = Normal g'
    /\ (2 * (Hands.hit_tests 0 (Hands.log g') - Hands.hit_tests 0 (Hands.log g))
        <= length frames + 1)%nat
    /\ (Forall (fun f => f.2 = "Closed_Fist") frames ->
        (Hands.hit_tests 0 (Hands.log g') <= Hands.hit_tests 0 (Hands.log g) + 1)%nat).
Proof.
  destruct (run_one_hand Math_random Target_draws w h side frames g)
    as (g' & Hrun & Hc & _).
  exists g'. split; [exact Hrun|]. rewrite Hc. split.
  - pose proof (rising_edges_bound (map snd frames) (Hands.lastHandStates g !! 0%nat))
      as Hb.
    rewrite length_map in Hb. case_bool_decide; lia.
  - intros Hall.
    assert (E : map snd frames = repeat "Closed_Fist"%string (length frames)).
    { clear -Hall. induction Hall as [|[hand l] fs Hl _ IH]; [done|].
      simpl in *. by rewrite Hl, IH. }
    rewrite E.
    destruct (rising_edges_held (length frames) (Hands.lastHandStates g !! 0%nat))
      as [Hle _]. lia.
Qed.

(** ** When the retargeter throws *)

(** X24: with a loaded object, a transformation matrix and a first face
    in the result, the frame throws exactly when that face lacks index 454
    or the pinned index: a face of 455 or more landmarks that has the pinned
    index never makes it throw. *)
Theorem retargeter_throws_iff (unproject : Vector3.t -> Vector3.t)
    (o : Pin.PinnedObject) (landmarks : Pin.FaceLandmarkerResult)
    (data : list Q) (rest : list (list Q))
    (face : list NormalizedLandmark.t) (faces : list (list NormalizedLandmark.t)) :
  Pin.facialTransformationMatrixes landmarks = Some (data :: rest) ->
  Pin.faceLandmarks landmarks = face :: faces ->
  (snd (Pin.detectFaceLandmarks unproject o (Some landmarks)) = Throw TypeError
   <-> (length face <= 454 \/ length face <= Pin.vertexToPin o)%nat)
  /\ (snd (Pin.detectFaceLandmarks unproject o (Some landmarks)) = Normal tt
      <-> (454 < length face /\ Pin.vertexToPin o < length face)%nat).
Proof.
  intros Hm Hf.
  unfold Pin.detectFaceLandmarks, Pin.retarget. rewrite Hm, Hf.
  cbn [lookup list_lookup get mbind completion_bind Pin.vertexToPin].
  destruct (Nat.le_gt_cases (length face) 454) as [Hshort|Hlong].
  - rewrite (lookup_ge_None_2 face 454) by done.
    destruct (face !! 234%nat); cbn [get mbind completion_bind snd];
      (split; split; [by left | done | done | lia]).
  - destruct (lookup_lt_is_Some_2 face 234 ltac:(lia)) as [l234 ->].
    destruct (lookup_lt_is_Some_2 face 454 ltac:(lia)) as [l454 ->].
    destruct (lookup_lt_is_Some_2 face 10 ltac:(lia)) as [l10 ->].
    destruct (lookup_lt_is_Some_2 face 152 ltac:(lia)) as [l152 ->].
    destruct (lookup_lt_is_Some_2 face 1 ltac:(lia)) as [center ->].
    cbn [get mbind completion_bind].
    destruct (Nat.le_gt_cases (length face) (Pin.vertexToPin o)) as [Hv|Hv].
    + rewrite (lookup_ge_None_2 face (Pin.vertexToPin o)) by done.
      cbn [get mbind completion_bind snd].
      split; split; [by right | done | done | lia].
    + destruct (lookup_lt_is_Some_2 face (Pin.vertexToPin o) Hv) as [vertex ->].
      cbn [get mbind completion_bind snd].
      split; split; [done | lia | done | done].
Qed.

Lemma retargeter_throws_iff_witness :
  snd (Pin.detectFaceLandmarks (fun v => v) Samples.loaded_object
         (Some Samples.face_with_matrix)) = Normal tt
  <-> (454 < length Samples.face /\ Pin.vertexToPin Samples.loaded_object
                                    < length Samples.face)%nat.
Proof.
  apply (retargeter_throws_iff (fun v => v) Samples.loaded_object
           Samples.face_with_matrix Samples.identity_data [] Samples.face []).
  - reflexivity.
  - reflexivity.
Defined.

(** ** A hand that leaves the view *)

Lemma run_app (Math_random : nat -> Q) (Target_draws : nat -> nat) (w h : Q)
    (fs1 fs2 : list Hands.GestureRecognizerResult) :
  forall g : Hands.Game,
    Hands.run Math_random Target_draws w h (fs1 ++ fs2) g
    = Hands.run Math_random Target_draws w h fs1 g ≫= Hands.run Math_random Target_draws w h fs2.
Proof.
  induction fs1 as [|f fs1 IH]; intros g; [done|].
  cbn [app Hands.run].
  destruct (Hands.predictWebcam Math_random Target_draws w h f g) as [g1|e]; [|done].
  cbn [mbind completion_bind]. apply IH.
Qed.

Lemma run_untracked (Math_random : nat -> Q) (Target_draws : nat -> nat) (w h : Q)
    (k : nat) (g : Hands.Game) :
  Hands.run Math_random Target_draws w h (repeat Untracked.frame k) g = Normal g.
Proof. induction k as [|k IH]; [done|]. cbn [repeat Hands.run]. exact IH. Qed.

(** X25: frames in which no hand is tracked (no landmarks, no gestures,
    no handedness) change nothing of the game, not even the stored labels;
    so a fist that is seen, lost from view for any number of frames and seen
    again still closed calls the hit test once, not twice.  The frames that
    show the fist carry the hand's landmarks and its handedness category. *)
Theorem lost_hand_keeps_debounce (Math_random : nat -> Q) (Target_draws : nat -> nat)
    (w h : Q) (k : nat) (hand hand' : list NormalizedLandmark.t)
    (side side' : Category.t) (g : Hands.Game) :
  Hands.lastHandStates g !! 0%nat <> Some "Closed_Fist"%string ->
  Hands.run Math_random Target_draws w h (repeat Untracked.frame k) g = Normal g
  /\ exists g' : Hands.Game,
       Hands.run Math_random Target_draws w h
         ([Hands.one_hand hand side "Closed_Fist"] ++ repeat Untracked.frame k
          ++ [Hands.one_hand hand' side' "Closed_Fist"]) g = Normal g'
       /\ Hands.hit_tests 0 (Hands.log g') = S (Hands.hit_tests 0 (Hands.log g)).
Proof.
  intros Hprev. split; [apply run_untracked|].
  destruct (run_one_hand Math_random Target_draws w h side
              [(hand, "Closed_Fist"%string)] g) as (g1 & Hrun1 & Hc1 & Hl1).
  destruct (run_one_hand Math_random Target_draws w h side'
              [(hand', "Closed_Fist"%string)] g1) as (g2 & Hrun2 & Hc2 & _).
  exists g2. split.
  - rewrite run_app. cbn [map fst snd] in Hrun1. rewrite Hrun1.
    cbn [mbind completion_bind]. rewrite run_app, run_untracked.
    cbn [mbind completion_bind]. exact Hrun2.
  - rewrite Hc2, Hc1. cbn [map snd Hands.rising_edges List.last] in *.
    rewrite Hl1. unfold Hands.rising.
    rewrite (bool_decide_eq_true_2 (Hands.lastHandStates g !! 0%nat ≠ Some "Closed_Fist"))
      by done.
    rewrite (bool_decide_eq_false_2 (Some "Closed_Fist" ≠ Some "Closed_Fist"))
      by (intros H; by apply H).
    rewrite (bool_decide_eq_true_2 ("Closed_Fist" = "Closed_Fist")) by done.
    cbn [andb]. lia.
Qed.

Lemma lost_hand_keeps_debounce_witness :
  exists g' : Hands.Game,
    Hands.run Samples.half Samples.sphere_draws 640 480
      ([Hands.one_hand Samples.hand Samples.right "Closed_Fist"]
       ++ repeat Untracked.frame 3
       ++ [Hands.one_hand Samples.hand Samples.right "Closed_Fist"]) Samples.game
    = Normal g'
    /\ Hands.hit_tests 0 (Hands.log g') = S (Hands.hit_tests 0 (Hands.log Samples.game)).
Proof.
  apply (lost_hand_keeps_debounce Samples.half Samples.sphere_draws 640 480 3
           Samples.hand Samples.hand Samples.right Samples.right Samples.game).
  discriminate.
Defined.
